(** * Radio scheduler (nrf_802154_rsch.c): shallow embedding and properties

    The module keeps its data in file-level statics and talks to three
    collaborators (clock, radio arbiter, timer scheduler) and to the driver
    core through plain function calls.  The embedding below threads one
    record [rsch] holding the statics through every function, in a small
    state-and-fault monad:

    - unsigned C integers are [Z] with the wrap-around written out
      ([wrap32], [wrap8]);
    - [assert] is a fault ([AssertionFailed]); an array access outside
      [m_approved_prios] is a fault of its own ([OutOfBounds]);
    - calls that leave the module are appended to [trace], in call order;
      collaborators are taken not to call back into the module before they
      return, and no interrupt preempts a running entry point;
    - the two [do ... while] retry loops carry fuel; [all_prec_update_total]
      and [notify_core_total] show that one unit of fuel is always enough
      under that execution model;
    - [nrf_802154_log] only feeds the debug log and is left out, and so are
      [nrf_802154_rsch_timeslot_request] and
      [nrf_802154_rsch_timeslot_us_left_get], which hand their argument and
      result through to the arbiter and touch none of the statics. *)

From Stdlib Require Import ZArith Lia Bool List.
From stdpp Require Import base list.
Import ListNotations.

Local Open Scope Z_scope.

(** ** Declarations the module takes from other files *)

(** The enumeration [rsch_prio_t] is declared outside the module.  Its two
    named levels are taken as parameters; nothing below depends on how many
    levels lie between them. *)
Class PrioScale : Type := {
  RSCH_PRIO_IDLE : Z;
  RSCH_PRIO_MAX  : Z
}.

(** The timer scheduler (timer_scheduler/nrf_802154_timer_sched.h) is a
    collaborator; the two pure queries used by the module are parameters.
    [nrf_802154_timer_sched_time_is_in_future now t0 dt] answers whether
    the instant [t0 + dt] lies after [now]. *)
Class TimerSched : Type := {
  nrf_802154_timer_sched_granularity_get   : Z;
  nrf_802154_timer_sched_time_is_in_future : Z -> Z -> Z -> bool
}.

(** Modelled from the spec: the timer scheduler's source is missing; section 6
    lists [is_in_future(now, base, delta) -> bool], glossed in section 1 as
    "is time T in the future relative to now", and [granularity()].  Used
    for the concrete scenarios only. *)
Definition spec_timer_sched (granularity : Z) : TimerSched := {|
  nrf_802154_timer_sched_granularity_get   := granularity;
  nrf_802154_timer_sched_time_is_in_future := fun now t0 dt => now <? t0 + dt
|}.

(** The timer scheduler of the specification's scenarios: granularity 10. *)
Definition TS10 : TimerSched := spec_timer_sched 10.

(** Modelled from the spec: the enumeration [rsch_prec_t] is declared in the
    missing header; section 2 names exactly two preconditions, clock
    readiness and arbiter grant, and the module sizes its array with the
    trailing enumerator [RSCH_PREC_CNT]. *)
Definition RSCH_PREC_HFCLK : nat := 0.
Definition RSCH_PREC_RAAL  : nat := 1.
Definition RSCH_PREC_CNT   : nat := 2.

Definition PREC_RAMP_UP_TIME : Z := 300.

Definition wrap32 (z : Z) : Z := z mod 2 ^ 32.
Definition wrap8  (z : Z) : Z := z mod 2 ^ 8.

(** ** State *)

(** The two functions ever stored in [m_timer.callback]. *)
Inductive timer_callback : Type :=
| cb_delayed_timeslot_prec_request
| cb_delayed_timeslot_start.

Record nrf_802154_timer_t : Type := mk_timer {
  timer_t0       : Z;
  timer_dt       : Z;
  timer_callback_fn : option timer_callback   (* None is the NULL pointer *)
}.

(** Calls that leave the module. *)
Inductive event : Type :=
| nrf_802154_priority_drop_hfclk_stop
| nrf_802154_priority_drop_hfclk_stop_terminate
| nrf_802154_clock_hfclk_start
| nrf_raal_continuous_mode_enter
| nrf_raal_continuous_mode_exit
| nrf_raal_init
| nrf_raal_uninit
| nrf_802154_rsch_continuous_prio_changed (prio : Z)
| nrf_802154_rsch_delayed_timeslot_started
| nrf_802154_rsch_delayed_timeslot_failed
| nrf_802154_timer_sched_add (t : nrf_802154_timer_t) (round_up : bool)
| nrf_802154_timer_sched_remove.

Record rsch : Type := mk_rsch {
  m_ntf_mutex             : Z;
  m_ntf_mutex_monitor     : Z;
  m_req_mutex             : Z;
  m_req_mutex_monitor     : Z;
  m_last_notified_prio    : Z;
  m_approved_prios        : list Z;
  m_requested_prio        : Z;
  m_cont_mode_prio        : Z;
  m_delayed_timeslot_prio : Z;
  m_delayed_timeslot_t0   : Z;
  m_delayed_timeslot_dt   : Z;
  m_timer                 : nrf_802154_timer_t;
  (* the collaborators *)
  sched_time              : Z;     (* nrf_802154_timer_sched_time_get() *)
  sched_is_running        : bool;  (* ..._timer_sched_is_running(&m_timer) *)
  trace                   : list event
}.

Definition set_ntf_mutex (v : Z) (s : rsch) : rsch :=
  mk_rsch v (m_ntf_mutex_monitor s) (m_req_mutex s) (m_req_mutex_monitor s)
    (m_last_notified_prio s) (m_approved_prios s) (m_requested_prio s)
    (m_cont_mode_prio s) (m_delayed_timeslot_prio s) (m_delayed_timeslot_t0 s)
    (m_delayed_timeslot_dt s) (m_timer s) (sched_time s) (sched_is_running s)
    (trace s).

Definition set_ntf_mutex_monitor (v : Z) (s : rsch) : rsch :=
  mk_rsch (m_ntf_mutex s) v (m_req_mutex s) (m_req_mutex_monitor s)
    (m_last_notified_prio s) (m_approved_prios s) (m_requested_prio s)
    (m_cont_mode_prio s) (m_delayed_timeslot_prio s) (m_delayed_timeslot_t0 s)
    (m_delayed_timeslot_dt s) (m_timer s) (sched_time s) (sched_is_running s)
    (trace s).

Definition set_req_mutex (v : Z) (s : rsch) : rsch :=
  mk_rsch (m_ntf_mutex s) (m_ntf_mutex_monitor s) v (m_req_mutex_monitor s)
    (m_last_notified_prio s) (m_approved_prios s) (m_requested_prio s)
    (m_cont_mode_prio s) (m_delayed_timeslot_prio s) (m_delayed_timeslot_t0 s)
    (m_delayed_timeslot_dt s) (m_timer s) (sched_time s) (sched_is_running s)
    (trace s).

Definition set_req_mutex_monitor (v : Z) (s : rsch) : rsch :=
  mk_rsch (m_ntf_mutex s) (m_ntf_mutex_monitor s) (m_req_mutex s) v
    (m_last_notified_prio s) (m_approved_prios s) (m_requested_prio s)
    (m_cont_mode_prio s) (m_delayed_timeslot_prio s) (m_delayed_timeslot_t0 s)
    (m_delayed_timeslot_dt s) (m_timer s) (sched_time s) (sched_is_running s)
    (trace s).

Definition set_last_notified_prio (v : Z) (s : rsch) : rsch :=
  mk_rsch (m_ntf_mutex s) (m_ntf_mutex_monitor s) (m_req_mutex s)
    (m_req_mutex_monitor s) v (m_approved_prios s) (m_requested_prio s)
    (m_cont_mode_prio s) (m_delayed_timeslot_prio s) (m_delayed_timeslot_t0 s)
    (m_delayed_timeslot_dt s) (m_timer s) (sched_time s) (sched_is_running s)
    (trace s).

Definition set_approved_prios (v : list Z) (s : rsch) : rsch :=
  mk_rsch (m_ntf_mutex s) (m_ntf_mutex_monitor s) (m_req_mutex s)
    (m_req_mutex_monitor s) (m_last_notified_prio s) v (m_requested_prio s)
    (m_cont_mode_prio s) (m_delayed_timeslot_prio s) (m_delayed_timeslot_t0 s)
    (m_delayed_timeslot_dt s) (m_timer s) (sched_time s) (sched_is_running s)
    (trace s).

Definition set_requested_prio (v : Z) (s : rsch) : rsch :=
  mk_rsch (m_ntf_mutex s) (m_ntf_mutex_monitor s) (m_req_mutex s)
    (m_req_mutex_monitor s) (m_last_notified_prio s) (m_approved_prios s) v
    (m_cont_mode_prio s) (m_delayed_timeslot_prio s) (m_delayed_timeslot_t0 s)
    (m_delayed_timeslot_dt s) (m_timer s) (sched_time s) (sched_is_running s)
    (trace s).

Definition set_cont_mode_prio (v : Z) (s : rsch) : rsch :=
  mk_rsch (m_ntf_mutex s) (m_ntf_mutex_monitor s) (m_req_mutex s)
    (m_req_mutex_monitor s) (m_last_notified_prio s) (m_approved_prios s)
    (m_requested_prio s) v (m_delayed_timeslot_prio s) (m_delayed_timeslot_t0 s)
    (m_delayed_timeslot_dt s) (m_timer s) (sched_time s) (sched_is_running s)
    (trace s).

Definition set_delayed_timeslot_prio (v : Z) (s : rsch) : rsch :=
  mk_rsch (m_ntf_mutex s) (m_ntf_mutex_monitor s) (m_req_mutex s)
    (m_req_mutex_monitor s) (m_last_notified_prio s) (m_approved_prios s)
    (m_requested_prio s) (m_cont_mode_prio s) v (m_delayed_timeslot_t0 s)
    (m_delayed_timeslot_dt s) (m_timer s) (sched_time s) (sched_is_running s)
    (trace s).

Definition set_delayed_timeslot_t0 (v : Z) (s : rsch) : rsch :=
  mk_rsch (m_ntf_mutex s) (m_ntf_mutex_monitor s) (m_req_mutex s)
    (m_req_mutex_monitor s) (m_last_notified_prio s) (m_approved_prios s)
    (m_requested_prio s) (m_cont_mode_prio s) (m_delayed_timeslot_prio s) v
    (m_delayed_timeslot_dt s) (m_timer s) (sched_time s) (sched_is_running s)
    (trace s).

Definition set_delayed_timeslot_dt (v : Z) (s : rsch) : rsch :=
  mk_rsch (m_ntf_mutex s) (m_ntf_mutex_monitor s) (m_req_mutex s)
    (m_req_mutex_monitor s) (m_last_notified_prio s) (m_approved_prios s)
    (m_requested_prio s) (m_cont_mode_prio s) (m_delayed_timeslot_prio s)
    (m_delayed_timeslot_t0 s) v (m_timer s) (sched_time s) (sched_is_running s)
    (trace s).

Definition set_timer (v : nrf_802154_timer_t) (s : rsch) : rsch :=
  mk_rsch (m_ntf_mutex s) (m_ntf_mutex_monitor s) (m_req_mutex s)
    (m_req_mutex_monitor s) (m_last_notified_prio s) (m_approved_prios s)
    (m_requested_prio s) (m_cont_mode_prio s) (m_delayed_timeslot_prio s)
    (m_delayed_timeslot_t0 s) (m_delayed_timeslot_dt s) v (sched_time s)
    (sched_is_running s) (trace s).

Definition set_sched_time (v : Z) (s : rsch) : rsch :=
  mk_rsch (m_ntf_mutex s) (m_ntf_mutex_monitor s) (m_req_mutex s)
    (m_req_mutex_monitor s) (m_last_notified_prio s) (m_approved_prios s)
    (m_requested_prio s) (m_cont_mode_prio s) (m_delayed_timeslot_prio s)
    (m_delayed_timeslot_t0 s) (m_delayed_timeslot_dt s) (m_timer s) v
    (sched_is_running s) (trace s).

Definition set_sched_is_running (v : bool) (s : rsch) : rsch :=
  mk_rsch (m_ntf_mutex s) (m_ntf_mutex_monitor s) (m_req_mutex s)
    (m_req_mutex_monitor s) (m_last_notified_prio s) (m_approved_prios s)
    (m_requested_prio s) (m_cont_mode_prio s) (m_delayed_timeslot_prio s)
    (m_delayed_timeslot_t0 s) (m_delayed_timeslot_dt s) (m_timer s)
    (sched_time s) v (trace s).

Definition set_trace (v : list event) (s : rsch) : rsch :=
  mk_rsch (m_ntf_mutex s) (m_ntf_mutex_monitor s) (m_req_mutex s)
    (m_req_mutex_monitor s) (m_last_notified_prio s) (m_approved_prios s)
    (m_requested_prio s) (m_cont_mode_prio s) (m_delayed_timeslot_prio s)
    (m_delayed_timeslot_t0 s) (m_delayed_timeslot_dt s) (m_timer s)
    (sched_time s) (sched_is_running s) v.

(** ** The monad: state, faults, fuel *)

Inductive fault : Type :=
| AssertionFailed
| OutOfBounds.

Inductive outcome (A : Type) : Type :=
| Done (a : A) (s : rsch)
| Fault (f : fault)
| OutOfFuel.

Arguments Done {A} a s.
Arguments Fault {A} f.
Arguments OutOfFuel {A}.

Definition M (A : Type) : Type := rsch -> outcome A.

Definition ret {A} (a : A) : M A := fun s => Done a s.

Definition bind {A B} (m : M A) (k : A -> M B) : M B :=
  fun s =>
    match m s with
    | Done a s' => k a s'
    | Fault f => Fault f
    | OutOfFuel => OutOfFuel
    end.

Notation "'let!' x ':=' m 'in' k" := (bind m (fun x => k))
  (at level 10, x name, m at level 100, k at level 200, only parsing).
Notation "m ;;; k" := (bind m (fun _ => k))
  (at level 100, k at level 200, right associativity, only parsing).

Definition gets {A} (f : rsch -> A) : M A := fun s => Done (f s) s.
Definition modify (f : rsch -> rsch) : M unit := fun s => Done tt (f s).
Definition raise {A} (f : fault) : M A := fun _ => Fault f.

Definition assert (b : bool) : M unit :=
  if b then ret tt else raise AssertionFailed.

(** A call that leaves the module. *)
Definition call (e : event) : M unit :=
  modify (fun s => set_trace (trace s ++ [e]) s).

(** A pointer to one of the statics. *)
Record ref (A : Type) : Type := mk_ref {
  load  : rsch -> A;
  store : A -> rsch -> rsch
}.
Arguments load {A} r s.
Arguments store {A} r v s.

Definition p_ntf_mutex         : ref Z := mk_ref Z m_ntf_mutex set_ntf_mutex.
Definition p_ntf_mutex_monitor : ref Z :=
  mk_ref Z m_ntf_mutex_monitor set_ntf_mutex_monitor.
Definition p_req_mutex         : ref Z := mk_ref Z m_req_mutex set_req_mutex.
Definition p_req_mutex_monitor : ref Z :=
  mk_ref Z m_req_mutex_monitor set_req_mutex_monitor.

(** Reading and writing [m_approved_prios[i]]. *)
Definition approved_read (i : nat) : M Z :=
  fun s =>
    match m_approved_prios s !! i with
    | Some p => Done p s
    | None => Fault OutOfBounds
    end.

Definition approved_write (i : nat) (p : Z) : M unit :=
  fun s =>
    if (i <? length (m_approved_prios s))%nat
    then Done tt (set_approved_prios (<[i := p]> (m_approved_prios s)) s)
    else Fault OutOfBounds.

(** ** The module *)

Section Rsch.

Context {PS : PrioScale} {TS : TimerSched}.

(** With no preemption between the exclusive load and the exclusive store
    the store succeeds, so the loop body runs once. *)
Definition mutex_trylock (p_mutex p_mutex_monitor : ref Z) : M bool :=
  let! mutex_value := gets (load p_mutex) in
  if negb (mutex_value =? 0)
  then
    modify (fun s =>
      store p_mutex_monitor (wrap8 (load p_mutex_monitor s + 1)) s) ;;;
    ret false
  else
    modify (store p_mutex 1) ;;;
    ret true.

Definition mutex_unlock (p_mutex : ref Z) : M unit :=
  modify (store p_mutex 0).

Definition any_prec_should_be_requested_for_delayed_timeslot (s : rsch)
    : bool :=
  let now := sched_time s in
  let t0  := m_delayed_timeslot_t0 s in
  let dt  := wrap32 (m_delayed_timeslot_dt s - PREC_RAMP_UP_TIME -
                     nrf_802154_timer_sched_granularity_get) in
  (RSCH_PRIO_IDLE <? m_delayed_timeslot_prio s) &&
  negb (nrf_802154_timer_sched_time_is_in_future now t0 dt).

Definition required_prio_lvl_get (s : rsch) : Z :=
  let result := RSCH_PRIO_IDLE in
  let result :=
    if any_prec_should_be_requested_for_delayed_timeslot s
    then m_delayed_timeslot_prio s
    else result in
  let result :=
    if result <? m_cont_mode_prio s then m_cont_mode_prio s else result in
  result.

Definition prec_approved_prio_set (prec : nat) (prio : Z) : M unit :=
  assert (prec <=? RSCH_PREC_CNT)%nat ;;;
  let! requested := gets m_requested_prio in
  if (requested =? RSCH_PRIO_IDLE) && negb (prio =? RSCH_PRIO_IDLE)
  then ret tt
  else
    let! current := approved_read prec in
    assert (negb (current =? prio) || (prio =? RSCH_PRIO_IDLE)) ;;;
    approved_write prec prio.

(** What [all_prec_update] does between taking and releasing the mutex. *)
Definition all_prec_update_section : M unit :=
  let! prev_prio := gets m_requested_prio in
  let! new_prio := gets required_prio_lvl_get in
  if negb (prev_prio =? new_prio)
  then
    modify (set_requested_prio new_prio) ;;;
    if new_prio =? RSCH_PRIO_IDLE
    then
      call nrf_802154_priority_drop_hfclk_stop ;;;
      prec_approved_prio_set RSCH_PREC_HFCLK RSCH_PRIO_IDLE ;;;
      call nrf_raal_continuous_mode_exit ;;;
      prec_approved_prio_set RSCH_PREC_RAAL RSCH_PRIO_IDLE
    else
      call nrf_802154_priority_drop_hfclk_stop_terminate ;;;
      call nrf_802154_clock_hfclk_start ;;;
      call nrf_raal_continuous_mode_enter
  else ret tt.

Fixpoint all_prec_update (fuel : nat) : M unit :=
  match fuel with
  | O => fun _ => OutOfFuel
  | S fuel' =>
      let! locked := mutex_trylock p_req_mutex p_req_mutex_monitor in
      if negb locked then ret tt
      else
        let! monitor := gets m_req_mutex_monitor in
        all_prec_update_section ;;;
        mutex_unlock p_req_mutex ;;;
        let! monitor' := gets m_req_mutex_monitor in
        if negb (monitor =? monitor') then all_prec_update fuel' else ret tt
  end.

Fixpoint approved_prio_lvl_loop (n i : nat) (result : Z) : M Z :=
  match n with
  | O => ret result
  | S n' =>
      let! a := approved_read i in
      approved_prio_lvl_loop n' (S i) (if a <? result then a else result)
  end.

Definition approved_prio_lvl_get : M Z :=
  approved_prio_lvl_loop RSCH_PREC_CNT 0 RSCH_PRIO_MAX.

Definition requested_prio_lvl_is_at_least (prio : Z) (s : rsch) : bool :=
  prio <=? m_requested_prio s.

(** What [notify_core] does between taking and releasing the mutex. *)
Definition notify_core_section : M unit :=
  let! approved_prio_lvl := approved_prio_lvl_get in
  let! cont_mode_prio := gets m_cont_mode_prio in
  let! last_notified_prio := gets m_last_notified_prio in
  if (RSCH_PRIO_IDLE <? cont_mode_prio) &&
     negb (last_notified_prio =? approved_prio_lvl)
  then
    modify (set_last_notified_prio approved_prio_lvl) ;;;
    call (nrf_802154_rsch_continuous_prio_changed approved_prio_lvl)
  else ret tt.

Fixpoint notify_core (fuel : nat) : M unit :=
  match fuel with
  | O => fun _ => OutOfFuel
  | S fuel' =>
      let! locked := mutex_trylock p_ntf_mutex p_ntf_mutex_monitor in
      if negb locked then ret tt
      else
        let! temp_mon := gets m_ntf_mutex_monitor in
        notify_core_section ;;;
        mutex_unlock p_ntf_mutex ;;;
        let! monitor' := gets m_ntf_mutex_monitor in
        if negb (temp_mon =? monitor') then notify_core fuel' else ret tt
  end.

Definition timer_sched_add (round_up : bool) : M unit :=
  let! t := gets m_timer in
  call (nrf_802154_timer_sched_add t round_up) ;;;
  modify (set_sched_is_running true).

Definition delayed_timeslot_start : M unit :=
  let! req_prio_lvl := gets m_delayed_timeslot_prio in
  modify (set_delayed_timeslot_prio RSCH_PRIO_IDLE) ;;;
  let! approved := approved_prio_lvl_get in
  if req_prio_lvl <=? approved
  then call nrf_802154_rsch_delayed_timeslot_started
  else call nrf_802154_rsch_delayed_timeslot_failed.

Definition delayed_timeslot_prec_request (fuel : nat) : M unit :=
  all_prec_update fuel ;;;
  let! t0 := gets m_delayed_timeslot_t0 in
  let! dt := gets m_delayed_timeslot_dt in
  modify (set_timer (mk_timer t0 dt (Some cb_delayed_timeslot_start))) ;;;
  timer_sched_add true.

Fixpoint approved_prios_clear (n i : nat) : M unit :=
  match n with
  | O => ret tt
  | S n' => approved_write i RSCH_PRIO_IDLE ;;; approved_prios_clear n' (S i)
  end.

Definition nrf_802154_rsch_init : M unit :=
  call nrf_raal_init ;;;
  modify (set_ntf_mutex 0) ;;;
  modify (set_req_mutex 0) ;;;
  modify (set_last_notified_prio RSCH_PRIO_IDLE) ;;;
  modify (set_cont_mode_prio RSCH_PRIO_IDLE) ;;;
  modify (set_delayed_timeslot_prio RSCH_PRIO_IDLE) ;;;
  modify (set_requested_prio RSCH_PRIO_IDLE) ;;;
  approved_prios_clear RSCH_PREC_CNT 0.

Definition nrf_802154_rsch_uninit : M unit :=
  call nrf_802154_timer_sched_remove ;;;
  modify (set_sched_is_running false) ;;;
  call nrf_raal_uninit.

Definition nrf_802154_rsch_continuous_mode_priority_set
    (fuel : nat) (prio : Z) : M unit :=
  modify (set_cont_mode_prio prio) ;;;
  all_prec_update fuel ;;;
  notify_core fuel ;;;
  if prio =? RSCH_PRIO_IDLE
  then modify (set_last_notified_prio RSCH_PRIO_IDLE)
  else ret tt.

Definition nrf_802154_rsch_delayed_timeslot_request
    (t0 dt length prio : Z) : M bool :=
  let! now := gets sched_time in
  let req_dt := wrap32 (dt - PREC_RAMP_UP_TIME) in
  let! running := gets sched_is_running in
  assert (negb running) ;;;
  let! delayed := gets m_delayed_timeslot_prio in
  assert (delayed =? RSCH_PRIO_IDLE) ;;;
  assert (negb (prio =? RSCH_PRIO_IDLE)) ;;;
  if nrf_802154_timer_sched_time_is_in_future now t0 req_dt
  then
    modify (set_delayed_timeslot_prio prio) ;;;
    modify (set_delayed_timeslot_t0 t0) ;;;
    modify (set_delayed_timeslot_dt dt) ;;;
    modify (set_timer
              (mk_timer t0 req_dt (Some cb_delayed_timeslot_prec_request))) ;;;
    timer_sched_add false ;;;
    ret true
  else
    let! at_max := gets (requested_prio_lvl_is_at_least RSCH_PRIO_MAX) in
    if at_max && nrf_802154_timer_sched_time_is_in_future now t0 dt
    then
      modify (set_delayed_timeslot_prio prio) ;;;
      modify (set_delayed_timeslot_t0 t0) ;;;
      modify (set_delayed_timeslot_dt dt) ;;;
      modify (set_timer (mk_timer t0 dt (Some cb_delayed_timeslot_start))) ;;;
      timer_sched_add true ;;;
      ret true
    else ret false.

Definition nrf_802154_rsch_prec_is_approved (prec : nat) (prio : Z) : M bool :=
  assert (prec <? RSCH_PREC_CNT)%nat ;;;
  let! a := approved_read prec in
  ret (prio <=? a).

Definition nrf_raal_timeslot_started (fuel : nat) : M unit :=
  prec_approved_prio_set RSCH_PREC_RAAL RSCH_PRIO_MAX ;;;
  notify_core fuel.

Definition nrf_raal_timeslot_ended (fuel : nat) : M unit :=
  prec_approved_prio_set RSCH_PREC_RAAL RSCH_PRIO_IDLE ;;;
  notify_core fuel.

Definition nrf_802154_clock_hfclk_ready (fuel : nat) : M unit :=
  prec_approved_prio_set RSCH_PREC_HFCLK RSCH_PRIO_MAX ;;;
  notify_core fuel.

End Rsch.

(** ** The module seen from outside *)

(** A scale with just the two named levels, for concrete runs. *)
Definition two_level_scale : PrioScale := {|
  RSCH_PRIO_IDLE := 0;
  RSCH_PRIO_MAX  := 1
|}.

(** The statics as the C runtime leaves them before [main]: all zero. *)
Definition power_on (now : Z) : rsch := {|
  m_ntf_mutex := 0; m_ntf_mutex_monitor := 0;
  m_req_mutex := 0; m_req_mutex_monitor := 0;
  m_last_notified_prio := 0;
  m_approved_prios := replicate RSCH_PREC_CNT 0;
  m_requested_prio := 0;
  m_cont_mode_prio := 0;
  m_delayed_timeslot_prio := 0;
  m_delayed_timeslot_t0 := 0;
  m_delayed_timeslot_dt := 0;
  m_timer := mk_timer 0 0 None;
  sched_time := now;
  sched_is_running := false;
  trace := []
|}.

(** Modelled from the spec: the timer scheduler's source is missing; section 2
    describes one-shot timers, so a timer that fires is no longer queued
    when its callback runs. *)
Definition timer_fired `{PrioScale, TimerSched} (fuel : nat) : M unit :=
  let! running := gets sched_is_running in
  if running
  then
    modify (set_sched_is_running false) ;;;
    let! t := gets m_timer in
    match timer_callback_fn t with
    | Some cb_delayed_timeslot_prec_request =>
        delayed_timeslot_prec_request fuel
    | Some cb_delayed_timeslot_start => delayed_timeslot_start
    | None => ret tt
    end
  else ret tt.

(** The module right after [nrf_802154_rsch_init], on the two-level scale. *)
Definition initialised (now : Z) : rsch :=
  set_trace [nrf_raal_init] (power_on now).

(** The state after a delayed timeslot has been recorded and [m_timer]
    queued with timer [t]. *)
Definition armed (prio t0 dt : Z) (t : nrf_802154_timer_t) (round_up : bool)
    (s : rsch) : rsch :=
  set_sched_is_running true
    (set_trace (trace s ++ [nrf_802154_timer_sched_add t round_up])
       (set_timer t
          (set_delayed_timeslot_dt dt
             (set_delayed_timeslot_t0 t0
                (set_delayed_timeslot_prio prio s))))).

(** A delayed timeslot of priority 1 requested for 1000 + 500, seen at
    time [now]. *)
Definition pending (now : Z) : rsch :=
  armed 1 1000 500
    (mk_timer 1000 200 (Some cb_delayed_timeslot_prec_request)) false
    (initialised now).

(** Continuous mode entered at priority 1 and requested of the
    preconditions, with the approvals [approved] in the array. *)
Definition listening (approved : list Z) : rsch :=
  set_approved_prios approved
    (set_requested_prio 1 (set_cont_mode_prio 1 (initialised 0))).

(** Everything that can happen to the module between two instants. *)
Inductive api_call : Type :=
| do_init
| do_uninit
| do_continuous_mode_priority_set (prio : Z)
| do_delayed_timeslot_request (t0 dt length prio : Z)
| do_prec_is_approved (prec : nat) (prio : Z)
| do_raal_timeslot_started
| do_raal_timeslot_ended
| do_clock_hfclk_ready
| do_timer_fired
| do_time_passes (now : Z).

Definition run `{PrioScale, TimerSched} (fuel : nat) (c : api_call) : M unit :=
  match c with
  | do_init => nrf_802154_rsch_init
  | do_uninit => nrf_802154_rsch_uninit
  | do_continuous_mode_priority_set prio =>
      nrf_802154_rsch_continuous_mode_priority_set fuel prio
  | do_delayed_timeslot_request t0 dt length prio =>
      nrf_802154_rsch_delayed_timeslot_request t0 dt length prio ;;; ret tt
  | do_prec_is_approved prec prio =>
      nrf_802154_rsch_prec_is_approved prec prio ;;; ret tt
  | do_raal_timeslot_started => nrf_raal_timeslot_started fuel
  | do_raal_timeslot_ended => nrf_raal_timeslot_ended fuel
  | do_clock_hfclk_ready => nrf_802154_clock_hfclk_ready fuel
  | do_timer_fired => timer_fired fuel
  | do_time_passes now => modify (set_sched_time now)
  end.

(** States the module can be in: initialised after power-on, then any
    number of calls, each one returning normally. *)
Inductive reachable `{PrioScale, TimerSched} : rsch -> Prop :=
| reachable_init now s :
    nrf_802154_rsch_init (power_on now) = Done tt s -> reachable s
| reachable_step s fuel c s' :
    reachable s -> run fuel c s = Done tt s' -> reachable s'.

(** A sequence of calls, stopping at the first one that does not return. *)
Fixpoint run_all `{PrioScale, TimerSched} (fuel : nat) (cs : list api_call)
    : M unit :=
  match cs with
  | [] => ret tt
  | c :: cs' => run fuel c ;;; run_all fuel cs'
  end.

(** The calls that left the module by the end of a run, if it returned. *)
Definition final_trace {A} (o : outcome A) : option (list event) :=
  match o with
  | Done _ s => Some (trace s)
  | _ => None
  end.

(** ** What the specification says, in its own words *)

(** [m] is the minimum of the list [l]. *)
Definition is_minimum (m : Z) (l : list Z) : Prop :=
  m ∈ l /\ Forall (fun x => m <= x) l.

(** Section 3, "effective" delayed-timeslot priority: the recorded priority
    when it is not idle and the pre-request point is not in the future,
    idle otherwise. *)
Definition delayed_timeslot_effective_prio `{PrioScale, TimerSched}
    (s : rsch) : Z :=
  if negb (m_delayed_timeslot_prio s =? RSCH_PRIO_IDLE) &&
     negb (nrf_802154_timer_sched_time_is_in_future (sched_time s)
             (m_delayed_timeslot_t0 s)
             (wrap32 (m_delayed_timeslot_dt s - PREC_RAMP_UP_TIME -
                      nrf_802154_timer_sched_granularity_get)))
  then m_delayed_timeslot_prio s
  else RSCH_PRIO_IDLE.

(** The array has the size it is declared with. *)
Definition array_ok (s : rsch) : Prop :=
  length (m_approved_prios s) = RSCH_PREC_CNT.

(** Every approval in the array is one of the two levels the module ever
    writes there. *)
Definition levels_ok `{PrioScale} (s : rsch) : Prop :=
  array_ok s /\
  Forall (fun p => p = RSCH_PRIO_IDLE \/ p = RSCH_PRIO_MAX)
    (m_approved_prios s).

(** Started in a state with [P], the computation does not access the array
    out of bounds, and if it returns, it does so in a state with [Q]. *)
Definition hoare {A} (P : rsch -> Prop) (m : M A) (Q : rsch -> Prop) : Prop :=
  forall s, P s ->
    match m s with
    | Done _ s' => Q s'
    | Fault OutOfBounds => False
    | Fault AssertionFailed => True
    | OutOfFuel => True
    end.

(** The level all preconditions agree on, as a function of the array. *)
Definition approved_level `{PrioScale} (s : rsch) : Z :=
  fold_left Z.min (m_approved_prios s) RSCH_PRIO_MAX.

(** The state the notifier's critical section leaves behind. *)
Definition notify_core_section_result `{PrioScale} (s : rsch) : rsch :=
  if (RSCH_PRIO_IDLE <? m_cont_mode_prio s) &&
     negb (m_last_notified_prio s =? approved_level s)
  then set_trace
         (trace s ++
          [nrf_802154_rsch_continuous_prio_changed (approved_level s)])
         (set_last_notified_prio (approved_level s) s)
  else s.

(** The state the request driver's critical section leaves behind. *)
Definition all_prec_update_section_result `{PrioScale, TimerSched}
    (s : rsch) : rsch :=
  let new_prio := required_prio_lvl_get s in
  if m_requested_prio s =? new_prio then s
  else if new_prio =? RSCH_PRIO_IDLE
  then set_approved_prios
         (<[RSCH_PREC_RAAL := RSCH_PRIO_IDLE]>
            (<[RSCH_PREC_HFCLK := RSCH_PRIO_IDLE]> (m_approved_prios s)))
         (set_trace
            (trace s ++ [nrf_802154_priority_drop_hfclk_stop;
                         nrf_raal_continuous_mode_exit])
            (set_requested_prio new_prio s))
  else set_trace
         (trace s ++ [nrf_802154_priority_drop_hfclk_stop_terminate;
                      nrf_802154_clock_hfclk_start;
                      nrf_raal_continuous_mode_enter])
         (set_requested_prio new_prio s).

(** What one call of the request driver, of the notifier and of
    [nrf_802154_rsch_continuous_mode_priority_set] leave behind when nothing
    preempts them: a held mutex only bumps its monitor. *)
Definition all_prec_update_result `{PrioScale, TimerSched} (s : rsch) : rsch :=
  if m_req_mutex s =? 0 then all_prec_update_section_result s
  else set_req_mutex_monitor (wrap8 (m_req_mutex_monitor s + 1)) s.

Definition notify_core_result `{PrioScale} (s : rsch) : rsch :=
  if m_ntf_mutex s =? 0 then notify_core_section_result s
  else set_ntf_mutex_monitor (wrap8 (m_ntf_mutex_monitor s + 1)) s.

Definition continuous_mode_priority_set_result `{PrioScale, TimerSched}
    (prio : Z) (s : rsch) : rsch :=
  let s' := notify_core_result
              (all_prec_update_result (set_cont_mode_prio prio s)) in
  if prio =? RSCH_PRIO_IDLE
  then set_last_notified_prio RSCH_PRIO_IDLE s'
  else s'.

(** The events of a trace that reach the clock or the arbiter. *)
Definition is_collaborator_request (e : event) : bool :=
  match e with
  | nrf_802154_priority_drop_hfclk_stop
  | nrf_802154_priority_drop_hfclk_stop_terminate
  | nrf_802154_clock_hfclk_start
  | nrf_raal_continuous_mode_enter
  | nrf_raal_continuous_mode_exit => true
  | _ => false
  end.

(** ** Further notions used below *)

(** [n] runs of a computation, one after the other. *)
Fixpoint repeat_m (n : nat) (m : M unit) : M unit :=
  match n with
  | O => ret tt
  | S n' => m ;;; repeat_m n' m
  end.

(** What holds between any two calls: the array is well formed, both
    mutexes are free, and while nothing is requested no precondition is
    approved. *)
Definition quiescent `{PrioScale} (s : rsch) : Prop :=
  levels_ok s /\
  m_req_mutex s = 0 /\
  m_ntf_mutex s = 0 /\
  (m_requested_prio s = RSCH_PRIO_IDLE ->
   Forall (fun p => p = RSCH_PRIO_IDLE) (m_approved_prios s)).

(** The events a trace gained between two states. *)
Definition new_events (s s' : rsch) : list event :=
  drop (length (trace s)) (trace s').

Definition is_prio_changed (e : event) : bool :=
  match e with
  | nrf_802154_rsch_continuous_prio_changed _ => true
  | _ => false
  end.

(** The levels the driver core was told, in the order it was told them. *)
Definition reported_levels (tr : list event) : list Z :=
  flat_map
    (fun e =>
       match e with
       | nrf_802154_rsch_continuous_prio_changed prio => [prio]
       | _ => []
       end) tr.

(** No level of the list is followed by itself. *)
Fixpoint no_repeat (l : list Z) : Prop :=
  match l with
  | a :: l' =>
      match l' with
      | b :: _ => a <> b
      | [] => True
      end /\ no_repeat l'
  | [] => True
  end.

(** The driver core never was told a level twice in a row, and the level it
    was told last, if any, is the one the module remembers. *)
Definition reports_ok (s : rsch) : Prop :=
  no_repeat (reported_levels (trace s)) /\
  forall p, last (reported_levels (trace s)) = Some p ->
            m_last_notified_prio s = p.

(** The invariant of a session. *)
Definition session_ok `{PrioScale} (s : rsch) : Prop :=
  levels_ok s /\ reports_ok s.

(** The calls that neither leave continuous mode nor initialise the
    module anew. *)
Definition in_session `{PrioScale} (c : api_call) : Prop :=
  match c with
  | do_init => False
  | do_continuous_mode_priority_set prio => prio <> RSCH_PRIO_IDLE
  | _ => True
  end.

(** ** The FSM hooks (nrf_drv_radio802154_fsm_hooks.c) *)

(** The hooks themselves belong to the CSMA-CA and ACK-timeout features,
    which keep state of their own ([mac]); they and the three preprocessor
    symbols that shape the hook tables are parameters.  A frame pointer is
    the frame it points to; [nrf_drv_radio802154_term_t] and
    [nrf_drv_radio802154_tx_error_t] are enumerations. *)
Class MacFeatures : Type := {
  mac : Type;
  NRF_DRV_RADIO802154_CSMA_CA_ENABLED     : bool;
  NRF_DRV_RADIO802154_ACK_TIMEOUT_ENABLED : bool;
  GNUC                                    : bool;   (* __GNUC__ is defined *)
  nrf_drv_radio802154_csma_ca_abort : Z -> mac -> bool * mac;
  nrf_drv_radio802154_ack_timeout_abort : Z -> mac -> bool * mac;
  nrf_drv_radio802154_ack_timeout_transmitted_hook : list Z -> mac -> mac;
  nrf_drv_radio802154_csma_ca_tx_failed_hook :
    list Z -> Z -> mac -> bool * mac;
  nrf_drv_radio802154_ack_timeout_tx_failed_hook :
    list Z -> Z -> mac -> bool * mac;
  nrf_drv_radio802154_csma_ca_tx_started_hook : list Z -> mac -> bool * mac;
  nrf_drv_radio802154_ack_timeout_tx_started_hook :
    list Z -> mac -> bool * mac
}.

Section FsmHooks.

Context {MF : MacFeatures}.

Definition abort_hook : Type := Z -> mac -> bool * mac.
Definition transmitted_hook : Type := list Z -> mac -> mac.
Definition tx_failed_hook : Type := list Z -> Z -> mac -> bool * mac.
Definition tx_started_hook : Type := list Z -> mac -> bool * mac.

(** An entry of a hook table: a function, or [None] for the null pointer
    appended when the compiler is not GCC. *)
Definition null_padding {H : Type} : list (option H) :=
  if GNUC then [] else [None].

Definition m_abort_hooks : list (option abort_hook) :=
  (if NRF_DRV_RADIO802154_CSMA_CA_ENABLED
   then [Some nrf_drv_radio802154_csma_ca_abort] else []) ++
  (if NRF_DRV_RADIO802154_ACK_TIMEOUT_ENABLED
   then [Some nrf_drv_radio802154_ack_timeout_abort] else []) ++
  null_padding.

Definition m_transmitted_hooks : list (option transmitted_hook) :=
  (if NRF_DRV_RADIO802154_ACK_TIMEOUT_ENABLED
   then [Some nrf_drv_radio802154_ack_timeout_transmitted_hook] else []) ++
  null_padding.

Definition m_tx_failed_hooks : list (option tx_failed_hook) :=
  (if NRF_DRV_RADIO802154_CSMA_CA_ENABLED
   then [Some nrf_drv_radio802154_csma_ca_tx_failed_hook] else []) ++
  (if NRF_DRV_RADIO802154_ACK_TIMEOUT_ENABLED
   then [Some nrf_drv_radio802154_ack_timeout_tx_failed_hook] else []) ++
  null_padding.

Definition m_tx_started_hooks : list (option tx_started_hook) :=
  (if NRF_DRV_RADIO802154_CSMA_CA_ENABLED
   then [Some nrf_drv_radio802154_csma_ca_tx_started_hook] else []) ++
  (if NRF_DRV_RADIO802154_ACK_TIMEOUT_ENABLED
   then [Some nrf_drv_radio802154_ack_timeout_tx_started_hook] else []) ++
  null_padding.

(** The loop shared by the three dispatchers that return a result: walk
    the table, stop at a null entry, call the hook, stop when it answers
    false.  [result] is the local variable of that name. *)
Fixpoint hooks_until_refusal {H : Type} (invoke : H -> mac -> bool * mac)
    (hooks : list (option H)) (result : bool) (m : mac) : bool * mac :=
  match hooks with
  | [] => (result, m)
  | None :: _ => (result, m)
  | Some hook :: hooks' =>
      let (result', m') := invoke hook m in
      if negb result' then (result', m')
      else hooks_until_refusal invoke hooks' result' m'
  end.

Definition nrf_drv_radio802154_fsm_hooks_terminate (term_lvl : Z) (m : mac)
    : bool * mac :=
  hooks_until_refusal (fun hook => hook term_lvl) m_abort_hooks true m.

Fixpoint transmitted_hooks_loop (hooks : list (option transmitted_hook))
    (p_frame : list Z) (m : mac) : mac :=
  match hooks with
  | [] => m
  | None :: _ => m
  | Some hook :: hooks' =>
      transmitted_hooks_loop hooks' p_frame (hook p_frame m)
  end.

Definition nrf_drv_radio802154_fsm_hooks_transmitted (p_frame : list Z)
    (m : mac) : mac :=
  transmitted_hooks_loop m_transmitted_hooks p_frame m.

Definition nrf_drv_radio802154_fsm_hooks_tx_failed (p_frame : list Z)
    (error : Z) (m : mac) : bool * mac :=
  hooks_until_refusal (fun hook => hook p_frame error) m_tx_failed_hooks
    true m.

Definition nrf_drv_radio802154_fsm_hooks_tx_started (p_frame : list Z)
    (m : mac) : bool * mac :=
  hooks_until_refusal (fun hook => hook p_frame) m_tx_started_hooks true m.

(** A dispatcher over the hooks of the two features, in the order of the
    tables: what each of the three result-returning dispatchers comes to. *)
Definition csma_ca_then_ack_timeout (csma_ca ack_timeout : mac -> bool * mac)
    (m : mac) : bool * mac :=
  let (r1, m1) :=
    if NRF_DRV_RADIO802154_CSMA_CA_ENABLED then csma_ca m else (true, m) in
  if r1
  then if NRF_DRV_RADIO802154_ACK_TIMEOUT_ENABLED
       then ack_timeout m1 else (true, m1)
  else (false, m1).

End FsmHooks.

(** Two features for concrete runs: the state is the log of the hooks that
    ran, CSMA-CA hooks being 1 and ACK-timeout hooks 2; the CSMA-CA hooks
    answer [csma_ca_agrees], the ACK-timeout hooks answer true. *)
Definition logging_features (csma_ca ack_timeout gnuc csma_ca_agrees : bool)
    : MacFeatures := {|
  mac := list Z;
  NRF_DRV_RADIO802154_CSMA_CA_ENABLED := csma_ca;
  NRF_DRV_RADIO802154_ACK_TIMEOUT_ENABLED := ack_timeout;
  GNUC := gnuc;
  nrf_drv_radio802154_csma_ca_abort := fun _ log =>
    (csma_ca_agrees, log ++ [1]);
  nrf_drv_radio802154_ack_timeout_abort := fun _ log => (true, log ++ [2]);
  nrf_drv_radio802154_ack_timeout_transmitted_hook := fun _ log => log ++ [2];
  nrf_drv_radio802154_csma_ca_tx_failed_hook := fun _ _ log =>
    (csma_ca_agrees, log ++ [1]);
  nrf_drv_radio802154_ack_timeout_tx_failed_hook := fun _ _ log =>
    (true, log ++ [2]);
  nrf_drv_radio802154_csma_ca_tx_started_hook := fun _ log =>
    (csma_ca_agrees, log ++ [1]);
  nrf_drv_radio802154_ack_timeout_tx_started_hook := fun _ log =>
    (true, log ++ [2])
|}.

(** ** Properties *)

Section Properties.

Context {PS : PrioScale} {TS : TimerSched}.

(** *** The approved level *)

Lemma approved_prio_lvl_loop_fold (s : rsch) (n i : nat) (result : Z) :
  (i + n)%nat = length (m_approved_prios s) ->
  approved_prio_lvl_loop n i result s =
    Done (fold_left Z.min (drop i (m_approved_prios s)) result) s.
Proof.
  revert i result.
  induction n as [|n IH]; intros i result Hlen.
  - rewrite drop_ge by lia. reflexivity.
  - destruct (m_approved_prios s !! i) as [a|] eqn:Hi.
    + cbn [approved_prio_lvl_loop]. unfold bind, approved_read. rewrite Hi.
      rewrite IH by lia.
      rewrite (drop_S _ a i Hi). cbn [fold_left].
      f_equal. f_equal. destruct (Z.ltb_spec a result); lia.
    + apply lookup_ge_None in Hi. lia.
Qed.

Lemma approved_prio_lvl_get_level (s : rsch) :
  array_ok s -> approved_prio_lvl_get s = Done (approved_level s) s.
Proof.
  intros Hok. unfold approved_prio_lvl_get.
  rewrite approved_prio_lvl_loop_fold by (rewrite Hok; reflexivity).
  reflexivity.
Qed.

Lemma fold_min_le_init (l : list Z) (r : Z) : fold_left Z.min l r <= r.
Proof.
  revert r. induction l as [|a l IH]; intros r; cbn; [lia|].
  specialize (IH (Z.min r a)). lia.
Qed.

Lemma fold_min_lower_bound (l : list Z) (r : Z) :
  Forall (fun x => fold_left Z.min l r <= x) l.
Proof.
  revert r. induction l as [|a l IH]; intros r; cbn; constructor.
  - pose proof (fold_min_le_init l (Z.min r a)). lia.
  - apply IH.
Qed.

Lemma fold_min_attained (l : list Z) (r : Z) :
  fold_left Z.min l r = r \/ fold_left Z.min l r ∈ l.
Proof.
  revert r. induction l as [|a l IH]; intros r; cbn; [now left|].
  destruct (IH (Z.min r a)) as [Heq|Hin].
  - rewrite Heq. destruct (Z.min_spec r a) as [[_ ->]|[_ ->]].
    + now left.
    + right. apply list_elem_of_here.
  - right. now apply list_elem_of_further.
Qed.

Lemma fold_min_is_minimum (l : list Z) (r : Z) :
  l <> [] -> Forall (fun x => x <= r) l -> is_minimum (fold_left Z.min l r) l.
Proof.
  intros Hne Hle. split; [|apply fold_min_lower_bound].
  destruct (fold_min_attained l r) as [Heq|Hin]; [|exact Hin].
  destruct l as [|a l]; [congruence|].
  pose proof (fold_min_lower_bound (a :: l) r) as Hlow.
  rewrite Heq in *.
  assert (Hall : Forall (fun x => x = r) (a :: l)).
  { rewrite Forall_forall in *. intros x Hx.
    specialize (Hle x Hx). specialize (Hlow x Hx). cbn beta in *. lia. }
  apply Forall_inv in Hall. rewrite <- Hall. apply list_elem_of_here.
Qed.

(** C5: whatever the array holds, [approved_prio_lvl_get] returns the
    minimum of the levels approved by the preconditions, and it does so
    from the array as it is at the call: it writes nothing, so there is no
    stored value that could lag behind. *)
Theorem approved_prio_lvl_get_is_minimum (s : rsch) :
  array_ok s ->
  Forall (fun p => p <= RSCH_PRIO_MAX) (m_approved_prios s) ->
  exists m,
    approved_prio_lvl_get s = Done m s /\
    is_minimum m (m_approved_prios s).
Proof.
  intros Hok Hmax. exists (approved_level s). split.
  - now apply approved_prio_lvl_get_level.
  - apply fold_min_is_minimum; [|exact Hmax].
    intros Hnil. unfold array_ok in Hok. rewrite Hnil in Hok. discriminate.
Qed.

(** *** The required level *)

(** C4: [required_prio_lvl_get] is the maximum of the continuous-mode
    priority and the effective delayed-timeslot priority, and it is idle
    when neither demand is in force. *)
Theorem required_prio_lvl_get_is_max (s : rsch) :
  RSCH_PRIO_IDLE <= m_delayed_timeslot_prio s ->
  required_prio_lvl_get s =
    Z.max (m_cont_mode_prio s) (delayed_timeslot_effective_prio s) /\
  (m_cont_mode_prio s = RSCH_PRIO_IDLE ->
   delayed_timeslot_effective_prio s = RSCH_PRIO_IDLE ->
   required_prio_lvl_get s = RSCH_PRIO_IDLE).
Proof.
  intros Hmin.
  assert (Hmax : required_prio_lvl_get s =
    Z.max (m_cont_mode_prio s) (delayed_timeslot_effective_prio s)).
  { unfold required_prio_lvl_get, delayed_timeslot_effective_prio,
      any_prec_should_be_requested_for_delayed_timeslot.
    destruct (nrf_802154_timer_sched_time_is_in_future _ _ _); cbn [negb];
      rewrite ?andb_false_r, ?andb_true_r.
    - destruct (Z.ltb_spec RSCH_PRIO_IDLE (m_cont_mode_prio s)); lia.
    - destruct (Z.ltb_spec RSCH_PRIO_IDLE (m_delayed_timeslot_prio s));
        destruct (Z.eqb_spec (m_delayed_timeslot_prio s) RSCH_PRIO_IDLE);
        cbn [negb]; try lia.
      + destruct (Z.ltb_spec (m_delayed_timeslot_prio s)
                    (m_cont_mode_prio s)); lia.
      + destruct (Z.ltb_spec RSCH_PRIO_IDLE (m_cont_mode_prio s)); lia. }
  split; [exact Hmax|].
  intros Hc He. rewrite Hmax, Hc, He. apply Z.max_id.
Qed.

(** The required level does not look at anything the request driver or the
    notifier write. *)
Lemma required_prio_lvl_get_frame (s s' : rsch) :
  m_cont_mode_prio s' = m_cont_mode_prio s ->
  m_delayed_timeslot_prio s' = m_delayed_timeslot_prio s ->
  m_delayed_timeslot_t0 s' = m_delayed_timeslot_t0 s ->
  m_delayed_timeslot_dt s' = m_delayed_timeslot_dt s ->
  sched_time s' = sched_time s ->
  required_prio_lvl_get s' = required_prio_lvl_get s.
Proof.
  intros Hc Hp Ht0 Hdt Hnow.
  unfold required_prio_lvl_get,
    any_prec_should_be_requested_for_delayed_timeslot.
  now rewrite Hc, Hp, Ht0, Hdt, Hnow.
Qed.

(** *** Recording an approval *)

Ltac run_monad :=
  cbv beta iota delta [bind ret gets modify call assert raise
                         approved_read approved_write].

Lemma approved_lookup_ok (s : rsch) (prec : nat) :
  array_ok s -> (prec < RSCH_PREC_CNT)%nat ->
  exists a, m_approved_prios s !! prec = Some a.
Proof.
  intros Hok Hlt. apply lookup_lt_is_Some_2. rewrite Hok. exact Hlt.
Qed.

Lemma prec_approved_prio_set_dropped (s : rsch) (prec : nat) (prio : Z) :
  (prec <= RSCH_PREC_CNT)%nat ->
  prio <> RSCH_PRIO_IDLE ->
  m_requested_prio s = RSCH_PRIO_IDLE ->
  prec_approved_prio_set prec prio s = Done tt s.
Proof.
  intros Hle Hprio Hreq. unfold prec_approved_prio_set. run_monad.
  apply Nat.leb_le in Hle. rewrite Hle, Hreq, Z.eqb_refl.
  destruct (Z.eqb_spec prio RSCH_PRIO_IDLE); [contradiction|reflexivity].
Qed.

Lemma prec_approved_prio_set_idle (s : rsch) (prec : nat) :
  array_ok s -> (prec < RSCH_PREC_CNT)%nat ->
  prec_approved_prio_set prec RSCH_PRIO_IDLE s =
    Done tt (set_approved_prios
               (<[prec := RSCH_PRIO_IDLE]> (m_approved_prios s)) s).
Proof.
  intros Hok Hlt. unfold prec_approved_prio_set. run_monad.
  destruct (approved_lookup_ok s prec Hok Hlt) as [a Ha].
  assert (Hle : (prec <=? RSCH_PREC_CNT)%nat = true) by (apply Nat.leb_le; lia).
  rewrite Hle, Z.eqb_refl, andb_false_r, Ha, orb_true_r.
  unfold array_ok in Hok. rewrite Hok.
  apply Nat.ltb_lt in Hlt. now rewrite Hlt.
Qed.

(** C8: a non-idle approval that arrives while nothing is requested is
    dropped and the state is left as it was; an idle approval is recorded
    for its precondition whatever the requested level is. *)
Theorem prec_approved_prio_set_drops_or_records
    (s : rsch) (prec : nat) (prio : Z) :
  array_ok s -> (prec < RSCH_PREC_CNT)%nat ->
  (prio <> RSCH_PRIO_IDLE -> m_requested_prio s = RSCH_PRIO_IDLE ->
   prec_approved_prio_set prec prio s = Done tt s) /\
  (prio = RSCH_PRIO_IDLE ->
   exists s',
     prec_approved_prio_set prec prio s = Done tt s' /\
     m_approved_prios s' !! prec = Some RSCH_PRIO_IDLE /\
     s' = set_approved_prios
            (<[prec := RSCH_PRIO_IDLE]> (m_approved_prios s)) s).
Proof.
  intros Hok Hlt. split.
  - intros Hprio Hreq. apply prec_approved_prio_set_dropped; [lia|done|done].
  - intros ->. eexists. split; [now apply prec_approved_prio_set_idle|].
    split; [|reflexivity].
    cbn. apply list_lookup_insert_eq. unfold array_ok in Hok. now rewrite Hok.
Qed.

(** *** The two critical sections *)

Ltac rsch_eq s :=
  destruct s; cbn in *; subst; rewrite <- ?app_assoc; reflexivity.

(** A field that a result function leaves alone. *)
Ltac project_result :=
  unfold all_prec_update_result, all_prec_update_section_result,
    notify_core_result, notify_core_section_result;
  now repeat case_match.

Lemma notify_core_section_total (s : rsch) :
  array_ok s -> notify_core_section s = Done tt (notify_core_section_result s).
Proof.
  intros Hok. unfold notify_core_section, notify_core_section_result. run_monad.
  rewrite (approved_prio_lvl_get_level s Hok).
  now destruct (_ && _).
Qed.

Lemma all_prec_update_section_total (s : rsch) :
  array_ok s ->
  all_prec_update_section s = Done tt (all_prec_update_section_result s).
Proof.
  intros Hok. unfold all_prec_update_section, all_prec_update_section_result.
  cbv beta iota delta [bind ret gets modify call].
  destruct (Z.eqb_spec (m_requested_prio s) (required_prio_lvl_get s))
    as [Heq|Hne]; cbn [negb]; [reflexivity|].
  destruct (Z.eqb_spec (required_prio_lvl_get s) RSCH_PRIO_IDLE)
    as [Hidle|Hbusy];
    [|f_equal; generalize (required_prio_lvl_get s); intros; rsch_eq s].
  rewrite Hidle.
  rewrite prec_approved_prio_set_idle by (exact Hok || (cbv; lia)).
  rewrite prec_approved_prio_set_idle.
  - f_equal. rsch_eq s.
  - unfold array_ok in *. cbn. now rewrite length_insert.
  - cbv; lia.
Qed.

Lemma notify_core_free (s : rsch) (fuel : nat) :
  array_ok s -> m_ntf_mutex s = 0 ->
  notify_core (S fuel) s = Done tt (notify_core_section_result s).
Proof.
  intros Hok Hfree. cbn [notify_core]. unfold mutex_trylock, mutex_unlock.
  run_monad. cbn [load store p_ntf_mutex p_ntf_mutex_monitor].
  rewrite Hfree. cbn [Z.eqb negb].
  rewrite notify_core_section_total by exact Hok.
  assert (Hmon : m_ntf_mutex_monitor
                   (set_ntf_mutex 0
                      (notify_core_section_result (set_ntf_mutex 1 s)))
                 = m_ntf_mutex_monitor s).
  { unfold notify_core_section_result. destruct (_ && _); reflexivity. }
  cbn [m_ntf_mutex_monitor set_ntf_mutex] in *. rewrite Hmon, Z.eqb_refl.
  cbn [negb]. f_equal.
  unfold notify_core_section_result. cbn. unfold approved_level. cbn.
  destruct (_ && _); rsch_eq s.
Qed.

Lemma notify_core_held (s : rsch) (fuel : nat) :
  m_ntf_mutex s <> 0 ->
  notify_core (S fuel) s =
    Done tt (set_ntf_mutex_monitor (wrap8 (m_ntf_mutex_monitor s + 1)) s).
Proof.
  intros Hheld. cbn [notify_core]. unfold mutex_trylock. run_monad.
  cbn [load store p_ntf_mutex p_ntf_mutex_monitor].
  destruct (Z.eqb_spec (m_ntf_mutex s) 0); [contradiction|reflexivity].
Qed.

Lemma all_prec_update_free (s : rsch) (fuel : nat) :
  array_ok s -> m_req_mutex s = 0 ->
  all_prec_update (S fuel) s = Done tt (all_prec_update_section_result s).
Proof.
  intros Hok Hfree. cbn [all_prec_update]. unfold mutex_trylock, mutex_unlock.
  run_monad. cbn [load store p_req_mutex p_req_mutex_monitor].
  rewrite Hfree. cbn [Z.eqb negb].
  rewrite all_prec_update_section_total by exact Hok.
  assert (Hmon : m_req_mutex_monitor
                   (set_req_mutex 0
                      (all_prec_update_section_result (set_req_mutex 1 s)))
                 = m_req_mutex_monitor s).
  { unfold all_prec_update_section_result. cbn.
    repeat destruct (_ =? _); reflexivity. }
  cbn [m_req_mutex_monitor set_req_mutex] in *. rewrite Hmon, Z.eqb_refl.
  cbn [negb]. f_equal.
  unfold all_prec_update_section_result.
  change (required_prio_lvl_get (set_req_mutex 1 s))
    with (required_prio_lvl_get s).
  cbn [m_requested_prio set_req_mutex].
  repeat destruct (_ =? _); rsch_eq s.
Qed.

Lemma all_prec_update_held (s : rsch) (fuel : nat) :
  m_req_mutex s <> 0 ->
  all_prec_update (S fuel) s =
    Done tt (set_req_mutex_monitor (wrap8 (m_req_mutex_monitor s + 1)) s).
Proof.
  intros Hheld. cbn [all_prec_update]. unfold mutex_trylock. run_monad.
  cbn [load store p_req_mutex p_req_mutex_monitor].
  destruct (Z.eqb_spec (m_req_mutex s) 0); [contradiction|reflexivity].
Qed.

(** One turn of either retry loop is always enough. *)
Lemma all_prec_update_total (s : rsch) (fuel : nat) :
  array_ok s ->
  all_prec_update (S fuel) s = Done tt (all_prec_update_result s).
Proof.
  intros Hok. unfold all_prec_update_result.
  destruct (Z.eqb_spec (m_req_mutex s) 0).
  - now apply all_prec_update_free.
  - now apply all_prec_update_held.
Qed.

Lemma notify_core_total (s : rsch) (fuel : nat) :
  array_ok s ->
  notify_core (S fuel) s = Done tt (notify_core_result s).
Proof.
  intros Hok. unfold notify_core_result.
  destruct (Z.eqb_spec (m_ntf_mutex s) 0).
  - now apply notify_core_free.
  - now apply notify_core_held.
Qed.

Lemma all_prec_update_section_result_array_ok (s : rsch) :
  array_ok s -> array_ok (all_prec_update_section_result s).
Proof.
  unfold array_ok, all_prec_update_section_result. intros Hok.
  repeat case_match; cbn; rewrite ?length_insert; exact Hok.
Qed.

Lemma notify_core_section_result_array_ok (s : rsch) :
  array_ok s -> array_ok (notify_core_section_result s).
Proof.
  unfold array_ok, notify_core_section_result. intros Hok. now case_match.
Qed.

Lemma all_prec_update_result_array_ok (s : rsch) :
  array_ok s -> array_ok (all_prec_update_result s).
Proof.
  intros Hok. unfold all_prec_update_result. case_match; [|exact Hok].
  now apply all_prec_update_section_result_array_ok.
Qed.

Lemma notify_core_result_array_ok (s : rsch) :
  array_ok s -> array_ok (notify_core_result s).
Proof.
  intros Hok. unfold notify_core_result. case_match; [|exact Hok].
  now apply notify_core_section_result_array_ok.
Qed.

(** C6: when the request driver runs its critical section and the required
    level differs from the requested one, it records the new level; going
    to idle it asks for the clock to be stopped and the arbiter's continuous
    mode to be left, and marks both preconditions idle; going to a non-idle
    level it cancels a pending clock stop, starts the clock and enters the
    arbiter's continuous mode. *)
Theorem all_prec_update_issues_requests (s : rsch) (fuel : nat) :
  array_ok s -> m_req_mutex s = 0 ->
  required_prio_lvl_get s <> m_requested_prio s ->
  exists s',
    all_prec_update (S fuel) s = Done tt s' /\
    m_requested_prio s' = required_prio_lvl_get s /\
    (required_prio_lvl_get s = RSCH_PRIO_IDLE ->
     trace s' = trace s ++ [nrf_802154_priority_drop_hfclk_stop;
                            nrf_raal_continuous_mode_exit] /\
     m_approved_prios s' !! RSCH_PREC_HFCLK = Some RSCH_PRIO_IDLE /\
     m_approved_prios s' !! RSCH_PREC_RAAL = Some RSCH_PRIO_IDLE) /\
    (required_prio_lvl_get s <> RSCH_PRIO_IDLE ->
     trace s' = trace s ++ [nrf_802154_priority_drop_hfclk_stop_terminate;
                            nrf_802154_clock_hfclk_start;
                            nrf_raal_continuous_mode_enter] /\
     m_approved_prios s' = m_approved_prios s).
Proof.
  intros Hok Hfree Hne. exists (all_prec_update_section_result s).
  split; [now apply all_prec_update_free|].
  unfold all_prec_update_section_result.
  destruct (Z.eqb_spec (m_requested_prio s) (required_prio_lvl_get s));
    [congruence|].
  destruct (Z.eqb_spec (required_prio_lvl_get s) RSCH_PRIO_IDLE) as [Hi|Hb].
  - split; [reflexivity|]. split; [|intros; contradiction].
    intros _. split; [reflexivity|]. cbn.
    destruct (m_approved_prios s) as [|a [|b [|c l]]] eqn:Harr;
      unfold array_ok in Hok; rewrite Harr in Hok; try discriminate.
    now split.
  - split; [reflexivity|]. split; [intros; contradiction|].
    intros _. now split.
Qed.

(** One invocation: a notifier invocation that gets its mutex tells the
    driver core the approved level exactly when continuous mode is active
    and that level differs from the last level notified, and then remembers
    it; otherwise it changes nothing.  Invoked again at once it stays
    silent, and nothing is notified while continuous mode is inactive. *)
Theorem notify_core_reports_changes (s : rsch) (fuel : nat) :
  array_ok s -> m_ntf_mutex s = 0 ->
  exists approved s',
    approved_prio_lvl_get s = Done approved s /\
    notify_core (S fuel) s = Done tt s' /\
    (RSCH_PRIO_IDLE < m_cont_mode_prio s /\
     approved <> m_last_notified_prio s ->
     s' = set_trace
            (trace s ++ [nrf_802154_rsch_continuous_prio_changed approved])
            (set_last_notified_prio approved s)) /\
    (~ (RSCH_PRIO_IDLE < m_cont_mode_prio s /\
        approved <> m_last_notified_prio s) ->
     s' = s) /\
    (m_cont_mode_prio s <= RSCH_PRIO_IDLE -> trace s' = trace s) /\
    notify_core (S fuel) s' = Done tt s'.
Proof.
  intros Hok Hfree. exists (approved_level s), (notify_core_section_result s).
  split; [now apply approved_prio_lvl_get_level|].
  split; [now apply notify_core_free|].
  unfold notify_core_section_result.
  destruct (Z.ltb_spec RSCH_PRIO_IDLE (m_cont_mode_prio s)) as [Hact|Hina];
    destruct (Z.eqb_spec (m_last_notified_prio s) (approved_level s))
      as [Hsame|Hdiff]; cbn [andb negb].
  - refine (conj _ (conj _ (conj _ _))).
    + intros [_ H]. congruence.
    + reflexivity.
    + reflexivity.
    + rewrite notify_core_free by assumption. unfold notify_core_section_result.
      rewrite Hsame, Z.eqb_refl, andb_false_r. reflexivity.
  - refine (conj _ (conj _ (conj _ _))).
    + reflexivity.
    + intros H. exfalso. apply H. split; [lia|congruence].
    + intros. lia.
    + rewrite notify_core_free by assumption. unfold notify_core_section_result.
      cbn. unfold approved_level. cbn.
      rewrite Z.eqb_refl, andb_false_r. reflexivity.
  - refine (conj _ (conj _ (conj _ _))); try reflexivity.
    + intros. lia.
    + rewrite notify_core_free by assumption. unfold notify_core_section_result.
      apply Z.ltb_ge in Hina. now rewrite Hina.
  - refine (conj _ (conj _ (conj _ _))); try reflexivity.
    + intros. lia.
    + rewrite notify_core_free by assumption. unfold notify_core_section_result.
      apply Z.ltb_ge in Hina. now rewrite Hina.
Qed.

(** Two notifier invocations between which nobody rewrites the last
    notified level never report the same level. *)
Lemma notify_core_never_repeats (s1 s2 : rsch) (fuel1 fuel2 : nat) (p q : Z) :
  array_ok s1 -> m_ntf_mutex s1 = 0 ->
  array_ok s2 -> m_ntf_mutex s2 = 0 ->
  (exists s1',
     notify_core (S fuel1) s1 = Done tt s1' /\
     trace s1' = trace s1 ++ [nrf_802154_rsch_continuous_prio_changed p] /\
     m_last_notified_prio s2 = m_last_notified_prio s1') ->
  (exists s2',
     notify_core (S fuel2) s2 = Done tt s2' /\
     trace s2' = trace s2 ++ [nrf_802154_rsch_continuous_prio_changed q]) ->
  p <> q.
Proof.
  intros Hok1 Hfree1 Hok2 Hfree2 (s1' & Hrun1 & Htr1 & Hlast)
    (s2' & Hrun2 & Htr2).
  rewrite notify_core_free in Hrun1, Hrun2 by assumption.
  injection Hrun1 as <-. injection Hrun2 as <-.
  unfold notify_core_section_result in *.
  destruct (_ && _) eqn:Hc1 in Htr1, Hlast.
  2:{ apply (f_equal (@length event)) in Htr1. rewrite length_app in Htr1.
      cbn in Htr1. lia. }
  destruct (_ && _) eqn:Hc2 in Htr2.
  2:{ apply (f_equal (@length event)) in Htr2. rewrite length_app in Htr2.
      cbn in Htr2. lia. }
  cbn in Htr1, Htr2, Hlast.
  apply app_inv_head in Htr1, Htr2.
  injection Htr1 as Hp. injection Htr2 as Hq.
  apply andb_prop in Hc2 as [_ Hc2]. apply negb_true_iff in Hc2.
  apply Z.eqb_neq in Hc2. congruence.
Qed.

(** *** The start timer *)


(** *** Continuous mode *)

Lemma continuous_mode_priority_set_total (s : rsch) (fuel : nat) (prio : Z) :
  array_ok s ->
  nrf_802154_rsch_continuous_mode_priority_set (S fuel) prio s =
    Done tt (continuous_mode_priority_set_result prio s).
Proof.
  intros Hok.
  unfold nrf_802154_rsch_continuous_mode_priority_set,
    continuous_mode_priority_set_result.
  cbv beta iota delta [bind modify].
  rewrite all_prec_update_total by exact Hok.
  rewrite notify_core_total
    by (apply all_prec_update_result_array_ok; exact Hok).
  now destruct (prio =? RSCH_PRIO_IDLE).
Qed.

Lemma continuous_mode_priority_set_result_array_ok (s : rsch) (prio : Z) :
  array_ok s -> array_ok (continuous_mode_priority_set_result prio s).
Proof.
  intros Hok. unfold continuous_mode_priority_set_result.
  assert (array_ok (notify_core_result
            (all_prec_update_result (set_cont_mode_prio prio s)))) as H.
  { apply notify_core_result_array_ok, all_prec_update_result_array_ok.
    exact Hok. }
  now case_match.
Qed.

(** After a call the module is settled: with the request mutex free the
    requested level is the required one, and with the notify mutex free
    and continuous mode active the last notified level is the approved
    one. *)
Lemma continuous_mode_priority_set_settles (s : rsch) (prio : Z) :
  let s' := continuous_mode_priority_set_result prio s in
  m_cont_mode_prio s' = prio /\
  (m_req_mutex s' = 0 -> m_requested_prio s' = required_prio_lvl_get s') /\
  (m_ntf_mutex s' = 0 -> RSCH_PRIO_IDLE < m_cont_mode_prio s' ->
   m_last_notified_prio s' = approved_level s').
Proof.
  cbn zeta. unfold continuous_mode_priority_set_result.
  set (s0 := set_cont_mode_prio prio s).
  assert (Hreq : m_req_mutex (all_prec_update_result s0) = 0 ->
                 m_requested_prio (all_prec_update_result s0) =
                 required_prio_lvl_get s0).
  { unfold all_prec_update_result, all_prec_update_section_result.
    destruct (Z.eqb_spec (m_req_mutex s0) 0) as [_|Hheld];
      [|intros; contradiction].
    intros _.
    destruct (Z.eqb_spec (m_requested_prio s0) (required_prio_lvl_get s0));
      [assumption|]. now case_match. }
  assert (Hframe : forall s1,
    s1 = all_prec_update_result s0 ->
    m_cont_mode_prio s1 = prio /\
    required_prio_lvl_get s1 = required_prio_lvl_get s0).
  { intros s1 ->. split.
    - project_result.
    - apply required_prio_lvl_get_frame;
        project_result. }
  destruct (Hframe _ eq_refl) as [Hc1 Hr1].
  set (s1 := all_prec_update_result s0) in *.
  assert (Hntf : m_cont_mode_prio (notify_core_result s1) = prio /\
    m_req_mutex (notify_core_result s1) = m_req_mutex s1 /\
    m_requested_prio (notify_core_result s1) = m_requested_prio s1 /\
    required_prio_lvl_get (notify_core_result s1) = required_prio_lvl_get s1 /\
    approved_level (notify_core_result s1) = approved_level s1 /\
    m_ntf_mutex (notify_core_result s1) = m_ntf_mutex s1 /\
    (m_ntf_mutex s1 = 0 -> RSCH_PRIO_IDLE < prio ->
     m_last_notified_prio (notify_core_result s1) = approved_level s1)).
  { rewrite <- Hc1.
    split; [project_result|].
    split; [project_result|].
    split; [project_result|].
    split; [apply required_prio_lvl_get_frame;
            project_result|].
    split; [project_result|].
    split; [project_result|].
    intros Hfree Hact. unfold notify_core_result, notify_core_section_result.
    rewrite Hfree. cbn [Z.eqb].
    apply Z.ltb_lt in Hact. rewrite Hact. cbn [andb].
    destruct (Z.eqb_spec (m_last_notified_prio s1) (approved_level s1));
      cbn [negb]; [assumption|reflexivity]. }
  destruct Hntf as (Hc2 & Hm2 & Hq2 & Hr2 & Ha2 & Hn2 & Hl2).
  set (s2 := notify_core_result s1) in *.
  destruct (Z.eqb_spec prio RSCH_PRIO_IDLE) as [Hidle|Hbusy].
  - split; [exact Hc2|]. split.
    + cbn. change (m_req_mutex s2 = 0 ->
        m_requested_prio s2 =
        required_prio_lvl_get (set_last_notified_prio RSCH_PRIO_IDLE s2)).
      intros Hfree.
      rewrite (required_prio_lvl_get_frame s2) by reflexivity.
      rewrite Hq2, Hr2, Hr1. apply Hreq. now rewrite <- Hm2.
    + cbn. rewrite Hc2. intros. lia.
  - split; [exact Hc2|]. split.
    + intros Hfree. rewrite Hq2, Hr2, Hr1. apply Hreq. now rewrite <- Hm2.
    + rewrite Hc2, Ha2, Hn2. exact Hl2.
Qed.

Lemma set_cont_mode_prio_same (s : rsch) :
  set_cont_mode_prio (m_cont_mode_prio s) s = s.
Proof. now destruct s. Qed.

(** A call on a settled module with the priority it already has reaches no
    collaborator and moves neither the requested level nor the approvals. *)
Lemma continuous_mode_priority_set_settled (s : rsch) (prio : Z) :
  m_cont_mode_prio s = prio ->
  (m_req_mutex s = 0 -> m_requested_prio s = required_prio_lvl_get s) ->
  (m_ntf_mutex s = 0 -> RSCH_PRIO_IDLE < m_cont_mode_prio s ->
   m_last_notified_prio s = approved_level s) ->
  let s' := continuous_mode_priority_set_result prio s in
  trace s' = trace s /\
  m_requested_prio s' = m_requested_prio s /\
  m_approved_prios s' = m_approved_prios s.
Proof.
  intros <- Hreq Hlast. cbn zeta.
  unfold continuous_mode_priority_set_result.
  rewrite set_cont_mode_prio_same.
  assert (Hupd : exists mon,
    all_prec_update_result s = set_req_mutex_monitor mon s).
  { unfold all_prec_update_result, all_prec_update_section_result.
    destruct (Z.eqb_spec (m_req_mutex s) 0) as [Hfree|Hheld].
    - rewrite (Hreq Hfree), Z.eqb_refl. exists (m_req_mutex_monitor s).
      now destruct s.
    - eexists. reflexivity. }
  destruct Hupd as [mon ->].
  assert (Hntf : exists mon',
    notify_core_result (set_req_mutex_monitor mon s) =
    set_ntf_mutex_monitor mon' (set_req_mutex_monitor mon s)).
  { unfold notify_core_result, notify_core_section_result.
    change (approved_level (set_req_mutex_monitor mon s))
      with (approved_level s).
    cbn [m_ntf_mutex m_cont_mode_prio m_last_notified_prio
         set_req_mutex_monitor].
    destruct (Z.eqb_spec (m_ntf_mutex s) 0) as [Hfree|Hheld];
      [|eexists; reflexivity].
    exists (m_ntf_mutex_monitor s).
    destruct (Z.ltb_spec RSCH_PRIO_IDLE (m_cont_mode_prio s)) as [Hact|Hina].
    - rewrite (Hlast Hfree Hact), Z.eqb_refl. cbn [andb negb].
      now destruct s.
    - cbn [andb]. now destruct s. }
  destruct Hntf as [mon' ->].
  now case_match.
Qed.

(** With the clock standing still between the two calls: setting the
    continuous-mode priority twice to the same level reaches the clock and
    the arbiter at most on the first call; the second call finds the
    required level already requested, issues no call at all and leaves the
    requested level as it is. *)
Theorem continuous_mode_priority_set_idempotent
    (s : rsch) (fuel1 fuel2 : nat) (prio : Z) :
  array_ok s ->
  exists s1 s2,
    nrf_802154_rsch_continuous_mode_priority_set (S fuel1) prio s =
      Done tt s1 /\
    nrf_802154_rsch_continuous_mode_priority_set (S fuel2) prio s1 =
      Done tt s2 /\
    (m_req_mutex s = 0 -> required_prio_lvl_get s1 = m_requested_prio s1) /\
    trace s2 = trace s1 /\
    filter is_collaborator_request (drop (length (trace s1)) (trace s2)) = [] /\
    m_requested_prio s2 = m_requested_prio s1.
Proof.
  intros Hok.
  exists (continuous_mode_priority_set_result prio s).
  exists (continuous_mode_priority_set_result prio
            (continuous_mode_priority_set_result prio s)).
  pose proof (continuous_mode_priority_set_result_array_ok s prio Hok) as Hok1.
  destruct (continuous_mode_priority_set_settles s prio) as (Hc & Hr & Hl).
  destruct (continuous_mode_priority_set_settled _ prio Hc Hr Hl)
    as (Htr & Hq & _).
  split; [now apply continuous_mode_priority_set_total|].
  split; [now apply continuous_mode_priority_set_total|].
  split.
  - intros Hfree. symmetry. apply Hr.
    unfold continuous_mode_priority_set_result, notify_core_result,
      notify_core_section_result, all_prec_update_result,
      all_prec_update_section_result.
    cbn [m_req_mutex set_cont_mode_prio]. rewrite Hfree. cbn [Z.eqb].
    now repeat case_match.
  - split; [exact Htr|]. split; [|exact Hq].
    rewrite Htr, drop_all. reflexivity.
Qed.

(** The same holds when time passes between the two calls, as long as the
    delayed timeslot's activation window neither opens nor closes in
    between. *)
Lemma continuous_mode_priority_set_later (s : rsch) (prio now' : Z) :
  let s1 := continuous_mode_priority_set_result prio s in
  any_prec_should_be_requested_for_delayed_timeslot (set_sched_time now' s1) =
    any_prec_should_be_requested_for_delayed_timeslot s1 ->
  let s2 := continuous_mode_priority_set_result prio (set_sched_time now' s1) in
  trace s2 = trace s1 /\ m_requested_prio s2 = m_requested_prio s1.
Proof.
  intros s1 Hwin s2.
  destruct (continuous_mode_priority_set_settles s prio) as (Hc & Hr & Hl).
  fold s1 in Hc, Hr, Hl.
  assert (Hreq : required_prio_lvl_get (set_sched_time now' s1) =
                 required_prio_lvl_get s1).
  { unfold required_prio_lvl_get. now rewrite Hwin. }
  destruct (continuous_mode_priority_set_settled (set_sched_time now' s1) prio)
    as (Htr & Hq & _).
  - exact Hc.
  - intros Hfree. rewrite Hreq. now apply Hr.
  - exact Hl.
  - now split.
Qed.

(** *** Requesting a delayed timeslot *)

Lemma delayed_timeslot_request_cases (s : rsch) (t0 dt length prio : Z) :
  prio <> RSCH_PRIO_IDLE ->
  m_delayed_timeslot_prio s = RSCH_PRIO_IDLE ->
  sched_is_running s = false ->
  nrf_802154_rsch_delayed_timeslot_request t0 dt length prio s =
    if nrf_802154_timer_sched_time_is_in_future (sched_time s) t0
         (wrap32 (dt - PREC_RAMP_UP_TIME))
    then Done true
           (armed prio t0 dt
              (mk_timer t0 (wrap32 (dt - PREC_RAMP_UP_TIME))
                 (Some cb_delayed_timeslot_prec_request))
              false s)
    else if (RSCH_PRIO_MAX <=? m_requested_prio s) &&
            nrf_802154_timer_sched_time_is_in_future (sched_time s) t0 dt
    then Done true
           (armed prio t0 dt
              (mk_timer t0 dt (Some cb_delayed_timeslot_start)) true s)
    else Done false s.
Proof.
  intros Hprio Hidle Hstopped.
  unfold nrf_802154_rsch_delayed_timeslot_request, timer_sched_add,
    requested_prio_lvl_is_at_least.
  run_monad. rewrite Hstopped. cbn [negb]. run_monad.
  rewrite Hidle, Z.eqb_refl. run_monad.
  destruct (Z.eqb_spec prio RSCH_PRIO_IDLE); [contradiction|].
  cbn [negb]. run_monad.
  destruct (nrf_802154_timer_sched_time_is_in_future _ _ (wrap32 _));
    [reflexivity|].
  now destruct (_ && _).
Qed.

(** C1: a request with a non-idle priority, made while no delayed timeslot
    is outstanding, has one of three outcomes.  While the pre-request point
    [t0 + (dt - PREC_RAMP_UP_TIME)] is in the future, the request is
    recorded, the pre-request timer is queued for that point and the answer
    is true.  Failing that, if the requested level is at least the maximum
    and [t0 + dt] is in the future, the request is recorded, only the start
    timer is queued, for [t0 + dt], and the answer is true.  In every other
    case the answer is false and the state is untouched. *)
Theorem delayed_timeslot_request_outcomes
    (s : rsch) (t0 dt length prio : Z) :
  prio <> RSCH_PRIO_IDLE ->
  m_delayed_timeslot_prio s = RSCH_PRIO_IDLE ->
  sched_is_running s = false ->
  let now := sched_time s in
  let req_dt := wrap32 (dt - PREC_RAMP_UP_TIME) in
  (nrf_802154_timer_sched_time_is_in_future now t0 req_dt = true ->
   nrf_802154_rsch_delayed_timeslot_request t0 dt length prio s =
     Done true
       (armed prio t0 dt
          (mk_timer t0 req_dt (Some cb_delayed_timeslot_prec_request))
          false s)) /\
  (nrf_802154_timer_sched_time_is_in_future now t0 req_dt = false ->
   RSCH_PRIO_MAX <= m_requested_prio s ->
   nrf_802154_timer_sched_time_is_in_future now t0 dt = true ->
   nrf_802154_rsch_delayed_timeslot_request t0 dt length prio s =
     Done true
       (armed prio t0 dt (mk_timer t0 dt (Some cb_delayed_timeslot_start))
          true s)) /\
  (nrf_802154_timer_sched_time_is_in_future now t0 req_dt = false ->
   ~ (RSCH_PRIO_MAX <= m_requested_prio s /\
      nrf_802154_timer_sched_time_is_in_future now t0 dt = true) ->
   nrf_802154_rsch_delayed_timeslot_request t0 dt length prio s =
     Done false s).
Proof.
  intros Hprio Hidle Hstopped now req_dt.
  rewrite (delayed_timeslot_request_cases s t0 dt length prio)
    by assumption.
  fold now. fold req_dt.
  refine (conj _ (conj _ _)).
  - intros ->. reflexivity.
  - intros -> Hmax ->. apply Z.leb_le in Hmax. rewrite Hmax. reflexivity.
  - intros -> Hnot.
    destruct (Z.leb_spec RSCH_PRIO_MAX (m_requested_prio s)); [|reflexivity].
    destruct (nrf_802154_timer_sched_time_is_in_future now t0 dt);
      [|reflexivity].
    exfalso. apply Hnot. now split.
Qed.

(** *** Array accesses stay in bounds *)

Lemma hoare_ret {A} (P : rsch -> Prop) (a : A) : hoare P (ret a) P.
Proof. intros s HP. exact HP. Qed.

Lemma hoare_bind {A B} (P Q R : rsch -> Prop) (m : M A) (k : A -> M B) :
  hoare P m Q -> (forall a, hoare Q (k a) R) -> hoare P (bind m k) R.
Proof.
  intros Hm Hk s HP. unfold bind. specialize (Hm s HP).
  destruct (m s) as [a s'|[]|]; try exact Hm. now apply Hk.
Qed.

Lemma hoare_gets {A} (P : rsch -> Prop) (f : rsch -> A) : hoare P (gets f) P.
Proof. intros s HP. exact HP. Qed.

Lemma hoare_assert (P : rsch -> Prop) (b : bool) : hoare P (assert b) P.
Proof. intros s HP. unfold assert. destruct b; [exact HP|exact I]. Qed.

Lemma hoare_modify (P Q : rsch -> Prop) (f : rsch -> rsch) :
  (forall s, P s -> Q (f s)) -> hoare P (modify f) Q.
Proof. intros Hf s HP. now apply Hf. Qed.

Lemma hoare_if {A} (P Q : rsch -> Prop) (b : bool) (m1 m2 : M A) :
  hoare P m1 Q -> hoare P m2 Q -> hoare P (if b then m1 else m2) Q.
Proof. now destruct b. Qed.

Lemma hoare_modify_frame (f : rsch -> rsch) :
  (forall s, m_approved_prios (f s) = m_approved_prios s) ->
  hoare levels_ok (modify f) levels_ok.
Proof.
  intros Hf. apply hoare_modify. intros s [Hok Hlv].
  unfold levels_ok, array_ok. now rewrite Hf.
Qed.

Lemma hoare_call (e : event) : hoare levels_ok (call e) levels_ok.
Proof. now apply hoare_modify_frame. Qed.

Lemma hoare_approved_read (i : nat) :
  (i < RSCH_PREC_CNT)%nat -> hoare levels_ok (approved_read i) levels_ok.
Proof.
  intros Hi s [Hok Hlv]. unfold approved_read.
  destruct (approved_lookup_ok s i Hok Hi) as [a ->]. now split.
Qed.

Lemma hoare_approved_write (i : nat) (p : Z) :
  (i < RSCH_PREC_CNT)%nat ->
  p = RSCH_PRIO_IDLE \/ p = RSCH_PRIO_MAX ->
  hoare levels_ok (approved_write i p) levels_ok.
Proof.
  intros Hi Hp s [Hok Hlv]. unfold approved_write.
  unfold array_ok in Hok. rewrite Hok.
  apply Nat.ltb_lt in Hi. rewrite Hi. split.
  - unfold array_ok. cbn. now rewrite length_insert.
  - cbn. apply Forall_insert; assumption.
Qed.

Lemma hoare_prec_approved_prio_set (prec : nat) (prio : Z) :
  (prec < RSCH_PREC_CNT)%nat ->
  prio = RSCH_PRIO_IDLE \/ prio = RSCH_PRIO_MAX ->
  hoare levels_ok (prec_approved_prio_set prec prio) levels_ok.
Proof.
  intros Hprec Hprio. unfold prec_approved_prio_set.
  eapply hoare_bind; [apply hoare_assert|intros _].
  eapply hoare_bind; [apply hoare_gets|intros requested_prio].
  apply hoare_if; [apply hoare_ret|].
  eapply hoare_bind; [now apply hoare_approved_read|intros current].
  eapply hoare_bind; [apply hoare_assert|intros _].
  now apply hoare_approved_write.
Qed.

Lemma hoare_mutex_trylock (p_mutex p_mutex_monitor : ref Z) :
  (forall v s, levels_ok s -> levels_ok (store p_mutex v s)) ->
  (forall v s, levels_ok s -> levels_ok (store p_mutex_monitor v s)) ->
  hoare levels_ok (mutex_trylock p_mutex p_mutex_monitor) levels_ok.
Proof.
  intros Hm Hmon. unfold mutex_trylock.
  eapply hoare_bind; [apply hoare_gets|intros v].
  apply hoare_if.
  - eapply hoare_bind; [|intros _; apply hoare_ret].
    apply hoare_modify. intros s. apply Hmon.
  - eapply hoare_bind; [|intros _; apply hoare_ret].
    apply hoare_modify. intros s. apply Hm.
Qed.

Lemma hoare_all_prec_update_section :
  hoare levels_ok all_prec_update_section levels_ok.
Proof.
  unfold all_prec_update_section.
  eapply hoare_bind; [apply hoare_gets|intros prev_prio].
  eapply hoare_bind; [apply hoare_gets|intros new_prio].
  apply hoare_if; [|apply hoare_ret].
  eapply hoare_bind; [now apply hoare_modify_frame|intros _].
  apply hoare_if.
  - eapply hoare_bind; [apply hoare_call|intros _].
    eapply hoare_bind;
      [apply hoare_prec_approved_prio_set; [cbv; lia|now left]|intros _].
    eapply hoare_bind; [apply hoare_call|intros _].
    apply hoare_prec_approved_prio_set; [cbv; lia|now left].
  - eapply hoare_bind; [apply hoare_call|intros _].
    eapply hoare_bind; [apply hoare_call|intros _].
    apply hoare_call.
Qed.

Lemma hoare_all_prec_update (fuel : nat) :
  hoare levels_ok (all_prec_update fuel) levels_ok.
Proof.
  induction fuel as [|fuel IH]; [intros s _; exact I|].
  cbn [all_prec_update].
  eapply hoare_bind;
    [apply hoare_mutex_trylock; intros v s H; exact H|intros locked].
  apply hoare_if; [apply hoare_ret|].
  eapply hoare_bind; [apply hoare_gets|intros monitor].
  eapply hoare_bind; [apply hoare_all_prec_update_section|intros _].
  eapply hoare_bind; [now apply hoare_modify_frame|intros _].
  eapply hoare_bind; [apply hoare_gets|intros monitor'].
  apply hoare_if; [exact IH|apply hoare_ret].
Qed.

Lemma hoare_approved_prio_lvl_loop (n i : nat) (result : Z) :
  (i + n <= RSCH_PREC_CNT)%nat ->
  hoare levels_ok (approved_prio_lvl_loop n i result) levels_ok.
Proof.
  revert i result. induction n as [|n IH]; intros i result Hle.
  - apply hoare_ret.
  - cbn [approved_prio_lvl_loop].
    eapply hoare_bind; [apply hoare_approved_read; lia|intros a].
    apply IH. lia.
Qed.

Lemma hoare_notify_core_section :
  hoare levels_ok notify_core_section levels_ok.
Proof.
  unfold notify_core_section, approved_prio_lvl_get.
  eapply hoare_bind;
    [apply hoare_approved_prio_lvl_loop; cbv; lia|intros approved].
  eapply hoare_bind; [apply hoare_gets|intros cont].
  eapply hoare_bind; [apply hoare_gets|intros last].
  apply hoare_if; [|apply hoare_ret].
  eapply hoare_bind; [now apply hoare_modify_frame|intros _].
  apply hoare_call.
Qed.

Lemma hoare_notify_core (fuel : nat) :
  hoare levels_ok (notify_core fuel) levels_ok.
Proof.
  induction fuel as [|fuel IH]; [intros s _; exact I|].
  cbn [notify_core].
  eapply hoare_bind;
    [apply hoare_mutex_trylock; intros v s H; exact H|intros locked].
  apply hoare_if; [apply hoare_ret|].
  eapply hoare_bind; [apply hoare_gets|intros monitor].
  eapply hoare_bind; [apply hoare_notify_core_section|intros _].
  eapply hoare_bind; [now apply hoare_modify_frame|intros _].
  eapply hoare_bind; [apply hoare_gets|intros monitor'].
  apply hoare_if; [exact IH|apply hoare_ret].
Qed.

Lemma hoare_timer_sched_add (round_up : bool) :
  hoare levels_ok (timer_sched_add round_up) levels_ok.
Proof.
  unfold timer_sched_add.
  eapply hoare_bind; [apply hoare_gets|intros t].
  eapply hoare_bind; [apply hoare_call|intros _].
  now apply hoare_modify_frame.
Qed.

Lemma hoare_delayed_timeslot_start :
  hoare levels_ok delayed_timeslot_start levels_ok.
Proof.
  unfold delayed_timeslot_start, approved_prio_lvl_get.
  eapply hoare_bind; [apply hoare_gets|intros req_prio_lvl].
  eapply hoare_bind; [now apply hoare_modify_frame|intros _].
  eapply hoare_bind;
    [apply hoare_approved_prio_lvl_loop; cbv; lia|intros approved].
  apply hoare_if; apply hoare_call.
Qed.

Lemma hoare_delayed_timeslot_prec_request (fuel : nat) :
  hoare levels_ok (delayed_timeslot_prec_request fuel) levels_ok.
Proof.
  unfold delayed_timeslot_prec_request.
  eapply hoare_bind; [apply hoare_all_prec_update|intros _].
  eapply hoare_bind; [apply hoare_gets|intros t0].
  eapply hoare_bind; [apply hoare_gets|intros dt].
  eapply hoare_bind; [now apply hoare_modify_frame|intros _].
  apply hoare_timer_sched_add.
Qed.

Lemma nrf_802154_rsch_init_state (s : rsch) :
  array_ok s ->
  exists s',
    nrf_802154_rsch_init s = Done tt s' /\
    m_approved_prios s' = replicate RSCH_PREC_CNT RSCH_PRIO_IDLE /\
    m_requested_prio s' = RSCH_PRIO_IDLE /\
    m_cont_mode_prio s' = RSCH_PRIO_IDLE /\
    m_delayed_timeslot_prio s' = RSCH_PRIO_IDLE /\
    m_last_notified_prio s' = RSCH_PRIO_IDLE /\
    m_ntf_mutex s' = 0 /\ m_req_mutex s' = 0.
Proof.
  intros Hok. unfold array_ok in Hok.
  destruct s as [? ? ? ? ? arr ? ? ? ? ? ? ? ? ?]. cbn in Hok.
  destruct arr as [|a [|b [|c arr]]]; try discriminate.
  eexists. split; [vm_compute; reflexivity|]. cbn. now repeat split.
Qed.

Lemma hoare_nrf_802154_rsch_init :
  hoare array_ok nrf_802154_rsch_init levels_ok.
Proof.
  intros s Hok.
  destruct (nrf_802154_rsch_init_state s Hok) as (s' & -> & Harr & _).
  unfold levels_ok, array_ok. rewrite Harr. split; [reflexivity|].
  apply Forall_replicate. now left.
Qed.

Lemma hoare_nrf_802154_rsch_uninit :
  hoare levels_ok nrf_802154_rsch_uninit levels_ok.
Proof.
  unfold nrf_802154_rsch_uninit.
  eapply hoare_bind; [apply hoare_call|intros _].
  eapply hoare_bind; [now apply hoare_modify_frame|intros _].
  apply hoare_call.
Qed.

Lemma hoare_nrf_802154_rsch_continuous_mode_priority_set
    (fuel : nat) (prio : Z) :
  hoare levels_ok (nrf_802154_rsch_continuous_mode_priority_set fuel prio)
    levels_ok.
Proof.
  unfold nrf_802154_rsch_continuous_mode_priority_set.
  eapply hoare_bind; [now apply hoare_modify_frame|intros _].
  eapply hoare_bind; [apply hoare_all_prec_update|intros _].
  eapply hoare_bind; [apply hoare_notify_core|intros _].
  apply hoare_if; [now apply hoare_modify_frame|apply hoare_ret].
Qed.

Lemma hoare_nrf_802154_rsch_delayed_timeslot_request
    (t0 dt length prio : Z) :
  hoare levels_ok
    (nrf_802154_rsch_delayed_timeslot_request t0 dt length prio) levels_ok.
Proof.
  unfold nrf_802154_rsch_delayed_timeslot_request.
  eapply hoare_bind; [apply hoare_gets|intros now].
  eapply hoare_bind; [apply hoare_gets|intros running].
  eapply hoare_bind; [apply hoare_assert|intros _].
  eapply hoare_bind; [apply hoare_gets|intros delayed].
  eapply hoare_bind; [apply hoare_assert|intros _].
  eapply hoare_bind; [apply hoare_assert|intros _].
  apply hoare_if.
  - do 4 (eapply hoare_bind; [now apply hoare_modify_frame|intros _]).
    eapply hoare_bind; [apply hoare_timer_sched_add|intros _].
    apply hoare_ret.
  - eapply hoare_bind; [apply hoare_gets|intros at_max].
    apply hoare_if; [|apply hoare_ret].
    do 4 (eapply hoare_bind; [now apply hoare_modify_frame|intros _]).
    eapply hoare_bind; [apply hoare_timer_sched_add|intros _].
    apply hoare_ret.
Qed.

Lemma hoare_nrf_802154_rsch_prec_is_approved (prec : nat) (prio : Z) :
  hoare levels_ok (nrf_802154_rsch_prec_is_approved prec prio) levels_ok.
Proof.
  unfold nrf_802154_rsch_prec_is_approved.
  destruct (Nat.ltb_spec prec RSCH_PREC_CNT) as [Hlt|Hge].
  - eapply hoare_bind; [apply hoare_assert|intros _].
    eapply hoare_bind; [now apply hoare_approved_read|intros a].
    apply hoare_ret.
  - intros s _. exact I.
Qed.

Lemma hoare_external_handler (fuel : nat) (prec : nat) (prio : Z) :
  (prec < RSCH_PREC_CNT)%nat ->
  prio = RSCH_PRIO_IDLE \/ prio = RSCH_PRIO_MAX ->
  hoare levels_ok (prec_approved_prio_set prec prio ;;; notify_core fuel)
    levels_ok.
Proof.
  intros Hprec Hprio.
  eapply hoare_bind; [now apply hoare_prec_approved_prio_set|intros _].
  apply hoare_notify_core.
Qed.

Lemma hoare_timer_fired (fuel : nat) :
  hoare levels_ok (timer_fired fuel) levels_ok.
Proof.
  unfold timer_fired.
  eapply hoare_bind; [apply hoare_gets|intros running].
  apply hoare_if; [|apply hoare_ret].
  eapply hoare_bind; [now apply hoare_modify_frame|intros _].
  eapply hoare_bind; [apply hoare_gets|intros t].
  destruct (timer_callback_fn t) as [[]|].
  - apply hoare_delayed_timeslot_prec_request.
  - apply hoare_delayed_timeslot_start.
  - apply hoare_ret.
Qed.

Lemma levels_ok_array_ok (s : rsch) : levels_ok s -> array_ok s.
Proof. now intros [Hok _]. Qed.

Lemma hoare_run (fuel : nat) (c : api_call) :
  hoare levels_ok (run fuel c) levels_ok.
Proof.
  destruct c; cbn [run].
  - intros s Hs. apply hoare_nrf_802154_rsch_init.
    now apply levels_ok_array_ok.
  - apply hoare_nrf_802154_rsch_uninit.
  - apply hoare_nrf_802154_rsch_continuous_mode_priority_set.
  - eapply hoare_bind;
      [apply hoare_nrf_802154_rsch_delayed_timeslot_request|intros _].
    apply hoare_ret.
  - eapply hoare_bind;
      [apply hoare_nrf_802154_rsch_prec_is_approved|intros _].
    apply hoare_ret.
  - apply hoare_external_handler; [cbv; lia|now right].
  - apply hoare_external_handler; [cbv; lia|now left].
  - apply hoare_external_handler; [cbv; lia|now right].
  - apply hoare_timer_fired.
  - now apply hoare_modify_frame.
Qed.

Lemma reachable_levels_ok (s : rsch) : reachable s -> levels_ok s.
Proof.
  induction 1 as [now s Hinit|s fuel c s' _ IH Hrun].
  - pose proof (hoare_nrf_802154_rsch_init (power_on now) eq_refl) as H.
    now rewrite Hinit in H.
  - pose proof (hoare_run fuel c s IH) as H. now rewrite Hrun in H.
Qed.

(** In every reachable state the array holds levels of the scale only. *)
Lemma reachable_approved_bounded (s : rsch) :
  RSCH_PRIO_IDLE <= RSCH_PRIO_MAX -> reachable s ->
  array_ok s /\
  Forall (fun p => RSCH_PRIO_IDLE <= p <= RSCH_PRIO_MAX) (m_approved_prios s).
Proof.
  intros Hscale Hreach. destruct (reachable_levels_ok s Hreach) as [Hok Hlv].
  split; [exact Hok|].
  eapply Forall_impl; [exact Hlv|]. cbn beta. intros p [->| ->]; lia.
Qed.

(** C10: the assertion guarding [prec_approved_prio_set] lets the index
    [RSCH_PREC_CNT] through, one past the end of the array, so that such a
    call would access the array out of bounds; yet the module only ever
    passes [RSCH_PREC_HFCLK] or [RSCH_PREC_RAAL], both below
    [RSCH_PREC_CNT], and no call made in a reachable state accesses the
    array out of bounds. *)
Theorem prec_approved_prio_set_in_bounds
    (s : rsch) (fuel : nat) (c : api_call) :
  reachable s ->
  (RSCH_PREC_CNT <=? RSCH_PREC_CNT)%nat = true /\
  prec_approved_prio_set RSCH_PREC_CNT RSCH_PRIO_IDLE s = Fault OutOfBounds /\
  (RSCH_PREC_HFCLK < RSCH_PREC_CNT)%nat /\
  (RSCH_PREC_RAAL < RSCH_PREC_CNT)%nat /\
  run fuel c s <> Fault OutOfBounds.
Proof.
  intros Hreach. apply reachable_levels_ok in Hreach.
  split; [reflexivity|]. split.
  - destruct Hreach as [Hok _]. unfold prec_approved_prio_set. run_monad.
    cbn [Nat.leb RSCH_PREC_CNT]. rewrite Z.eqb_refl, andb_false_r.
    rewrite (proj2 (lookup_ge_None _ _)); [reflexivity|].
    unfold array_ok in Hok. rewrite Hok. reflexivity.
  - split; [cbv; lia|]. split; [cbv; lia|].
    intros Hoob. pose proof (hoare_run fuel c s Hreach) as H.
    now rewrite Hoob in H.
Qed.

End Properties.

(** ** Concrete runs *)

Local Existing Instance two_level_scale.
Local Existing Instance TS10.

Lemma init_initialised (now : Z) :
  nrf_802154_rsch_init (power_on now) = Done tt (initialised now).
Proof. vm_compute. reflexivity. Qed.

Lemma reachable_initialised (now : Z) : reachable (initialised now).
Proof. apply (reachable_init now). apply init_initialised. Qed.

(** Section 8 of the specification: continuous mode is entered with no
    precondition approved, the clock becomes ready, then the arbiter grants
    a timeslot.  Only the last step reaches the driver core, once. *)
Example continuous_mode_scenario :
  final_trace
    (run_all 1 [do_continuous_mode_priority_set 1;
                do_clock_hfclk_ready;
                do_raal_timeslot_started] (initialised 0)) =
  Some [nrf_raal_init;
        nrf_802154_priority_drop_hfclk_stop_terminate;
        nrf_802154_clock_hfclk_start;
        nrf_raal_continuous_mode_enter;
        nrf_802154_rsch_continuous_prio_changed 1].
Proof. vm_compute. reflexivity. Qed.

(** A delayed timeslot from request to start: the pre-request timer fires
    at 1200 and requests the preconditions, both get approved, and the
    start timer at 1500 reports success. *)
Example delayed_timeslot_scenario :
  final_trace
    (run_all 1 [do_delayed_timeslot_request 1000 500 200 1;
                do_time_passes 1200; do_timer_fired;
                do_clock_hfclk_ready; do_raal_timeslot_started;
                do_time_passes 1500; do_timer_fired] (initialised 100)) =
  Some [nrf_raal_init;
        nrf_802154_timer_sched_add
          (mk_timer 1000 200 (Some cb_delayed_timeslot_prec_request)) false;
        nrf_802154_priority_drop_hfclk_stop_terminate;
        nrf_802154_clock_hfclk_start;
        nrf_raal_continuous_mode_enter;
        nrf_802154_timer_sched_add
          (mk_timer 1000 500 (Some cb_delayed_timeslot_start)) true;
        nrf_802154_rsch_delayed_timeslot_started].
Proof. vm_compute. reflexivity. Qed.

(** Without the approvals the start timer reports failure. *)
Example delayed_timeslot_failure_scenario :
  final_trace
    (run_all 1 [do_delayed_timeslot_request 1000 500 200 1;
                do_time_passes 1200; do_timer_fired;
                do_clock_hfclk_ready;
                do_time_passes 1500; do_timer_fired] (initialised 100)) =
  Some [nrf_raal_init;
        nrf_802154_timer_sched_add
          (mk_timer 1000 200 (Some cb_delayed_timeslot_prec_request)) false;
        nrf_802154_priority_drop_hfclk_stop_terminate;
        nrf_802154_clock_hfclk_start;
        nrf_raal_continuous_mode_enter;
        nrf_802154_timer_sched_add
          (mk_timer 1000 500 (Some cb_delayed_timeslot_start)) true;
        nrf_802154_rsch_delayed_timeslot_failed].
Proof. vm_compute. reflexivity. Qed.

(** If the activation window opens between two calls with the same
    priority, the second call does reach the clock and the arbiter. *)
Example continuous_mode_priority_set_across_window :
  final_trace
    (run_all 1 [do_delayed_timeslot_request 1000 500 200 1;
                do_time_passes 1189; do_continuous_mode_priority_set 0;
                do_time_passes 1190; do_continuous_mode_priority_set 0]
       (initialised 100)) =
  Some [nrf_raal_init;
        nrf_802154_timer_sched_add
          (mk_timer 1000 200 (Some cb_delayed_timeslot_prec_request)) false;
        nrf_802154_priority_drop_hfclk_stop_terminate;
        nrf_802154_clock_hfclk_start;
        nrf_raal_continuous_mode_enter].
Proof. vm_compute. reflexivity. Qed.

(** ** The scenario of section 8 *)

(** C9, as the code has it: with ramp-up time 300, the request
    [(t0, dt, length, prio) = (1000, 500, 200, MAX)] made at time 100
    succeeds, because time 100 is before [1000 + (500 - 300) = 1200], and
    queues the pre-request timer with [t0 = 1000] and [dt = 200], that is
    for time 1200.  With granularity 10, the instant
    [1000 + (500 - 300 - 10) = 1190] is the one the required level looks at:
    the delayed timeslot counts as soon as 1190 is no longer in the future. *)
Theorem delayed_timeslot_request_example
    (PS : PrioScale) (TS : TimerSched) (s : rsch) :
  RSCH_PRIO_IDLE < RSCH_PRIO_MAX ->
  nrf_802154_timer_sched_granularity_get = 10 ->
  nrf_802154_timer_sched_time_is_in_future 100 1000 200 = true ->
  m_delayed_timeslot_prio s = RSCH_PRIO_IDLE ->
  sched_is_running s = false ->
  sched_time s = 100 ->
  exists s',
    nrf_802154_rsch_delayed_timeslot_request 1000 500 200 RSCH_PRIO_MAX s =
      Done true s' /\
    m_timer s' =
      mk_timer 1000 200 (Some cb_delayed_timeslot_prec_request) /\
    timer_t0 (m_timer s') + timer_dt (m_timer s') = 1200 /\
    trace s' = trace s ++ [nrf_802154_timer_sched_add (m_timer s') false] /\
    1000 + wrap32 (500 - PREC_RAMP_UP_TIME - 10) = 1190 /\
    forall now,
      any_prec_should_be_requested_for_delayed_timeslot
        (set_sched_time now s') =
      negb (nrf_802154_timer_sched_time_is_in_future now 1000 190).
Proof.
  intros Hscale Hgran Hfuture Hidle Hstopped Hnow.
  rewrite (delayed_timeslot_request_cases s 1000 500 200 RSCH_PRIO_MAX)
    by (assumption || lia).
  rewrite Hnow.
  change (wrap32 (500 - PREC_RAMP_UP_TIME)) with 200.
  rewrite Hfuture.
  eexists. split; [reflexivity|].
  split; [reflexivity|]. split; [reflexivity|]. split; [reflexivity|].
  split; [reflexivity|].
  intros now.
  unfold any_prec_should_be_requested_for_delayed_timeslot. cbn.
  rewrite Hgran.
  apply Z.ltb_lt in Hscale. rewrite Hscale. reflexivity.
Qed.

Lemma delayed_timeslot_request_example_witness :
  exists s',
    nrf_802154_rsch_delayed_timeslot_request 1000 500 200 1 (initialised 100)
      = Done true s' /\
    m_timer s' =
      mk_timer 1000 200 (Some cb_delayed_timeslot_prec_request) /\
    timer_t0 (m_timer s') + timer_dt (m_timer s') = 1200 /\
    trace s' = trace (initialised 100) ++
               [nrf_802154_timer_sched_add (m_timer s') false] /\
    1000 + wrap32 (500 - PREC_RAMP_UP_TIME - 10) = 1190 /\
    forall now,
      any_prec_should_be_requested_for_delayed_timeslot
        (set_sched_time now s') =
      negb (nrf_802154_timer_sched_time_is_in_future now 1000 190).
Proof.
  apply (delayed_timeslot_request_example two_level_scale TS10
           (initialised 100));
    [cbn; lia|reflexivity|reflexivity|reflexivity|reflexivity|reflexivity].
Defined.

(** The scenario as the specification words it, with the pre-request timer
    due at 1190, is not what the code does, whatever the timer scheduler
    answers. *)
Lemma delayed_timeslot_request_example_not_at_1190 :
  ~ (exists (TS : TimerSched) (s' : rsch),
       @nrf_802154_rsch_delayed_timeslot_request two_level_scale TS
         1000 500 200 1 (initialised 100) = Done true s' /\
       timer_t0 (m_timer s') + timer_dt (m_timer s') = 1190).
Proof.
  intros (TS & s' & Hrun & Hdue).
  rewrite (@delayed_timeslot_request_cases two_level_scale TS
             (initialised 100) 1000 500 200 1) in Hrun
    by (reflexivity || (cbn; lia)).
  destruct (nrf_802154_timer_sched_time_is_in_future _ _ (wrap32 _)).
  - injection Hrun as <-. vm_compute in Hdue. discriminate.
  - destruct (_ && _).
    + injection Hrun as <-. vm_compute in Hdue. discriminate.
    + discriminate.
Qed.

(** ** The theorems at concrete inputs *)

Lemma delayed_timeslot_request_outcomes_witness :
  nrf_802154_rsch_delayed_timeslot_request 1000 500 200 1 (initialised 100) =
    Done true (pending 100) /\
  nrf_802154_rsch_delayed_timeslot_request 1000 500 200 1
    (set_requested_prio 1 (initialised 1300)) =
    Done true
      (armed 1 1000 500 (mk_timer 1000 500 (Some cb_delayed_timeslot_start))
         true (set_requested_prio 1 (initialised 1300))) /\
  nrf_802154_rsch_delayed_timeslot_request 1000 500 200 1 (initialised 1300) =
    Done false (initialised 1300).
Proof.
  split; [|split].
  - destruct (delayed_timeslot_request_outcomes (initialised 100)
                1000 500 200 1) as (Hearly & _ & _);
      [cbn; lia|reflexivity|reflexivity|].
    apply Hearly. vm_compute. reflexivity.
  - destruct (delayed_timeslot_request_outcomes
                (set_requested_prio 1 (initialised 1300))
                1000 500 200 1) as (_ & Hlate & _);
      [cbn; lia|reflexivity|reflexivity|].
    apply Hlate; [vm_compute; reflexivity|cbn; lia|vm_compute; reflexivity].
  - destruct (delayed_timeslot_request_outcomes (initialised 1300)
                1000 500 200 1) as (_ & _ & Hnone);
      [cbn; lia|reflexivity|reflexivity|].
    apply Hnone; [vm_compute; reflexivity|].
    cbn. intros [Hmax _]. lia.
Defined.


Lemma notify_core_reports_changes_witness :
  array_ok (listening [1; 1]) /\ m_ntf_mutex (listening [1; 1]) = 0 /\
  exists s',
    notify_core 1 (listening [1; 1]) = Done tt s' /\
    trace s' = trace (listening [1; 1]) ++
               [nrf_802154_rsch_continuous_prio_changed 1] /\
    notify_core 1 s' = Done tt s'.
Proof.
  split; [reflexivity|]. split; [reflexivity|].
  destruct (notify_core_reports_changes (listening [1; 1]) 0 eq_refl eq_refl)
    as (approved & s' & Happroved & Hrun & Hyes & _ & _ & Hagain).
  exists s'. split; [exact Hrun|]. split; [|exact Hagain].
  vm_compute in Happroved. injection Happroved as <-.
  rewrite Hyes by (cbn; lia). reflexivity.
Defined.

Lemma required_prio_lvl_get_is_max_witness :
  RSCH_PRIO_IDLE <= m_delayed_timeslot_prio (pending 1195) /\
  required_prio_lvl_get (pending 1195) =
    Z.max (m_cont_mode_prio (pending 1195))
      (delayed_timeslot_effective_prio (pending 1195)) /\
  required_prio_lvl_get (pending 1195) = 1.
Proof.
  split; [cbn; lia|].
  destruct (required_prio_lvl_get_is_max (pending 1195)) as [Hmax _];
    [cbn; lia|].
  split; [exact Hmax|]. vm_compute. reflexivity.
Defined.

Lemma approved_prio_lvl_get_is_minimum_witness :
  array_ok (listening [1; 0]) /\
  Forall (fun p => p <= RSCH_PRIO_MAX) (m_approved_prios (listening [1; 0])) /\
  exists m,
    approved_prio_lvl_get (listening [1; 0]) = Done m (listening [1; 0]) /\
    is_minimum m (m_approved_prios (listening [1; 0])).
Proof.
  assert (Hmax : Forall (fun p => p <= RSCH_PRIO_MAX)
                   (m_approved_prios (listening [1; 0]))).
  { cbn. repeat constructor; lia. }
  split; [reflexivity|]. split; [exact Hmax|].
  apply (approved_prio_lvl_get_is_minimum (listening [1; 0]) eq_refl Hmax).
Defined.

Lemma all_prec_update_issues_requests_witness :
  array_ok (set_cont_mode_prio 1 (initialised 0)) /\
  m_req_mutex (set_cont_mode_prio 1 (initialised 0)) = 0 /\
  required_prio_lvl_get (set_cont_mode_prio 1 (initialised 0)) <>
    m_requested_prio (set_cont_mode_prio 1 (initialised 0)) /\
  exists s',
    all_prec_update 1 (set_cont_mode_prio 1 (initialised 0)) = Done tt s' /\
    m_requested_prio s' = 1 /\
    trace s' = [nrf_raal_init;
                nrf_802154_priority_drop_hfclk_stop_terminate;
                nrf_802154_clock_hfclk_start;
                nrf_raal_continuous_mode_enter].
Proof.
  assert (Hne : required_prio_lvl_get (set_cont_mode_prio 1 (initialised 0)) <>
                m_requested_prio (set_cont_mode_prio 1 (initialised 0))).
  { vm_compute. discriminate. }
  split; [reflexivity|]. split; [reflexivity|]. split; [exact Hne|].
  destruct (all_prec_update_issues_requests
              (set_cont_mode_prio 1 (initialised 0)) 0 eq_refl eq_refl Hne)
    as (s' & Hrun & Hreq & _ & Hbusy).
  exists s'. split; [exact Hrun|]. split; [exact Hreq|].
  destruct Hbusy as [Htrace _]; [vm_compute; discriminate|].
  exact Htrace.
Defined.

Lemma continuous_mode_priority_set_idempotent_witness :
  array_ok (initialised 0) /\
  exists s1 s2,
    nrf_802154_rsch_continuous_mode_priority_set 1 1 (initialised 0) =
      Done tt s1 /\
    nrf_802154_rsch_continuous_mode_priority_set 1 1 s1 = Done tt s2 /\
    trace s2 = trace s1 /\
    m_requested_prio s2 = m_requested_prio s1.
Proof.
  split; [reflexivity|].
  destruct (continuous_mode_priority_set_idempotent (initialised 0) 0 0 1
              eq_refl)
    as (s1 & s2 & Hrun1 & Hrun2 & _ & Htrace & _ & Hreq).
  exists s1, s2. now repeat split.
Defined.

Lemma prec_approved_prio_set_drops_or_records_witness :
  array_ok (initialised 0) /\ (RSCH_PREC_RAAL < RSCH_PREC_CNT)%nat /\
  prec_approved_prio_set RSCH_PREC_RAAL 1 (initialised 0) =
    Done tt (initialised 0) /\
  exists s',
    prec_approved_prio_set RSCH_PREC_RAAL 0 (listening [1; 1]) = Done tt s' /\
    m_approved_prios s' = [1; 0].
Proof.
  split; [reflexivity|]. split; [cbv; lia|]. split.
  - destruct (prec_approved_prio_set_drops_or_records (initialised 0)
                RSCH_PREC_RAAL 1 eq_refl) as [Hdrop _]; [cbv; lia|].
    apply Hdrop; [cbn; lia|reflexivity].
  - destruct (prec_approved_prio_set_drops_or_records (listening [1; 1])
                RSCH_PREC_RAAL 0 eq_refl) as [_ Hrecord]; [cbv; lia|].
    destruct (Hrecord eq_refl) as (s' & Hrun & _ & ->).
    eexists. split; [exact Hrun|reflexivity].
Defined.

Lemma prec_approved_prio_set_in_bounds_witness :
  reachable (initialised 0) /\
  prec_approved_prio_set RSCH_PREC_CNT RSCH_PRIO_IDLE (initialised 0) =
    Fault OutOfBounds /\
  run 1 do_raal_timeslot_ended (initialised 0) <> Fault OutOfBounds.
Proof.
  assert (Hreach : reachable (initialised 0)).
  { apply (reachable_init 0). vm_compute. reflexivity. }
  split; [exact Hreach|].
  destruct (prec_approved_prio_set_in_bounds (initialised 0) 1
              do_raal_timeslot_ended Hreach)
    as (_ & Hoob & _ & _ & Hsafe).
  now split.
Defined.

(** ** More about the module *)

Section MoreProperties.

Context {PS : PrioScale} {TS : TimerSched}.

Ltac run_monad :=
  cbv beta iota delta [bind ret gets modify call assert raise
                         approved_read approved_write].

Ltac rsch_eq s :=
  destruct s; cbn in *; subst; rewrite <- ?app_assoc; reflexivity.

Ltac project_result :=
  unfold all_prec_update_result, all_prec_update_section_result,
    notify_core_result, notify_core_section_result;
  now repeat case_match.

(** *** The mutex monitor *)

Lemma set_req_mutex_monitor_twice (a b : Z) (s : rsch) :
  set_req_mutex_monitor a (set_req_mutex_monitor b s) =
  set_req_mutex_monitor a s.
Proof. reflexivity. Qed.

Lemma set_req_mutex_monitor_same (s : rsch) :
  set_req_mutex_monitor (m_req_mutex_monitor s) s = s.
Proof. now destruct s. Qed.

Lemma all_prec_update_held_repeat (s : rsch) (fuel n : nat) :
  m_req_mutex s <> 0 ->
  repeat_m n (all_prec_update (S fuel)) s =
    Done tt
      (set_req_mutex_monitor ((m_req_mutex_monitor s + Z.of_nat n) mod 2 ^ 8) s)
  \/ (n = 0%nat /\ repeat_m n (all_prec_update (S fuel)) s = Done tt s).
Proof.
  intros Hheld. destruct n as [|n]; [right; now split|left].
  revert s Hheld. induction n as [|n IH]; intros s Hheld.
  - cbn [repeat_m]. unfold bind. rewrite all_prec_update_held by exact Hheld.
    reflexivity.
  - change (repeat_m (S (S n)) (all_prec_update (S fuel)) s)
      with (bind (all_prec_update (S fuel))
              (fun _ => repeat_m (S n) (all_prec_update (S fuel))) s).
    unfold bind at 1. rewrite all_prec_update_held by exact Hheld.
    rewrite IH by exact Hheld.
    cbn [m_req_mutex_monitor set_req_mutex_monitor].
    rewrite set_req_mutex_monitor_twice. f_equal. f_equal.
    unfold wrap8.
    rewrite Zplus_mod_idemp_l. f_equal. lia.
Qed.

(** X1: while the request mutex is held, calls of [all_prec_update] issue
    nothing and change nothing but the monitor, to which [n] calls add [n]
    modulo 256; after 256 calls the state is what it was, so the holder's
    retry test cannot tell that they happened. *)
Theorem all_prec_update_held_wraps (s : rsch) (fuel n : nat) :
  m_req_mutex s <> 0 ->
  0 <= m_req_mutex_monitor s < 2 ^ 8 ->
  (0 < n)%nat ->
  repeat_m n (all_prec_update (S fuel)) s =
    Done tt
      (set_req_mutex_monitor
         ((m_req_mutex_monitor s + Z.of_nat n) mod 2 ^ 8) s) /\
  repeat_m 256 (all_prec_update (S fuel)) s = Done tt s.
Proof.
  intros Hheld Hrange Hn. split.
  - destruct (all_prec_update_held_repeat s fuel n Hheld) as [H|[H _]];
      [exact H|lia].
  - destruct (all_prec_update_held_repeat s fuel 256 Hheld) as [H|[H _]];
      [|lia].
    rewrite H.
    replace ((m_req_mutex_monitor s + Z.of_nat 256) mod 2 ^ 8)
      with (m_req_mutex_monitor s).
    + now rewrite set_req_mutex_monitor_same.
    + change (Z.of_nat 256) with (1 * 2 ^ 8).
      rewrite Z_mod_plus_full. symmetry. apply Z.mod_small. exact Hrange.
Qed.

(** *** Approvals *)

Lemma prec_approved_prio_set_cases (s : rsch) (prec : nat) (prio a : Z) :
  (prec < RSCH_PREC_CNT)%nat ->
  m_approved_prios s !! prec = Some a ->
  prec_approved_prio_set prec prio s =
    if (m_requested_prio s =? RSCH_PRIO_IDLE) && negb (prio =? RSCH_PRIO_IDLE)
    then Done tt s
    else if negb (a =? prio) || (prio =? RSCH_PRIO_IDLE)
    then Done tt (set_approved_prios (<[prec := prio]> (m_approved_prios s)) s)
    else Fault AssertionFailed.
Proof.
  intros Hlt Ha. unfold prec_approved_prio_set. run_monad.
  assert (Hle : (prec <=? RSCH_PREC_CNT)%nat = true) by (apply Nat.leb_le; lia).
  rewrite Hle. destruct (_ && _); [reflexivity|].
  rewrite Ha. destruct (_ || _); [|reflexivity].
  apply lookup_lt_Some in Ha. apply Nat.ltb_lt in Ha. now rewrite Ha.
Qed.

(** X2: once a precondition holds a non-idle level, approving that same
    level again is an assertion failure; approving a different level while
    something is requested overwrites the entry and touches nothing else. *)
Theorem prec_approved_prio_set_twice (s : rsch) (prec : nat) (prio a : Z) :
  (prec < RSCH_PREC_CNT)%nat ->
  m_approved_prios s !! prec = Some a ->
  m_requested_prio s <> RSCH_PRIO_IDLE ->
  prio <> RSCH_PRIO_IDLE ->
  (a = prio -> prec_approved_prio_set prec prio s = Fault AssertionFailed) /\
  (a <> prio ->
   prec_approved_prio_set prec prio s =
     Done tt (set_approved_prios (<[prec := prio]> (m_approved_prios s)) s) /\
   (prec_approved_prio_set prec prio ;;; prec_approved_prio_set prec prio) s =
     Fault AssertionFailed).
Proof.
  intros Hlt Ha Hreq Hprio.
  assert (Hgo : (m_requested_prio s =? RSCH_PRIO_IDLE) &&
                negb (prio =? RSCH_PRIO_IDLE) = false).
  { apply Z.eqb_neq in Hreq. now rewrite Hreq. }
  assert (Hnidle : (prio =? RSCH_PRIO_IDLE) = false) by now apply Z.eqb_neq.
  split.
  - intros ->. rewrite (prec_approved_prio_set_cases s prec prio prio Hlt Ha).
    now rewrite Hgo, Z.eqb_refl, Hnidle.
  - intros Hne.
    assert (Hfirst : prec_approved_prio_set prec prio s =
      Done tt (set_approved_prios (<[prec := prio]> (m_approved_prios s)) s)).
    { rewrite (prec_approved_prio_set_cases s prec prio a Hlt Ha).
      apply Z.eqb_neq in Hne. now rewrite Hgo, Hne. }
    split; [exact Hfirst|].
    unfold bind. rewrite Hfirst.
    rewrite (prec_approved_prio_set_cases _ prec prio prio Hlt).
    + cbn [m_requested_prio set_approved_prios].
      now rewrite Hgo, Z.eqb_refl, Hnidle.
    + cbn. apply list_lookup_insert_eq. now apply lookup_lt_Some in Ha.
Qed.

Lemma approved_level_two (a b : Z) (s : rsch) :
  m_approved_prios s = [a; b] ->
  approved_level s = Z.min (Z.min RSCH_PRIO_MAX a) b.
Proof. intros H. unfold approved_level. now rewrite H. Qed.

Lemma array_ok_two (s : rsch) :
  array_ok s -> exists a b, m_approved_prios s = [a; b].
Proof.
  unfold array_ok. intros Hok.
  destruct (m_approved_prios s) as [|a [|b [|c l]]]; try discriminate.
  now exists a, b.
Qed.

(** X3: [nrf_802154_rsch_prec_is_approved] only reads; it refuses an index
    outside the array by assertion; and for a level of the scale, the
    approved level reaches [prio] exactly when every precondition is
    approved at [prio]. *)
Theorem prec_is_approved_all_iff_level (s : rsch) (prio : Z) :
  array_ok s ->
  prio <= RSCH_PRIO_MAX ->
  exists level hfclk raal,
    approved_prio_lvl_get s = Done level s /\
    nrf_802154_rsch_prec_is_approved RSCH_PREC_HFCLK prio s = Done hfclk s /\
    nrf_802154_rsch_prec_is_approved RSCH_PREC_RAAL prio s = Done raal s /\
    (prio <= level <-> hfclk = true /\ raal = true) /\
    forall prec, (RSCH_PREC_CNT <= prec)%nat ->
      nrf_802154_rsch_prec_is_approved prec prio s = Fault AssertionFailed.
Proof.
  intros Hok Hprio.
  destruct (array_ok_two s Hok) as (a & b & Harr).
  exists (approved_level s), (prio <=? a), (prio <=? b).
  split; [now apply approved_prio_lvl_get_level|].
  unfold nrf_802154_rsch_prec_is_approved.
  change (RSCH_PREC_HFCLK <? RSCH_PREC_CNT)%nat with true.
  change (RSCH_PREC_RAAL <? RSCH_PREC_CNT)%nat with true.
  run_monad. rewrite Harr.
  split; [reflexivity|]. split; [reflexivity|]. split.
  - rewrite (approved_level_two a b s Harr).
    rewrite !Z.leb_le. lia.
  - intros prec Hge. apply Nat.ltb_ge in Hge. now rewrite Hge.
Qed.

(** *** What holds between calls *)

Lemma hoare_quiescent_frame (f : rsch -> rsch) :
  (forall s, m_approved_prios (f s) = m_approved_prios s) ->
  (forall s, m_requested_prio (f s) = m_requested_prio s) ->
  (forall s, m_req_mutex (f s) = m_req_mutex s) ->
  (forall s, m_ntf_mutex (f s) = m_ntf_mutex s) ->
  hoare quiescent (modify f) quiescent.
Proof.
  intros Ha Hr Hq Hn. apply hoare_modify.
  intros s ([Hok Hlv] & Hreq & Hntf & Hidle).
  unfold quiescent, levels_ok, array_ok. rewrite Ha, Hr, Hq, Hn.
  now repeat split.
Qed.

Lemma hoare_quiescent_call (e : event) : hoare quiescent (call e) quiescent.
Proof. now apply hoare_quiescent_frame. Qed.

Lemma quiescent_array_ok (s : rsch) : quiescent s -> array_ok s.
Proof. now intros ([Hok _] & _). Qed.

Lemma all_prec_update_result_quiescent (s : rsch) :
  quiescent s -> quiescent (all_prec_update_result s).
Proof.
  intros ([Hok Hlv] & Hreq & Hntf & Hidle).
  unfold all_prec_update_result. rewrite Hreq. cbn [Z.eqb].
  unfold all_prec_update_section_result.
  destruct (Z.eqb_spec (m_requested_prio s) (required_prio_lvl_get s));
    [now repeat split|].
  destruct (Z.eqb_spec (required_prio_lvl_get s) RSCH_PRIO_IDLE) as [Hi|Hb].
  - destruct (array_ok_two s Hok) as (a & b & Harr).
    unfold quiescent, levels_ok, array_ok. cbn. rewrite Harr. cbn.
    repeat split; try assumption; repeat constructor.
  - unfold quiescent, levels_ok, array_ok. cbn.
    repeat split; try assumption. intros. contradiction.
Qed.

Lemma notify_core_result_quiescent (s : rsch) :
  quiescent s -> quiescent (notify_core_result s).
Proof.
  intros ([Hok Hlv] & Hreq & Hntf & Hidle).
  unfold notify_core_result. rewrite Hntf. cbn [Z.eqb].
  unfold notify_core_section_result.
  destruct (_ && _); now repeat split.
Qed.

Lemma hoare_quiescent_all_prec_update (fuel : nat) :
  hoare quiescent (all_prec_update fuel) quiescent.
Proof.
  destruct fuel as [|fuel]; intros s Hq; [exact I|].
  rewrite all_prec_update_total by now apply quiescent_array_ok.
  now apply all_prec_update_result_quiescent.
Qed.

Lemma hoare_quiescent_notify_core (fuel : nat) :
  hoare quiescent (notify_core fuel) quiescent.
Proof.
  destruct fuel as [|fuel]; intros s Hq; [exact I|].
  rewrite notify_core_total by now apply quiescent_array_ok.
  now apply notify_core_result_quiescent.
Qed.

Lemma hoare_quiescent_prec_approved_prio_set (prec : nat) (prio : Z) :
  (prec < RSCH_PREC_CNT)%nat ->
  prio = RSCH_PRIO_IDLE \/ prio = RSCH_PRIO_MAX ->
  hoare quiescent (prec_approved_prio_set prec prio) quiescent.
Proof.
  intros Hlt Hprio s Hq.
  pose proof Hq as ([Hok Hlv] & Hreq & Hntf & Hidle).
  destruct (approved_lookup_ok s prec Hok Hlt) as [a Ha].
  rewrite (prec_approved_prio_set_cases s prec prio a Hlt Ha).
  destruct (Z.eqb_spec (m_requested_prio s) RSCH_PRIO_IDLE) as [Hri|Hrb];
    destruct (Z.eqb_spec prio RSCH_PRIO_IDLE) as [Hpi|Hpb];
    cbn [andb negb]; try exact Hq.
  - rewrite orb_true_r.
    unfold quiescent, levels_ok, array_ok. cbn. rewrite length_insert.
    repeat split; try assumption.
    + apply Forall_insert; [exact Hlv|now left].
    + intros _. apply Forall_insert; [now apply Hidle|exact Hpi].
  - rewrite orb_true_r.
    unfold quiescent, levels_ok, array_ok. cbn. rewrite length_insert.
    repeat split; try assumption.
    + apply Forall_insert; [exact Hlv|now left].
    + intros. contradiction.
  - rewrite orb_false_r. destruct (negb (a =? prio)); [|exact I].
    unfold quiescent, levels_ok, array_ok. cbn. rewrite length_insert.
    repeat split; try assumption.
    + apply Forall_insert; [exact Hlv|exact Hprio].
    + intros. contradiction.
Qed.

Lemma hoare_quiescent_timer_sched_add (round_up : bool) :
  hoare quiescent (timer_sched_add round_up) quiescent.
Proof.
  unfold timer_sched_add.
  eapply hoare_bind; [apply hoare_gets|intros t].
  eapply hoare_bind; [apply hoare_quiescent_call|intros _].
  now apply hoare_quiescent_frame.
Qed.

Lemma hoare_quiescent_delayed_timeslot_start :
  hoare quiescent delayed_timeslot_start quiescent.
Proof.
  intros s Hq. unfold delayed_timeslot_start. run_monad.
  rewrite (approved_prio_lvl_get_level
             (set_delayed_timeslot_prio RSCH_PRIO_IDLE s))
    by (apply quiescent_array_ok in Hq; exact Hq).
  destruct (_ <=? _); exact Hq.
Qed.

Lemma hoare_quiescent_delayed_timeslot_prec_request (fuel : nat) :
  hoare quiescent (delayed_timeslot_prec_request fuel) quiescent.
Proof.
  unfold delayed_timeslot_prec_request.
  eapply hoare_bind; [apply hoare_quiescent_all_prec_update|intros _].
  eapply hoare_bind; [apply hoare_gets|intros t0].
  eapply hoare_bind; [apply hoare_gets|intros dt].
  eapply hoare_bind; [now apply hoare_quiescent_frame|intros _].
  apply hoare_quiescent_timer_sched_add.
Qed.

Lemma hoare_quiescent_init : hoare array_ok nrf_802154_rsch_init quiescent.
Proof.
  intros s Hok.
  destruct (nrf_802154_rsch_init_state s Hok)
    as (s' & -> & Harr & Hreq & _ & _ & _ & Hntf & Hrm).
  unfold quiescent, levels_ok, array_ok. rewrite Harr.
  repeat split; try assumption; repeat constructor.
Qed.

Lemma hoare_quiescent_delayed_timeslot_request (t0 dt length prio : Z) :
  hoare quiescent
    (nrf_802154_rsch_delayed_timeslot_request t0 dt length prio) quiescent.
Proof.
  unfold nrf_802154_rsch_delayed_timeslot_request.
  eapply hoare_bind; [apply hoare_gets|intros now].
  eapply hoare_bind; [apply hoare_gets|intros running].
  eapply hoare_bind; [apply hoare_assert|intros _].
  eapply hoare_bind; [apply hoare_gets|intros delayed].
  eapply hoare_bind; [apply hoare_assert|intros _].
  eapply hoare_bind; [apply hoare_assert|intros _].
  apply hoare_if.
  - do 4 (eapply hoare_bind; [now apply hoare_quiescent_frame|intros _]).
    eapply hoare_bind; [apply hoare_quiescent_timer_sched_add|intros _].
    apply hoare_ret.
  - eapply hoare_bind; [apply hoare_gets|intros at_max].
    apply hoare_if; [|apply hoare_ret].
    do 4 (eapply hoare_bind; [now apply hoare_quiescent_frame|intros _]).
    eapply hoare_bind; [apply hoare_quiescent_timer_sched_add|intros _].
    apply hoare_ret.
Qed.

Lemma hoare_quiescent_prec_is_approved (prec : nat) (prio : Z) :
  hoare quiescent (nrf_802154_rsch_prec_is_approved prec prio) quiescent.
Proof.
  intros s Hq. unfold nrf_802154_rsch_prec_is_approved. run_monad.
  destruct (Nat.ltb_spec prec RSCH_PREC_CNT) as [Hlt|Hge]; [|exact I].
  destruct (approved_lookup_ok s prec (quiescent_array_ok s Hq) Hlt)
    as [a ->].
  exact Hq.
Qed.

Lemma hoare_quiescent_handler (fuel : nat) (prec : nat) (prio : Z) :
  (prec < RSCH_PREC_CNT)%nat ->
  prio = RSCH_PRIO_IDLE \/ prio = RSCH_PRIO_MAX ->
  hoare quiescent (prec_approved_prio_set prec prio ;;; notify_core fuel)
    quiescent.
Proof.
  intros Hprec Hprio.
  eapply hoare_bind;
    [now apply hoare_quiescent_prec_approved_prio_set|intros _].
  apply hoare_quiescent_notify_core.
Qed.

Lemma hoare_quiescent_run (fuel : nat) (c : api_call) :
  hoare quiescent (run fuel c) quiescent.
Proof.
  destruct c; cbn [run].
  - intros s Hs. apply hoare_quiescent_init. now apply quiescent_array_ok.
  - unfold nrf_802154_rsch_uninit.
    eapply hoare_bind; [apply hoare_quiescent_call|intros _].
    eapply hoare_bind; [now apply hoare_quiescent_frame|intros _].
    apply hoare_quiescent_call.
  - unfold nrf_802154_rsch_continuous_mode_priority_set.
    eapply hoare_bind; [now apply hoare_quiescent_frame|intros _].
    eapply hoare_bind; [apply hoare_quiescent_all_prec_update|intros _].
    eapply hoare_bind; [apply hoare_quiescent_notify_core|intros _].
    apply hoare_if; [now apply hoare_quiescent_frame|apply hoare_ret].
  - eapply hoare_bind;
      [apply hoare_quiescent_delayed_timeslot_request|intros _].
    apply hoare_ret.
  - eapply hoare_bind; [apply hoare_quiescent_prec_is_approved|intros _].
    apply hoare_ret.
  - apply hoare_quiescent_handler; [cbv; lia|now right].
  - apply hoare_quiescent_handler; [cbv; lia|now left].
  - apply hoare_quiescent_handler; [cbv; lia|now right].
  - unfold timer_fired.
    eapply hoare_bind; [apply hoare_gets|intros running].
    apply hoare_if; [|apply hoare_ret].
    eapply hoare_bind; [now apply hoare_quiescent_frame|intros _].
    eapply hoare_bind; [apply hoare_gets|intros t].
    destruct (timer_callback_fn t) as [[]|].
    + apply hoare_quiescent_delayed_timeslot_prec_request.
    + apply hoare_quiescent_delayed_timeslot_start.
    + apply hoare_ret.
  - now apply hoare_quiescent_frame.
Qed.

Lemma reachable_is_quiescent (s : rsch) : reachable s -> quiescent s.
Proof.
  induction 1 as [now s Hinit|s fuel c s' _ IH Hrun].
  - pose proof (hoare_quiescent_init (power_on now) eq_refl) as H.
    now rewrite Hinit in H.
  - pose proof (hoare_quiescent_run fuel c s IH) as H. now rewrite Hrun in H.
Qed.

Lemma all_idle_approved_level (s : rsch) :
  array_ok s -> RSCH_PRIO_IDLE <= RSCH_PRIO_MAX ->
  Forall (fun p => p = RSCH_PRIO_IDLE) (m_approved_prios s) ->
  approved_level s = RSCH_PRIO_IDLE.
Proof.
  intros Hok Hscale Hidle.
  destruct (array_ok_two s Hok) as (a & b & Harr).
  rewrite (approved_level_two a b s Harr). rewrite Harr in Hidle.
  apply Forall_cons in Hidle as [-> Hidle].
  apply Forall_cons in Hidle as [-> _]. lia.
Qed.

(** X4: in every state the module can reach, both mutexes are free, and as
    long as the requested level is idle every precondition's approval is
    idle, so that the approved level is idle too. *)
Theorem reachable_idle_means_unapproved (s : rsch) :
  reachable s ->
  m_req_mutex s = 0 /\ m_ntf_mutex s = 0 /\
  (m_requested_prio s = RSCH_PRIO_IDLE ->
   Forall (fun p => p = RSCH_PRIO_IDLE) (m_approved_prios s) /\
   (RSCH_PRIO_IDLE <= RSCH_PRIO_MAX ->
    approved_prio_lvl_get s = Done RSCH_PRIO_IDLE s)).
Proof.
  intros Hreach.
  destruct (reachable_is_quiescent s Hreach)
    as ([Hok Hlv] & Hreq & Hntf & Hidle).
  split; [exact Hreq|]. split; [exact Hntf|].
  intros Hnone. split; [now apply Hidle|].
  intros Hscale. rewrite approved_prio_lvl_get_level by exact Hok.
  f_equal. apply all_idle_approved_level; auto.
Qed.

(** *** The handlers of the preconditions *)

Lemma handler_drops (s : rsch) (fuel prec : nat) (prio : Z) :
  array_ok s -> m_ntf_mutex s = 0 ->
  (prec < RSCH_PREC_CNT)%nat ->
  prio <> RSCH_PRIO_IDLE ->
  m_requested_prio s = RSCH_PRIO_IDLE ->
  m_cont_mode_prio s <= RSCH_PRIO_IDLE ->
  (prec_approved_prio_set prec prio ;;; notify_core (S fuel)) s = Done tt s.
Proof.
  intros Hok Hfree Hlt Hprio Hreq Hcont. unfold bind.
  rewrite prec_approved_prio_set_dropped by (assumption || lia).
  rewrite notify_core_free by assumption.
  unfold notify_core_section_result.
  apply Z.ltb_ge in Hcont. now rewrite Hcont.
Qed.

Lemma handler_drops_held (s : rsch) (fuel prec : nat) (prio : Z) :
  m_ntf_mutex s <> 0 ->
  (prec < RSCH_PREC_CNT)%nat ->
  prio <> RSCH_PRIO_IDLE ->
  m_requested_prio s = RSCH_PRIO_IDLE ->
  (prec_approved_prio_set prec prio ;;; notify_core (S fuel)) s =
    Done tt (set_ntf_mutex_monitor (wrap8 (m_ntf_mutex_monitor s + 1)) s).
Proof.
  intros Hheld Hlt Hprio Hreq. unfold bind.
  rewrite prec_approved_prio_set_dropped by (assumption || lia).
  now apply notify_core_held.
Qed.

(** X5: a grant that arrives while nothing is requested and continuous
    mode is off has no effect: with the notify mutex free neither the
    clock-ready nor the timeslot-started handler changes the state or calls
    anybody; with the notify mutex held, which is the handler preempting a
    notifier, the only change is the notify monitor going up by one. *)
Theorem stale_grant_has_no_effect (s : rsch) (fuel : nat) :
  array_ok s ->
  RSCH_PRIO_MAX <> RSCH_PRIO_IDLE ->
  m_requested_prio s = RSCH_PRIO_IDLE ->
  m_cont_mode_prio s <= RSCH_PRIO_IDLE ->
  (m_ntf_mutex s = 0 ->
   nrf_802154_clock_hfclk_ready (S fuel) s = Done tt s /\
   nrf_raal_timeslot_started (S fuel) s = Done tt s) /\
  (m_ntf_mutex s <> 0 ->
   nrf_802154_clock_hfclk_ready (S fuel) s =
     Done tt (set_ntf_mutex_monitor (wrap8 (m_ntf_mutex_monitor s + 1)) s) /\
   nrf_raal_timeslot_started (S fuel) s =
     Done tt (set_ntf_mutex_monitor (wrap8 (m_ntf_mutex_monitor s + 1)) s)).
Proof.
  intros Hok Hmax Hreq Hcont. split.
  - intros Hfree.
    split; apply handler_drops; (assumption || (cbv; lia)).
  - intros Hheld.
    split; apply handler_drops_held; (assumption || (cbv; lia)).
Qed.

Lemma handler_records (s : rsch) (fuel prec : nat) (prio a : Z) :
  array_ok s -> m_ntf_mutex s = 0 ->
  m_approved_prios s !! prec = Some a ->
  (prec < RSCH_PREC_CNT)%nat ->
  (m_requested_prio s <> RSCH_PRIO_IDLE /\ a <> prio) \/
    prio = RSCH_PRIO_IDLE ->
  (prec_approved_prio_set prec prio ;;; notify_core (S fuel)) s =
    Done tt
      (notify_core_section_result
         (set_approved_prios (<[prec := prio]> (m_approved_prios s)) s)).
Proof.
  intros Hok Hfree Ha Hlt Hcase. unfold bind.
  rewrite (prec_approved_prio_set_cases s prec prio a Hlt Ha).
  assert (Hgo : (m_requested_prio s =? RSCH_PRIO_IDLE) &&
                negb (prio =? RSCH_PRIO_IDLE) = false /\
                negb (a =? prio) || (prio =? RSCH_PRIO_IDLE) = true).
  { destruct Hcase as [[Hreq Hne]| ->].
    - apply Z.eqb_neq in Hreq, Hne. now rewrite Hreq, Hne.
    - now rewrite Z.eqb_refl, andb_false_r, orb_true_r. }
  destruct Hgo as [-> ->].
  apply notify_core_free; [|exact Hfree].
  unfold array_ok in *. cbn. now rewrite length_insert.
Qed.

(** X6: when the arbiter takes the timeslot back, the arbiter's approval
    and the approved level are idle afterwards; in continuous mode the
    driver core is told so, unless idle is what it was told last. *)
Theorem timeslot_ended_revokes (s : rsch) (fuel : nat) :
  levels_ok s -> m_ntf_mutex s = 0 ->
  RSCH_PRIO_IDLE <= RSCH_PRIO_MAX ->
  exists s',
    nrf_raal_timeslot_ended (S fuel) s = Done tt s' /\
    m_approved_prios s' !! RSCH_PREC_RAAL = Some RSCH_PRIO_IDLE /\
    approved_prio_lvl_get s' = Done RSCH_PRIO_IDLE s' /\
    (RSCH_PRIO_IDLE < m_cont_mode_prio s ->
     m_last_notified_prio s' = RSCH_PRIO_IDLE /\
     new_events s s' =
       if m_last_notified_prio s =? RSCH_PRIO_IDLE then []
       else [nrf_802154_rsch_continuous_prio_changed RSCH_PRIO_IDLE]) /\
    (m_cont_mode_prio s <= RSCH_PRIO_IDLE -> new_events s s' = []).
Proof.
  intros [Hok Hlv] Hfree Hscale.
  destruct (array_ok_two s Hok) as (a & b & Harr).
  unfold nrf_raal_timeslot_ended.
  rewrite (handler_records s fuel RSCH_PREC_RAAL RSCH_PRIO_IDLE b);
    [|assumption|assumption|now rewrite Harr|cbv; lia|now right].
  eexists. split; [reflexivity|].
  set (s1 := set_approved_prios
               (<[RSCH_PREC_RAAL := RSCH_PRIO_IDLE]> (m_approved_prios s)) s).
  assert (Harr1 : m_approved_prios s1 = [a; RSCH_PRIO_IDLE]).
  { unfold s1. cbn. now rewrite Harr. }
  assert (Hlevel : approved_level s1 = RSCH_PRIO_IDLE).
  { rewrite (approved_level_two a RSCH_PRIO_IDLE s1 Harr1).
    rewrite Harr in Hlv. apply Forall_cons in Hlv as [[-> | ->] _]; lia. }
  assert (Hproj : forall s2, s2 = notify_core_section_result s1 ->
            m_approved_prios s2 = [a; RSCH_PRIO_IDLE]).
  { intros s2 ->. unfold notify_core_section_result.
    destruct (_ && _); exact Harr1. }
  split; [now rewrite (Hproj _ eq_refl)|].
  split.
  { rewrite approved_prio_lvl_get_level.
    - f_equal. unfold approved_level. rewrite (Hproj _ eq_refl).
      unfold approved_level in Hlevel. now rewrite Harr1 in Hlevel.
    - unfold array_ok. now rewrite (Hproj _ eq_refl). }
  unfold new_events, notify_core_section_result. rewrite Hlevel.
  change (m_cont_mode_prio s1) with (m_cont_mode_prio s).
  change (m_last_notified_prio s1) with (m_last_notified_prio s).
  change (trace s1) with (trace s).
  split.
  - intros Hact. apply Z.ltb_lt in Hact. rewrite Hact. cbn [andb].
    destruct (Z.eqb_spec (m_last_notified_prio s) RSCH_PRIO_IDLE) as [Hl|Hl];
      cbn [negb].
    + split; [exact Hl|]. now rewrite drop_all.
    + split; [reflexivity|]. cbn. now rewrite drop_app_length.
  - intros Hina. apply Z.ltb_ge in Hina. rewrite Hina. cbn [andb].
    now rewrite drop_all.
Qed.

(** X7: with the notify mutex free, idle strictly below the maximum,
    continuous mode on, the preconditions requested, neither approved yet
    and idle notified last, the two grants may arrive in either order: the
    first one reaches nobody, the second one makes the notifier report the
    maximum level once, and both orders end in the same state. *)
Theorem grants_commute (s : rsch) (fuel : nat) :
  m_approved_prios s = [RSCH_PRIO_IDLE; RSCH_PRIO_IDLE] ->
  m_ntf_mutex s = 0 ->
  RSCH_PRIO_IDLE < RSCH_PRIO_MAX ->
  m_requested_prio s <> RSCH_PRIO_IDLE ->
  RSCH_PRIO_IDLE < m_cont_mode_prio s ->
  m_last_notified_prio s = RSCH_PRIO_IDLE ->
  exists s1 s2 s',
    nrf_802154_clock_hfclk_ready (S fuel) s = Done tt s1 /\
    trace s1 = trace s /\
    nrf_raal_timeslot_started (S fuel) s = Done tt s2 /\
    trace s2 = trace s /\
    nrf_raal_timeslot_started (S fuel) s1 = Done tt s' /\
    nrf_802154_clock_hfclk_ready (S fuel) s2 = Done tt s' /\
    trace s' =
      trace s ++ [nrf_802154_rsch_continuous_prio_changed RSCH_PRIO_MAX] /\
    m_last_notified_prio s' = RSCH_PRIO_MAX.
Proof.
  intros Harr Hfree Hscale Hreq Hact Hlast.
  assert (Hne : RSCH_PRIO_IDLE <> RSCH_PRIO_MAX) by lia.
  assert (Hok : array_ok s) by (unfold array_ok; now rewrite Harr).
  apply Z.ltb_lt in Hact.
  assert (Hmin1 : Z.min (Z.min RSCH_PRIO_MAX RSCH_PRIO_MAX) RSCH_PRIO_IDLE
                  = RSCH_PRIO_IDLE) by lia.
  assert (Hmin2 : Z.min (Z.min RSCH_PRIO_MAX RSCH_PRIO_IDLE) RSCH_PRIO_MAX
                  = RSCH_PRIO_IDLE) by lia.
  assert (Hmin3 : Z.min (Z.min RSCH_PRIO_MAX RSCH_PRIO_MAX) RSCH_PRIO_MAX
                  = RSCH_PRIO_MAX) by lia.
  assert (Hdiff : (RSCH_PRIO_IDLE =? RSCH_PRIO_MAX) = false)
    by now apply Z.eqb_neq.
  unfold nrf_802154_clock_hfclk_ready, nrf_raal_timeslot_started.
  rewrite (handler_records s fuel RSCH_PREC_HFCLK RSCH_PRIO_MAX RSCH_PRIO_IDLE);
    [|assumption|assumption|now rewrite Harr|cbv; lia|now left].
  rewrite (handler_records s fuel RSCH_PREC_RAAL RSCH_PRIO_MAX RSCH_PRIO_IDLE);
    [|assumption|assumption|now rewrite Harr|cbv; lia|now left].
  rewrite Harr. cbn [list_insert insert RSCH_PREC_HFCLK RSCH_PREC_RAAL].
  unfold notify_core_section_result, approved_level.
  cbn [m_approved_prios m_cont_mode_prio m_last_notified_prio
       set_approved_prios fold_left].
  rewrite Hmin1, Hmin2, Hact, Hlast, Z.eqb_refl. cbn [andb negb].
  do 3 eexists.
  split; [reflexivity|]. split; [reflexivity|].
  split; [reflexivity|]. split; [reflexivity|].
  rewrite (handler_records _ fuel RSCH_PREC_RAAL RSCH_PRIO_MAX RSCH_PRIO_IDLE);
    [|reflexivity|assumption|reflexivity|cbv; lia|now left].
  rewrite (handler_records _ fuel RSCH_PREC_HFCLK RSCH_PRIO_MAX RSCH_PRIO_IDLE);
    [|reflexivity|assumption|reflexivity|cbv; lia|now left].
  cbn [m_approved_prios set_approved_prios list_insert insert
       RSCH_PREC_HFCLK RSCH_PREC_RAAL].
  unfold notify_core_section_result, approved_level.
  cbn [m_approved_prios m_cont_mode_prio m_last_notified_prio
       set_approved_prios fold_left trace set_trace set_last_notified_prio].
  rewrite Hmin3, Hact, Hlast, Hdiff. cbn [andb negb].
  split; [reflexivity|]. split; [reflexivity|].
  split; reflexivity.
Qed.

(** *** The delayed timeslot from request to verdict *)

Lemma all_prec_update_result_frame (s : rsch) :
  let s' := all_prec_update_result s in
  m_delayed_timeslot_prio s' = m_delayed_timeslot_prio s /\
  m_delayed_timeslot_t0 s' = m_delayed_timeslot_t0 s /\
  m_delayed_timeslot_dt s' = m_delayed_timeslot_dt s /\
  m_cont_mode_prio s' = m_cont_mode_prio s /\
  m_last_notified_prio s' = m_last_notified_prio s /\
  m_ntf_mutex s' = m_ntf_mutex s /\
  m_req_mutex s' = m_req_mutex s /\
  sched_time s' = sched_time s /\
  sched_is_running s' = sched_is_running s /\
  m_timer s' = m_timer s.
Proof. cbn zeta. repeat split; project_result. Qed.

Lemma all_prec_update_result_events (s : rsch) :
  exists evs,
    trace (all_prec_update_result s) = trace s ++ evs /\
    forallb is_collaborator_request evs = true /\
    (m_requested_prio (all_prec_update_result s) <> RSCH_PRIO_IDLE ->
     (nrf_802154_priority_drop_hfclk_stop ∉ evs) /\
     (nrf_raal_continuous_mode_exit ∉ evs)).
Proof.
  unfold all_prec_update_result, all_prec_update_section_result.
  destruct (m_req_mutex s =? 0).
  2:{ exists []. cbn. rewrite app_nil_r. repeat split; apply not_elem_of_nil. }
  destruct (m_requested_prio s =? required_prio_lvl_get s).
  1:{ exists []. cbn. rewrite app_nil_r. repeat split; apply not_elem_of_nil. }
  destruct (Z.eqb_spec (required_prio_lvl_get s) RSCH_PRIO_IDLE) as [Hi|Hb].
  - eexists. split; [reflexivity|]. split; [reflexivity|].
    cbn. intros. contradiction.
  - eexists. split; [reflexivity|]. split; [reflexivity|].
    intros _. split; intros Hin; repeat (apply elem_of_cons in Hin
      as [Hin|Hin]; [discriminate|]); now apply elem_of_nil in Hin.
Qed.

Lemma armed_same (s : rsch) (t : nrf_802154_timer_t) (round_up : bool) :
  armed (m_delayed_timeslot_prio s) (m_delayed_timeslot_t0 s)
    (m_delayed_timeslot_dt s) t round_up s =
  set_sched_is_running true
    (set_trace (trace s ++ [nrf_802154_timer_sched_add t round_up])
       (set_timer t s)).
Proof. now destruct s. Qed.

Lemma delayed_timeslot_prec_request_result (s : rsch) (fuel : nat) :
  array_ok s ->
  delayed_timeslot_prec_request (S fuel) s =
    Done tt
      (armed (m_delayed_timeslot_prio s) (m_delayed_timeslot_t0 s)
         (m_delayed_timeslot_dt s)
         (mk_timer (m_delayed_timeslot_t0 s) (m_delayed_timeslot_dt s)
            (Some cb_delayed_timeslot_start))
         true (all_prec_update_result s)).
Proof.
  intros Hok. unfold delayed_timeslot_prec_request, timer_sched_add.
  cbv beta iota delta [bind gets modify call].
  rewrite all_prec_update_total by exact Hok.
  destruct (all_prec_update_result_frame s)
    as (Hp & Ht0 & Hdt & _).
  rewrite <- Hp, <- Ht0, <- Hdt. rewrite armed_same. reflexivity.
Qed.

(** X8: the pre-request timer callback always queues the start timer for
    the recorded [t0 + dt], rounded up, whether or not it could take the
    request mutex; with the mutex it also brings the requested level to
    the required one, which is at least the delayed timeslot's priority
    once the activation window is open. *)
Theorem delayed_timeslot_prec_request_rearms (s : rsch) (fuel : nat) :
  array_ok s ->
  exists s',
    delayed_timeslot_prec_request (S fuel) s = Done tt s' /\
    m_timer s' =
      mk_timer (m_delayed_timeslot_t0 s) (m_delayed_timeslot_dt s)
        (Some cb_delayed_timeslot_start) /\
    sched_is_running s' = true /\
    last (trace s') = Some (nrf_802154_timer_sched_add (m_timer s') true) /\
    (m_req_mutex s <> 0 -> m_requested_prio s' = m_requested_prio s) /\
    (m_req_mutex s = 0 ->
     m_requested_prio s' = required_prio_lvl_get s /\
     (any_prec_should_be_requested_for_delayed_timeslot s = true ->
      m_delayed_timeslot_prio s <= m_requested_prio s')).
Proof.
  intros Hok. eexists.
  split; [now apply delayed_timeslot_prec_request_result|].
  split; [reflexivity|]. split; [reflexivity|].
  split; [cbn; now rewrite last_snoc|].
  cbn [m_requested_prio armed set_sched_is_running set_trace set_timer
       set_delayed_timeslot_dt set_delayed_timeslot_t0
       set_delayed_timeslot_prio].
  unfold all_prec_update_result. split.
  - intros Hheld. apply Z.eqb_neq in Hheld. now rewrite Hheld.
  - intros ->. cbn [Z.eqb].
    assert (Hreq : m_requested_prio (all_prec_update_section_result s) =
                   required_prio_lvl_get s).
    { unfold all_prec_update_section_result.
      destruct (Z.eqb_spec (m_requested_prio s) (required_prio_lvl_get s));
        [assumption|]. now case_match. }
    split; [exact Hreq|].
    intros Hopen. rewrite Hreq. unfold required_prio_lvl_get.
    rewrite Hopen.
    destruct (Z.ltb_spec (m_delayed_timeslot_prio s) (m_cont_mode_prio s));
      lia.
Qed.


Lemma delayed_timeslot_request_recorded (s : rsch) (t0 dt length prio : Z) :
  m_delayed_timeslot_prio s <> RSCH_PRIO_IDLE ->
  nrf_802154_rsch_delayed_timeslot_request t0 dt length prio s =
    Fault AssertionFailed.
Proof.
  intros Hrec. unfold nrf_802154_rsch_delayed_timeslot_request.
  run_monad. destruct (sched_is_running s); [reflexivity|].
  cbn [negb]. run_monad. apply Z.eqb_neq in Hrec. now rewrite Hrec.
Qed.


Lemma timer_fired_running (s : rsch) (fuel : nat) :
  sched_is_running s = true ->
  timer_fired fuel s =
    match timer_callback_fn (m_timer s) with
    | Some cb_delayed_timeslot_prec_request =>
        delayed_timeslot_prec_request fuel (set_sched_is_running false s)
    | Some cb_delayed_timeslot_start =>
        delayed_timeslot_start (set_sched_is_running false s)
    | None => Done tt (set_sched_is_running false s)
    end.
Proof.
  intros Hrun. unfold timer_fired. cbv beta iota delta [bind gets modify].
  rewrite Hrun. cbn [m_timer set_sched_is_running].
  now destruct (timer_callback_fn (m_timer s)) as [[]|].
Qed.

Lemma delayed_timeslot_start_result (s : rsch) :
  array_ok s ->
  delayed_timeslot_start s =
    Done tt
      (set_trace
         (trace s ++
          [if m_delayed_timeslot_prio s <=? approved_level s
           then nrf_802154_rsch_delayed_timeslot_started
           else nrf_802154_rsch_delayed_timeslot_failed])
         (set_delayed_timeslot_prio RSCH_PRIO_IDLE s)).
Proof.
  intros Hok. unfold delayed_timeslot_start. run_monad.
  rewrite (approved_prio_lvl_get_level
             (set_delayed_timeslot_prio RSCH_PRIO_IDLE s)) by exact Hok.
  change (approved_level (set_delayed_timeslot_prio RSCH_PRIO_IDLE s))
    with (approved_level s).
  now destruct (_ <=? _).
Qed.

(** X11: a delayed timeslot that was accepted ahead of its pre-request
    point runs its course in two timer callbacks, however much time passes
    in between: the first one may call the clock and the arbiter and queues
    the start timer, the second one reports exactly one verdict; afterwards
    no timeslot is recorded and the timer is idle, so the next request is
    not refused by an assertion. *)
Theorem delayed_timeslot_runs_its_course
    (s : rsch) (fuel : nat) (t0 dt length prio now1 now2 : Z) :
  array_ok s ->
  prio <> RSCH_PRIO_IDLE ->
  m_delayed_timeslot_prio s = RSCH_PRIO_IDLE ->
  sched_is_running s = false ->
  nrf_802154_timer_sched_time_is_in_future (sched_time s) t0
    (wrap32 (dt - PREC_RAMP_UP_TIME)) = true ->
  exists s' evs verdict,
    run_all (S fuel)
      [do_delayed_timeslot_request t0 dt length prio;
       do_time_passes now1; do_timer_fired;
       do_time_passes now2; do_timer_fired] s = Done tt s' /\
    trace s' =
      trace s ++
      [nrf_802154_timer_sched_add
         (mk_timer t0 (wrap32 (dt - PREC_RAMP_UP_TIME))
            (Some cb_delayed_timeslot_prec_request)) false] ++
      evs ++
      [nrf_802154_timer_sched_add
         (mk_timer t0 dt (Some cb_delayed_timeslot_start)) true;
       verdict] /\
    forallb is_collaborator_request evs = true /\
    (verdict = nrf_802154_rsch_delayed_timeslot_started \/
     verdict = nrf_802154_rsch_delayed_timeslot_failed) /\
    m_delayed_timeslot_prio s' = RSCH_PRIO_IDLE /\
    sched_is_running s' = false /\
    forall t0' dt' length' prio', prio' <> RSCH_PRIO_IDLE ->
      nrf_802154_rsch_delayed_timeslot_request t0' dt' length' prio' s' <>
        Fault AssertionFailed.
Proof.
  intros Hok Hprio Hidle Hstopped Hearly.
  set (t1 := mk_timer t0 (wrap32 (dt - PREC_RAMP_UP_TIME))
               (Some cb_delayed_timeslot_prec_request)).
  set (s1 := set_sched_is_running false
               (set_sched_time now1 (armed prio t0 dt t1 false s))).
  assert (Hok1 : array_ok s1) by exact Hok.
  destruct (all_prec_update_result_frame s1)
    as (Hp & Ht0 & Hdt & _ & _ & _ & _ & _ & Hrun & _).
  destruct (all_prec_update_result_events s1) as (evs & Htr & Hevs & _).
  pose proof (all_prec_update_result_array_ok s1 Hok1) as Hok2.
  set (s2 := all_prec_update_result s1) in *.
  set (t2 := mk_timer t0 dt (Some cb_delayed_timeslot_start)).
  set (s3 := set_sched_is_running false
               (set_sched_time now2 (armed prio t0 dt t2 true s2))).
  assert (Hok3 : array_ok s3) by exact Hok2.
  exists (set_trace
            (trace s3 ++
             [if m_delayed_timeslot_prio s3 <=? approved_level s3
              then nrf_802154_rsch_delayed_timeslot_started
              else nrf_802154_rsch_delayed_timeslot_failed])
            (set_delayed_timeslot_prio RSCH_PRIO_IDLE s3)).
  exists evs.
  exists (if m_delayed_timeslot_prio s3 <=? approved_level s3
          then nrf_802154_rsch_delayed_timeslot_started
          else nrf_802154_rsch_delayed_timeslot_failed).
  split.
  { cbn [run_all run]. cbv beta iota delta [bind ret modify].
    rewrite (delayed_timeslot_request_cases s t0 dt length prio)
      by assumption.
    rewrite Hearly. cbv beta iota.
    rewrite timer_fired_running by reflexivity.
    simpl (timer_callback_fn _). cbv beta iota.
    rewrite delayed_timeslot_prec_request_result by exact Hok1.
    cbv beta iota.
    rewrite timer_fired_running by reflexivity.
    simpl (timer_callback_fn _). cbv beta iota.
    rewrite delayed_timeslot_start_result by exact Hok3.
    reflexivity. }
  split.
  { cbn [trace set_trace set_delayed_timeslot_prio].
    change (trace s3)
      with (trace s2 ++ [nrf_802154_timer_sched_add t2 true]).
    rewrite Htr.
    change (trace s1)
      with (trace s ++ [nrf_802154_timer_sched_add t1 false]).
    rewrite <- !app_assoc. reflexivity. }
  split; [exact Hevs|].
  split; [destruct (_ <=? _); [now left|now right]|].
  split; [reflexivity|]. split; [reflexivity|].
  intros t0' dt' length' prio' Hprio'.
  rewrite delayed_timeslot_request_cases
    by (assumption || reflexivity).
  now repeat case_match.
Qed.

(** *** Leaving continuous mode *)

Lemma notify_core_result_inactive (s : rsch) :
  m_cont_mode_prio s <= RSCH_PRIO_IDLE ->
  trace (notify_core_result s) = trace s /\
  m_requested_prio (notify_core_result s) = m_requested_prio s /\
  m_approved_prios (notify_core_result s) = m_approved_prios s /\
  m_cont_mode_prio (notify_core_result s) = m_cont_mode_prio s.
Proof.
  intros Hina. apply Z.ltb_ge in Hina.
  unfold notify_core_result, notify_core_section_result. rewrite Hina.
  cbn [andb]. now destruct (_ =? _).
Qed.

Lemma continuous_mode_exit_result (s : rsch) :
  let s0 := set_cont_mode_prio RSCH_PRIO_IDLE s in
  let s' := continuous_mode_priority_set_result RSCH_PRIO_IDLE s in
  trace s' = trace (all_prec_update_result s0) /\
  m_requested_prio s' = m_requested_prio (all_prec_update_result s0) /\
  m_approved_prios s' = m_approved_prios (all_prec_update_result s0) /\
  m_cont_mode_prio s' = RSCH_PRIO_IDLE /\
  m_last_notified_prio s' = RSCH_PRIO_IDLE.
Proof.
  cbn zeta. unfold continuous_mode_priority_set_result.
  rewrite Z.eqb_refl.
  set (s0 := set_cont_mode_prio RSCH_PRIO_IDLE s).
  destruct (all_prec_update_result_frame s0) as (_ & _ & _ & Hc & _).
  change (m_cont_mode_prio s0) with RSCH_PRIO_IDLE in Hc.
  destruct (notify_core_result_inactive (all_prec_update_result s0))
    as (Htr & Hrq & Hap & Hcm); [lia|].
  cbn [trace m_requested_prio m_approved_prios m_cont_mode_prio
       m_last_notified_prio set_last_notified_prio].
  rewrite Htr, Hrq, Hap, Hcm, Hc. now repeat split.
Qed.

(** X12: setting the continuous-mode priority to idle never calls the
    driver core's priority-changed callback, whatever was approved and
    whatever was notified before: the only calls it can make go to the
    clock and the arbiter.  Afterwards continuous mode is off and the last
    notified level is idle. *)
Theorem continuous_mode_exit_is_silent (s : rsch) (fuel : nat) :
  array_ok s ->
  exists s',
    nrf_802154_rsch_continuous_mode_priority_set (S fuel) RSCH_PRIO_IDLE s =
      Done tt s' /\
    forallb is_collaborator_request (new_events s s') = true /\
    filter is_prio_changed (new_events s s') = [] /\
    m_cont_mode_prio s' = RSCH_PRIO_IDLE /\
    m_last_notified_prio s' = RSCH_PRIO_IDLE.
Proof.
  intros Hok. eexists.
  split; [now apply continuous_mode_priority_set_total|].
  destruct (continuous_mode_exit_result s) as (Htr & _ & _ & Hc & Hl).
  destruct (all_prec_update_result_events
              (set_cont_mode_prio RSCH_PRIO_IDLE s))
    as (evs & Hevs & Hcollab & _).
  unfold new_events. rewrite Htr, Hevs.
  change (trace (set_cont_mode_prio RSCH_PRIO_IDLE s)) with (trace s).
  rewrite drop_app_length.
  split; [exact Hcollab|]. split; [|now split].
  clear Hevs. induction evs as [|e evs IH]; [reflexivity|].
  cbn in Hcollab. apply andb_prop in Hcollab as [He Hrest].
  rewrite filter_cons. destruct e; try discriminate; cbn; now apply IH.
Qed.

(** X13: once the activation window of a delayed timeslot is open, leaving
    continuous mode does not release the preconditions: the requested level
    becomes the delayed timeslot's priority, the clock is not asked to stop,
    the arbiter's continuous mode is not left and the approvals stay. *)
Theorem delayed_timeslot_holds_preconditions (s : rsch) (fuel : nat) :
  array_ok s ->
  m_req_mutex s = 0 ->
  any_prec_should_be_requested_for_delayed_timeslot s = true ->
  exists s',
    nrf_802154_rsch_continuous_mode_priority_set (S fuel) RSCH_PRIO_IDLE s =
      Done tt s' /\
    m_requested_prio s' = m_delayed_timeslot_prio s /\
    RSCH_PRIO_IDLE < m_requested_prio s' /\
    (nrf_802154_priority_drop_hfclk_stop ∉ new_events s s') /\
    (nrf_raal_continuous_mode_exit ∉ new_events s s') /\
    m_approved_prios s' = m_approved_prios s.
Proof.
  intros Hok Hfree Hopen. eexists.
  split; [now apply continuous_mode_priority_set_total|].
  destruct (continuous_mode_exit_result s) as (Htr & Hrq & Hap & _ & _).
  set (s0 := set_cont_mode_prio RSCH_PRIO_IDLE s) in *.
  assert (Hprio : RSCH_PRIO_IDLE < m_delayed_timeslot_prio s).
  { unfold any_prec_should_be_requested_for_delayed_timeslot in Hopen.
    apply andb_prop in Hopen as [H _]. now apply Z.ltb_lt in H. }
  assert (Hreq0 : required_prio_lvl_get s0 = m_delayed_timeslot_prio s).
  { unfold required_prio_lvl_get.
    change (any_prec_should_be_requested_for_delayed_timeslot s0)
      with (any_prec_should_be_requested_for_delayed_timeslot s).
    rewrite Hopen. cbn [m_cont_mode_prio s0 set_cont_mode_prio
                        m_delayed_timeslot_prio].
    destruct (Z.ltb_spec (m_delayed_timeslot_prio s) RSCH_PRIO_IDLE);
      [lia|reflexivity]. }
  assert (Hres : m_requested_prio (all_prec_update_result s0) =
                 m_delayed_timeslot_prio s /\
                 m_approved_prios (all_prec_update_result s0) =
                 m_approved_prios s).
  { unfold all_prec_update_result, all_prec_update_section_result.
    change (m_req_mutex s0) with (m_req_mutex s). rewrite Hfree.
    cbn [Z.eqb]. rewrite Hreq0.
    destruct (Z.eqb_spec (m_requested_prio s0) (m_delayed_timeslot_prio s));
      [now split|].
    destruct (Z.eqb_spec (m_delayed_timeslot_prio s) RSCH_PRIO_IDLE);
      [lia|now split]. }
  destruct Hres as [Hres Harr].
  destruct (all_prec_update_result_events s0) as (evs & Hevs & _ & Hkeep).
  rewrite Hrq, Hap, Hres, Harr.
  split; [reflexivity|]. split; [exact Hprio|].
  unfold new_events. rewrite Htr, Hevs.
  change (trace s0) with (trace s). rewrite drop_app_length.
  destruct Hkeep as [Hstop Hexit]; [rewrite Hres; lia|].
  now repeat split.
Qed.

Lemma continuous_mode_priority_set_result_delayed (s : rsch) (prio : Z) :
  m_delayed_timeslot_prio (continuous_mode_priority_set_result prio s) =
  m_delayed_timeslot_prio s.
Proof.
  unfold continuous_mode_priority_set_result.
  destruct (all_prec_update_result_frame (set_cont_mode_prio prio s))
    as (Hp & _).
  assert (H : m_delayed_timeslot_prio
                (notify_core_result
                   (all_prec_update_result (set_cont_mode_prio prio s))) =
              m_delayed_timeslot_prio s).
  { transitivity (m_delayed_timeslot_prio
                    (all_prec_update_result (set_cont_mode_prio prio s)));
      [project_result|exact Hp]. }
  now case_match.
Qed.

(** X14: with no delayed timeslot recorded, repeating
    [nrf_802154_rsch_continuous_mode_priority_set] with the same priority
    calls nobody and leaves the requested level alone however much later
    the second call comes. *)
Theorem continuous_mode_priority_set_idempotent_over_time
    (s : rsch) (fuel1 fuel2 : nat) (prio now' : Z) :
  array_ok s ->
  m_delayed_timeslot_prio s <= RSCH_PRIO_IDLE ->
  exists s1 s2,
    nrf_802154_rsch_continuous_mode_priority_set (S fuel1) prio s =
      Done tt s1 /\
    nrf_802154_rsch_continuous_mode_priority_set (S fuel2) prio
      (set_sched_time now' s1) = Done tt s2 /\
    trace s2 = trace s1 /\
    m_requested_prio s2 = m_requested_prio s1.
Proof.
  intros Hok Hnone.
  exists (continuous_mode_priority_set_result prio s).
  eexists.
  split; [now apply continuous_mode_priority_set_total|].
  split.
  { apply continuous_mode_priority_set_total.
    now apply continuous_mode_priority_set_result_array_ok. }
  apply continuous_mode_priority_set_later.
  unfold any_prec_should_be_requested_for_delayed_timeslot.
  cbn [m_delayed_timeslot_prio set_sched_time].
  rewrite continuous_mode_priority_set_result_delayed.
  apply Z.ltb_ge in Hnone. now rewrite Hnone.
Qed.

(** *** Initialisation *)

Lemma nrf_802154_rsch_init_frame (s : rsch) :
  array_ok s ->
  exists s',
    nrf_802154_rsch_init s = Done tt s' /\
    trace s' = trace s ++ [nrf_raal_init] /\
    sched_is_running s' = sched_is_running s /\
    m_timer s' = m_timer s /\
    sched_time s' = sched_time s.
Proof.
  intros Hok. unfold array_ok in Hok.
  destruct s as [? ? ? ? ? arr ? ? ? ? ? ? ? ? ?]. cbn in Hok.
  destruct arr as [|a [|b [|c arr]]]; try discriminate.
  eexists. split; [vm_compute; reflexivity|]. cbn. now repeat split.
Qed.

(** X15: [nrf_802154_rsch_init] calls the arbiter's initialisation and
    nothing else, and leaves the module idle: no level is required, the
    approved level is idle, and the request driver and the notifier find
    nothing to do.  It does not touch the timer: a start or pre-request
    timer that is queued stays queued. *)
Theorem init_establishes_idle (s : rsch) (fuel : nat) :
  array_ok s ->
  exists s',
    nrf_802154_rsch_init s = Done tt s' /\
    new_events s s' = [nrf_raal_init] /\
    required_prio_lvl_get s' = RSCH_PRIO_IDLE /\
    (RSCH_PRIO_IDLE <= RSCH_PRIO_MAX ->
     approved_prio_lvl_get s' = Done RSCH_PRIO_IDLE s') /\
    all_prec_update (S fuel) s' = Done tt s' /\
    notify_core (S fuel) s' = Done tt s' /\
    sched_is_running s' = sched_is_running s /\
    m_timer s' = m_timer s.
Proof.
  intros Hok.
  destruct (nrf_802154_rsch_init_state s Hok)
    as (s' & Hinit & Harr & Hreq & Hcont & Hdel & Hlast & Hntf & Hrm).
  destruct (nrf_802154_rsch_init_frame s Hok)
    as (s'' & Hinit' & Htr & Hrun & Htimer & _).
  rewrite Hinit in Hinit'. injection Hinit' as <-.
  assert (Hok' : array_ok s') by (unfold array_ok; now rewrite Harr).
  assert (Hrequired : required_prio_lvl_get s' = RSCH_PRIO_IDLE).
  { unfold required_prio_lvl_get,
      any_prec_should_be_requested_for_delayed_timeslot.
    rewrite Hdel, Hcont, Z.ltb_irrefl. cbn [andb].
    now rewrite Z.ltb_irrefl. }
  exists s'. split; [exact Hinit|].
  split; [unfold new_events; rewrite Htr; now rewrite drop_app_length|].
  split; [exact Hrequired|]. split.
  { intros Hscale. rewrite approved_prio_lvl_get_level by exact Hok'.
    f_equal. apply all_idle_approved_level; [exact Hok'|exact Hscale|].
    rewrite Harr. repeat constructor. }
  split.
  { rewrite all_prec_update_free by assumption.
    unfold all_prec_update_section_result.
    now rewrite Hrequired, Hreq, Z.eqb_refl. }
  split; [|now split].
  rewrite notify_core_free by assumption.
  unfold notify_core_section_result. now rewrite Hcont, Z.ltb_irrefl.
Qed.

End MoreProperties.

(** ** The FSM hooks *)

Section HookProperties.

Context {MF : MacFeatures}.

Lemma hooks_until_refusal_null {H : Type} (invoke : H -> mac -> bool * mac)
    (hooks rest : list (option H)) (result : bool) (m : mac) :
  hooks_until_refusal invoke (hooks ++ None :: rest) result m =
  hooks_until_refusal invoke hooks result m.
Proof.
  revert result m. induction hooks as [|[hook|] hooks IH]; intros result m;
    cbn [hooks_until_refusal app]; try reflexivity.
  destruct (invoke hook m) as [r m']. destruct r; cbn [negb]; [apply IH|].
  reflexivity.
Qed.

Lemma transmitted_hooks_loop_null (hooks rest : list (option transmitted_hook))
    (p_frame : list Z) (m : mac) :
  transmitted_hooks_loop (hooks ++ None :: rest) p_frame m =
  transmitted_hooks_loop hooks p_frame m.
Proof.
  revert m. induction hooks as [|[hook|] hooks IH]; intros m;
    cbn [transmitted_hooks_loop app]; try reflexivity. apply IH.
Qed.

Lemma null_padding_harmless {H : Type} (invoke : H -> mac -> bool * mac)
    (hooks : list (option H)) (result : bool) (m : mac) :
  hooks_until_refusal invoke (hooks ++ null_padding) result m =
  hooks_until_refusal invoke hooks result m.
Proof.
  unfold null_padding. destruct GNUC.
  - now rewrite app_nil_r.
  - apply hooks_until_refusal_null.
Qed.

Lemma hooks_until_refusal_two {H : Type} (invoke : H -> mac -> bool * mac)
    (csma_ca ack_timeout : H) (m : mac) :
  hooks_until_refusal invoke
    ((if NRF_DRV_RADIO802154_CSMA_CA_ENABLED then [Some csma_ca] else []) ++
     (if NRF_DRV_RADIO802154_ACK_TIMEOUT_ENABLED
      then [Some ack_timeout] else []) ++ null_padding) true m =
  csma_ca_then_ack_timeout (invoke csma_ca) (invoke ack_timeout) m.
Proof.
  rewrite app_assoc, null_padding_harmless.
  unfold csma_ca_then_ack_timeout.
  destruct NRF_DRV_RADIO802154_CSMA_CA_ENABLED,
    NRF_DRV_RADIO802154_ACK_TIMEOUT_ENABLED; cbn [app hooks_until_refusal].
  - destruct (invoke csma_ca m) as [[] m1]; cbn [negb]; [|reflexivity].
    now destruct (invoke ack_timeout m1) as [[] m2].
  - now destruct (invoke csma_ca m) as [[] m1].
  - now destruct (invoke ack_timeout m) as [[] m2].
  - reflexivity.
Qed.

(** X16: [nrf_drv_radio802154_fsm_hooks_terminate] asks the CSMA-CA
    feature first and the ACK-timeout feature second, each only if it is
    enabled; a refusal by the first ends the walk, so that the second is
    not asked at all; the answer is true only if nobody refused.  The null
    entry that pads the table for compilers other than GCC changes
    nothing. *)
Theorem fsm_hooks_terminate_first_refusal (term_lvl : Z) (m : mac) :
  nrf_drv_radio802154_fsm_hooks_terminate term_lvl m =
    csma_ca_then_ack_timeout
      (nrf_drv_radio802154_csma_ca_abort term_lvl)
      (nrf_drv_radio802154_ack_timeout_abort term_lvl) m /\
  (NRF_DRV_RADIO802154_CSMA_CA_ENABLED = true ->
   forall m1, nrf_drv_radio802154_csma_ca_abort term_lvl m = (false, m1) ->
   nrf_drv_radio802154_fsm_hooks_terminate term_lvl m = (false, m1)) /\
  (NRF_DRV_RADIO802154_CSMA_CA_ENABLED = false ->
   NRF_DRV_RADIO802154_ACK_TIMEOUT_ENABLED = false ->
   nrf_drv_radio802154_fsm_hooks_terminate term_lvl m = (true, m)).
Proof.
  assert (Hform : nrf_drv_radio802154_fsm_hooks_terminate term_lvl m =
    csma_ca_then_ack_timeout
      (nrf_drv_radio802154_csma_ca_abort term_lvl)
      (nrf_drv_radio802154_ack_timeout_abort term_lvl) m).
  { unfold nrf_drv_radio802154_fsm_hooks_terminate, m_abort_hooks.
    apply (hooks_until_refusal_two (fun hook => hook term_lvl)). }
  split; [exact Hform|]. rewrite Hform. unfold csma_ca_then_ack_timeout.
  split.
  - intros -> m1 ->. reflexivity.
  - intros -> ->. reflexivity.
Qed.

(** X17: [nrf_drv_radio802154_fsm_hooks_tx_failed] and
    [nrf_drv_radio802154_fsm_hooks_tx_started] walk their tables the same
    way: CSMA-CA before ACK timeout, enabled features only, stopping at the
    first hook that answers false, whose answer and state they return. *)
Theorem fsm_hooks_tx_first_refusal (p_frame : list Z) (error : Z) (m : mac) :
  nrf_drv_radio802154_fsm_hooks_tx_failed p_frame error m =
    csma_ca_then_ack_timeout
      (nrf_drv_radio802154_csma_ca_tx_failed_hook p_frame error)
      (nrf_drv_radio802154_ack_timeout_tx_failed_hook p_frame error) m /\
  nrf_drv_radio802154_fsm_hooks_tx_started p_frame m =
    csma_ca_then_ack_timeout
      (nrf_drv_radio802154_csma_ca_tx_started_hook p_frame)
      (nrf_drv_radio802154_ack_timeout_tx_started_hook p_frame) m.
Proof.
  split.
  - unfold nrf_drv_radio802154_fsm_hooks_tx_failed, m_tx_failed_hooks.
    apply (hooks_until_refusal_two (fun hook => hook p_frame error)).
  - unfold nrf_drv_radio802154_fsm_hooks_tx_started, m_tx_started_hooks.
    apply (hooks_until_refusal_two (fun hook => hook p_frame)).
Qed.

(** X18: [nrf_drv_radio802154_fsm_hooks_transmitted] runs the ACK-timeout
    hook, once, when that feature is enabled, and does nothing otherwise;
    the CSMA-CA feature has no say in it, and neither has the compiler. *)
Theorem fsm_hooks_transmitted_ack_timeout_only (p_frame : list Z) (m : mac) :
  nrf_drv_radio802154_fsm_hooks_transmitted p_frame m =
    if NRF_DRV_RADIO802154_ACK_TIMEOUT_ENABLED
    then nrf_drv_radio802154_ack_timeout_transmitted_hook p_frame m
    else m.
Proof.
  unfold nrf_drv_radio802154_fsm_hooks_transmitted, m_transmitted_hooks,
    null_padding.
  destruct GNUC.
  - rewrite app_nil_r.
    now destruct NRF_DRV_RADIO802154_ACK_TIMEOUT_ENABLED.
  - rewrite transmitted_hooks_loop_null.
    now destruct NRF_DRV_RADIO802154_ACK_TIMEOUT_ENABLED.
Qed.

End HookProperties.

(** ** The further theorems at concrete inputs *)

Lemma all_prec_update_held_wraps_witness :
  m_req_mutex (set_req_mutex 1 (initialised 0)) <> 0 /\
  repeat_m 3 (all_prec_update 1) (set_req_mutex 1 (initialised 0)) =
    Done tt (set_req_mutex_monitor 3 (set_req_mutex 1 (initialised 0))) /\
  repeat_m 256 (all_prec_update 1) (set_req_mutex 1 (initialised 0)) =
    Done tt (set_req_mutex 1 (initialised 0)).
Proof.
  assert (Hheld : m_req_mutex (set_req_mutex 1 (initialised 0)) <> 0)
    by (cbn; lia).
  split; [exact Hheld|].
  apply (all_prec_update_held_wraps (set_req_mutex 1 (initialised 0)) 0 3);
    [exact Hheld|cbn; lia|lia].
Defined.

Lemma prec_approved_prio_set_twice_witness :
  m_requested_prio (listening [1; 0]) <> RSCH_PRIO_IDLE /\
  (prec_approved_prio_set RSCH_PREC_RAAL 1 ;;;
   prec_approved_prio_set RSCH_PREC_RAAL 1) (listening [1; 0]) =
    Fault AssertionFailed.
Proof.
  assert (Hreq : m_requested_prio (listening [1; 0]) <> RSCH_PRIO_IDLE)
    by (cbn; lia).
  split; [exact Hreq|].
  destruct (prec_approved_prio_set_twice (listening [1; 0]) RSCH_PREC_RAAL
              1 0) as [_ Hother];
    [cbv; lia|reflexivity|exact Hreq|cbn; lia|].
  apply Hother. lia.
Defined.

Lemma prec_is_approved_all_iff_level_witness :
  array_ok (listening [1; 0]) /\ 1 <= RSCH_PRIO_MAX /\
  exists level hfclk raal,
    approved_prio_lvl_get (listening [1; 0]) = Done level (listening [1; 0]) /\
    nrf_802154_rsch_prec_is_approved RSCH_PREC_HFCLK 1 (listening [1; 0]) =
      Done hfclk (listening [1; 0]) /\
    nrf_802154_rsch_prec_is_approved RSCH_PREC_RAAL 1 (listening [1; 0]) =
      Done raal (listening [1; 0]) /\
    (1 <= level <-> hfclk = true /\ raal = true).
Proof.
  split; [reflexivity|]. split; [cbn; lia|].
  destruct (prec_is_approved_all_iff_level (listening [1; 0]) 1 eq_refl)
    as (level & hfclk & raal & Hl & Hh & Hr & Hiff & _); [cbn; lia|].
  exists level, hfclk, raal.
  split; [exact Hl|]. split; [exact Hh|]. split; [exact Hr|exact Hiff].
Defined.

Lemma reachable_idle_means_unapproved_witness :
  reachable (initialised 0) /\
  m_req_mutex (initialised 0) = 0 /\ m_ntf_mutex (initialised 0) = 0 /\
  Forall (fun p => p = RSCH_PRIO_IDLE) (m_approved_prios (initialised 0)).
Proof.
  assert (Hreach : reachable (initialised 0)).
  { apply (reachable_init 0). vm_compute. reflexivity. }
  split; [exact Hreach|].
  destruct (reachable_idle_means_unapproved (initialised 0) Hreach)
    as (Hreq & Hntf & Hidle).
  split; [exact Hreq|]. split; [exact Hntf|].
  exact (proj1 (Hidle eq_refl)).
Defined.

Lemma stale_grant_has_no_effect_witness :
  array_ok (initialised 0) /\ m_requested_prio (initialised 0) = 0 /\
  nrf_802154_clock_hfclk_ready 1 (initialised 0) = Done tt (initialised 0) /\
  nrf_raal_timeslot_started 1 (set_ntf_mutex 1 (initialised 0)) =
    Done tt (set_ntf_mutex_monitor 1 (set_ntf_mutex 1 (initialised 0))).
Proof.
  split; [reflexivity|]. split; [reflexivity|].
  destruct (stale_grant_has_no_effect (initialised 0) 0)
    as [Hfree _]; [reflexivity|cbn; lia|reflexivity|cbn; lia|].
  destruct (stale_grant_has_no_effect (set_ntf_mutex 1 (initialised 0)) 0)
    as [_ Hheld]; [reflexivity|cbn; lia|reflexivity|cbn; lia|].
  split.
  - apply Hfree. reflexivity.
  - apply Hheld. cbn. lia.
Defined.

Lemma timeslot_ended_revokes_witness :
  levels_ok (set_last_notified_prio 1 (listening [1; 1])) /\
  exists s',
    nrf_raal_timeslot_ended 1 (set_last_notified_prio 1 (listening [1; 1])) =
      Done tt s' /\
    approved_prio_lvl_get s' = Done 0 s' /\
    new_events (set_last_notified_prio 1 (listening [1; 1])) s' =
      [nrf_802154_rsch_continuous_prio_changed 0].
Proof.
  assert (Hlv : levels_ok (set_last_notified_prio 1 (listening [1; 1]))).
  { split; [reflexivity|]. cbn. repeat constructor; now right. }
  split; [exact Hlv|].
  destruct (timeslot_ended_revokes _ 0 Hlv eq_refl)
    as (s' & Hrun & _ & Hlevel & Hact & _); [cbn; lia|].
  exists s'. split; [exact Hrun|]. split; [exact Hlevel|].
  destruct Hact as [_ Hev]; [cbn; lia|]. exact Hev.
Defined.

Lemma grants_commute_witness :
  m_requested_prio (listening [0; 0]) <> RSCH_PRIO_IDLE /\
  exists s1 s2 s',
    nrf_802154_clock_hfclk_ready 1 (listening [0; 0]) = Done tt s1 /\
    nrf_raal_timeslot_started 1 (listening [0; 0]) = Done tt s2 /\
    nrf_raal_timeslot_started 1 s1 = Done tt s' /\
    nrf_802154_clock_hfclk_ready 1 s2 = Done tt s' /\
    trace s' = trace (listening [0; 0]) ++
               [nrf_802154_rsch_continuous_prio_changed 1].
Proof.
  assert (Hreq : m_requested_prio (listening [0; 0]) <> RSCH_PRIO_IDLE)
    by (cbn; lia).
  split; [exact Hreq|].
  destruct (grants_commute (listening [0; 0]) 0)
    as (s1 & s2 & s' & H1 & _ & H2 & _ & H3 & H4 & Htr & _);
    [reflexivity|reflexivity|cbn; lia|exact Hreq|cbn; lia|reflexivity|].
  exists s1, s2, s'.
  split; [exact H1|]. split; [exact H2|]. split; [exact H3|].
  split; [exact H4|exact Htr].
Defined.

Lemma delayed_timeslot_prec_request_rearms_witness :
  array_ok (set_sched_time 1200 (pending 100)) /\
  exists s',
    delayed_timeslot_prec_request 1 (set_sched_time 1200 (pending 100)) =
      Done tt s' /\
    m_timer s' = mk_timer 1000 500 (Some cb_delayed_timeslot_start) /\
    m_requested_prio s' = 1.
Proof.
  split; [reflexivity|].
  destruct (delayed_timeslot_prec_request_rearms
              (set_sched_time 1200 (pending 100)) 0 eq_refl)
    as (s' & Hrun & Htimer & _ & _ & _ & Hfree).
  exists s'. split; [exact Hrun|]. split; [exact Htimer|].
  destruct (Hfree eq_refl) as [Hreq _]. rewrite Hreq.
  vm_compute. reflexivity.
Defined.


Lemma delayed_timeslot_runs_its_course_witness :
  array_ok (initialised 100) /\
  exists s' evs verdict,
    run_all 1
      [do_delayed_timeslot_request 1000 500 200 1;
       do_time_passes 1200; do_timer_fired;
       do_time_passes 1500; do_timer_fired] (initialised 100) = Done tt s' /\
    trace s' =
      trace (initialised 100) ++
      [nrf_802154_timer_sched_add
         (mk_timer 1000 (wrap32 (500 - PREC_RAMP_UP_TIME))
            (Some cb_delayed_timeslot_prec_request)) false] ++
      evs ++
      [nrf_802154_timer_sched_add
         (mk_timer 1000 500 (Some cb_delayed_timeslot_start)) true;
       verdict] /\
    m_delayed_timeslot_prio s' = RSCH_PRIO_IDLE /\
    sched_is_running s' = false.
Proof.
  split; [reflexivity|].
  destruct (delayed_timeslot_runs_its_course (initialised 100) 0
              1000 500 200 1 1200 1500)
    as (s' & evs & verdict & Hrun & Htr & _ & _ & Hidle & Hstop & _);
    [reflexivity|cbn; lia|reflexivity|reflexivity|vm_compute; reflexivity|].
  exists s', evs, verdict.
  split; [exact Hrun|]. split; [exact Htr|]. split; [exact Hidle|exact Hstop].
Defined.

Lemma continuous_mode_exit_is_silent_witness :
  array_ok (listening [1; 1]) /\
  exists s',
    nrf_802154_rsch_continuous_mode_priority_set 1 RSCH_PRIO_IDLE
      (listening [1; 1]) = Done tt s' /\
    filter is_prio_changed (new_events (listening [1; 1]) s') = [] /\
    m_last_notified_prio s' = RSCH_PRIO_IDLE.
Proof.
  split; [reflexivity|].
  destruct (continuous_mode_exit_is_silent (listening [1; 1]) 0 eq_refl)
    as (s' & Hrun & _ & Hsilent & _ & Hlast).
  exists s'. split; [exact Hrun|]. split; [exact Hsilent|exact Hlast].
Defined.

Lemma delayed_timeslot_holds_preconditions_witness :
  any_prec_should_be_requested_for_delayed_timeslot (pending 1195) = true /\
  exists s',
    nrf_802154_rsch_continuous_mode_priority_set 1 RSCH_PRIO_IDLE
      (pending 1195) = Done tt s' /\
    m_requested_prio s' = 1 /\
    (nrf_802154_priority_drop_hfclk_stop ∉ new_events (pending 1195) s') /\
    (nrf_raal_continuous_mode_exit ∉ new_events (pending 1195) s').
Proof.
  assert (Hopen :
    any_prec_should_be_requested_for_delayed_timeslot (pending 1195) = true)
    by (vm_compute; reflexivity).
  split; [exact Hopen|].
  destruct (delayed_timeslot_holds_preconditions (pending 1195) 0
              eq_refl eq_refl Hopen)
    as (s' & Hrun & Hreq & _ & Hstop & Hexit & _).
  exists s'. split; [exact Hrun|]. split; [exact Hreq|].
  split; [exact Hstop|exact Hexit].
Defined.

Lemma continuous_mode_priority_set_idempotent_over_time_witness :
  array_ok (initialised 0) /\
  m_delayed_timeslot_prio (initialised 0) <= RSCH_PRIO_IDLE /\
  exists s1 s2,
    nrf_802154_rsch_continuous_mode_priority_set 1 1 (initialised 0) =
      Done tt s1 /\
    nrf_802154_rsch_continuous_mode_priority_set 1 1
      (set_sched_time 5000 s1) = Done tt s2 /\
    trace s2 = trace s1 /\
    m_requested_prio s2 = m_requested_prio s1.
Proof.
  split; [reflexivity|]. split; [cbn; lia|].
  apply (continuous_mode_priority_set_idempotent_over_time
           (initialised 0) 0 0 1 5000); [reflexivity|cbn; lia].
Defined.

Lemma init_establishes_idle_witness :
  array_ok (pending 100) /\
  exists s',
    nrf_802154_rsch_init (pending 100) = Done tt s' /\
    required_prio_lvl_get s' = RSCH_PRIO_IDLE /\
    all_prec_update 1 s' = Done tt s' /\
    sched_is_running s' = true.
Proof.
  split; [reflexivity|].
  destruct (init_establishes_idle (pending 100) 0 eq_refl)
    as (s' & Hrun & _ & Hreq & _ & Hupd & _ & Hrunning & _).
  exists s'. split; [exact Hrun|]. split; [exact Hreq|].
  split; [exact Hupd|exact Hrunning].
Defined.

Lemma fsm_hooks_terminate_first_refusal_witness :
  @nrf_drv_radio802154_fsm_hooks_terminate
    (logging_features true true false false) 0 [] = (false, [1]) /\
  @nrf_drv_radio802154_fsm_hooks_terminate
    (logging_features false false false false) 0 [] = (true, []).
Proof.
  destruct (@fsm_hooks_terminate_first_refusal
              (logging_features true true false false) 0 [])
    as (_ & Hrefuse & _).
  destruct (@fsm_hooks_terminate_first_refusal
              (logging_features false false false false) 0 [])
    as (_ & _ & Hnone).
  split.
  - apply Hrefuse; reflexivity.
  - apply Hnone; reflexivity.
Defined.

(** ** Reports to the driver core over a run *)

Section Sessions.

Context {PS : PrioScale} {TS : TimerSched}.

Ltac run_monad :=
  cbv beta iota delta [bind ret gets modify call assert raise
                         approved_read approved_write].

Lemma reported_levels_app (tr tr' : list event) :
  reported_levels (tr ++ tr') = reported_levels tr ++ reported_levels tr'.
Proof. apply flat_map_app. Qed.

Lemma reported_levels_quiet (evs : list event) :
  forallb (fun e => negb (is_prio_changed e)) evs = true ->
  reported_levels evs = [].
Proof.
  induction evs as [|e evs IH]; [reflexivity|].
  cbn [forallb]. intros H. apply andb_prop in H as [He Hrest].
  cbn [reported_levels flat_map]. fold (reported_levels evs).
  rewrite (IH Hrest). now destruct e.
Qed.

Lemma collaborator_requests_quiet (evs : list event) :
  forallb is_collaborator_request evs = true ->
  forallb (fun e => negb (is_prio_changed e)) evs = true.
Proof.
  induction evs as [|e evs IH]; [reflexivity|].
  cbn [forallb]. intros H. apply andb_prop in H as [He Hrest].
  rewrite (IH Hrest), andb_true_r. now destruct e.
Qed.

Lemma no_repeat_snoc (l : list Z) (a : Z) :
  no_repeat l -> (forall p, last l = Some p -> p <> a) ->
  no_repeat (l ++ [a]).
Proof.
  induction l as [|b l IH]; intros Hnr Hlast; [now cbn|].
  destruct l as [|c l].
  - cbn. split; [|now split]. apply Hlast. reflexivity.
  - destruct Hnr as [Hbc Hnr]. split; [exact Hbc|].
    apply IH; [exact Hnr|]. intros p Hp. apply Hlast. exact Hp.
Qed.

Lemma reports_ok_quiet (s s' : rsch) (evs : list event) :
  trace s' = trace s ++ evs ->
  forallb (fun e => negb (is_prio_changed e)) evs = true ->
  m_last_notified_prio s' = m_last_notified_prio s ->
  reports_ok s -> reports_ok s'.
Proof.
  intros Htr Hquiet Hlast [Hnr Hk]. unfold reports_ok.
  rewrite Htr, reported_levels_app, (reported_levels_quiet evs Hquiet),
    app_nil_r, Hlast.
  now split.
Qed.

Lemma hoare_session_frame (f : rsch -> rsch) :
  (forall s, m_approved_prios (f s) = m_approved_prios s) ->
  (forall s, m_last_notified_prio (f s) = m_last_notified_prio s) ->
  (forall s, trace (f s) = trace s) ->
  hoare session_ok (modify f) session_ok.
Proof.
  intros Ha Hl Ht. apply hoare_modify. intros s [[Hok Hlv] Hrep]. split.
  - unfold levels_ok, array_ok. now rewrite Ha.
  - apply (reports_ok_quiet s (f s) []); auto. now rewrite app_nil_r.
Qed.

Lemma hoare_session_call (e : event) :
  is_prio_changed e = false -> hoare session_ok (call e) session_ok.
Proof.
  intros He. apply hoare_modify. intros s [Hlv Hrep]. split; [exact Hlv|].
  apply (reports_ok_quiet s _ [e]); auto. cbn. now rewrite He.
Qed.

(** A computation that keeps the array well formed and neither reports nor
    touches the last notified level keeps the invariant. *)
Lemma hoare_session_quiet {A} (m : M A) :
  hoare levels_ok m levels_ok ->
  (forall s a s', levels_ok s -> m s = Done a s' ->
     m_last_notified_prio s' = m_last_notified_prio s /\
     exists evs, trace s' = trace s ++ evs /\
                 forallb (fun e => negb (is_prio_changed e)) evs = true) ->
  hoare session_ok m session_ok.
Proof.
  intros Hlevels Hquiet s [Hlv Hrep].
  specialize (Hlevels s Hlv). specialize (Hquiet s).
  destruct (m s) as [a s'|[]|]; try exact I; try exact Hlevels.
  destruct (Hquiet a s' Hlv eq_refl) as (Hlast & evs & Htr & Hevs).
  split; [exact Hlevels|]. now apply (reports_ok_quiet s s' evs).
Qed.

Lemma hoare_session_prec_approved_prio_set (prec : nat) (prio : Z) :
  (prec < RSCH_PREC_CNT)%nat ->
  prio = RSCH_PRIO_IDLE \/ prio = RSCH_PRIO_MAX ->
  hoare session_ok (prec_approved_prio_set prec prio) session_ok.
Proof.
  intros Hlt Hprio. apply hoare_session_quiet.
  - now apply hoare_prec_approved_prio_set.
  - intros s a s' [Hok _] Hrun.
    destruct (approved_lookup_ok s prec Hok Hlt) as [cur Hcur].
    rewrite (prec_approved_prio_set_cases s prec prio cur Hlt Hcur) in Hrun.
    assert (Hsame : m_last_notified_prio s' = m_last_notified_prio s /\
                    trace s' = trace s).
    { destruct (_ && _); [inversion Hrun; subst; now split|].
      destruct (_ || _); [inversion Hrun; subst; now split|discriminate]. }
    destruct Hsame as [Hl Ht]. split; [exact Hl|].
    exists []. now rewrite app_nil_r.
Qed.

Lemma hoare_session_all_prec_update (fuel : nat) :
  hoare session_ok (all_prec_update fuel) session_ok.
Proof.
  apply hoare_session_quiet; [apply hoare_all_prec_update|].
  intros s a s' [Hok _] Hrun. destruct fuel as [|fuel]; [discriminate|].
  rewrite all_prec_update_total in Hrun by exact Hok.
  inversion Hrun; subst; clear Hrun.
  destruct (all_prec_update_result_frame s) as (_ & _ & _ & _ & Hl & _).
  destruct (all_prec_update_result_events s) as (evs & Htr & Hevs & _).
  split; [exact Hl|]. exists evs. split; [exact Htr|].
  now apply collaborator_requests_quiet.
Qed.

Lemma notify_core_result_session_ok (s : rsch) :
  session_ok s -> session_ok (notify_core_result s).
Proof.
  intros [[Hok Hlv] [Hnr Hk]].
  unfold notify_core_result, notify_core_section_result.
  destruct (m_ntf_mutex s =? 0); [|now repeat split].
  destruct (Z.ltb_spec RSCH_PRIO_IDLE (m_cont_mode_prio s));
    cbn [andb]; [|now repeat split].
  destruct (Z.eqb_spec (m_last_notified_prio s) (approved_level s))
    as [Hsame|Hdiff]; cbn [negb]; [now repeat split|].
  split; [now split|]. unfold reports_ok.
  cbn [trace set_trace m_last_notified_prio set_last_notified_prio].
  rewrite reported_levels_app. cbn [reported_levels flat_map app].
  split.
  - apply no_repeat_snoc; [exact Hnr|].
    intros p Hp. rewrite <- (Hk p Hp). exact Hdiff.
  - intros p. rewrite last_snoc. now intros [= <-].
Qed.

Lemma hoare_session_notify_core (fuel : nat) :
  hoare session_ok (notify_core fuel) session_ok.
Proof.
  destruct fuel as [|fuel]; intros s Hs; [exact I|].
  rewrite notify_core_total by (destruct Hs as [[Hok _] _]; exact Hok).
  now apply notify_core_result_session_ok.
Qed.

Lemma hoare_session_timer_sched_add (round_up : bool) :
  hoare session_ok (timer_sched_add round_up) session_ok.
Proof.
  unfold timer_sched_add.
  eapply hoare_bind; [apply hoare_gets|intros t].
  eapply hoare_bind; [now apply hoare_session_call|intros _].
  now apply hoare_session_frame.
Qed.

Lemma hoare_session_delayed_timeslot_start :
  hoare session_ok delayed_timeslot_start session_ok.
Proof.
  apply hoare_session_quiet; [apply hoare_delayed_timeslot_start|].
  intros s a s' [Hok _] Hrun.
  rewrite delayed_timeslot_start_result in Hrun by exact Hok.
  inversion Hrun; subst; clear Hrun. split; [reflexivity|].
  eexists. split; [reflexivity|]. cbn. now destruct (_ <=? _).
Qed.

Lemma hoare_session_delayed_timeslot_prec_request (fuel : nat) :
  hoare session_ok (delayed_timeslot_prec_request fuel) session_ok.
Proof.
  unfold delayed_timeslot_prec_request.
  eapply hoare_bind; [apply hoare_session_all_prec_update|intros _].
  eapply hoare_bind; [apply hoare_gets|intros t0].
  eapply hoare_bind; [apply hoare_gets|intros dt].
  eapply hoare_bind; [now apply hoare_session_frame|intros _].
  apply hoare_session_timer_sched_add.
Qed.

Lemma hoare_session_delayed_timeslot_request (t0 dt length prio : Z) :
  hoare session_ok
    (nrf_802154_rsch_delayed_timeslot_request t0 dt length prio) session_ok.
Proof.
  unfold nrf_802154_rsch_delayed_timeslot_request.
  eapply hoare_bind; [apply hoare_gets|intros now].
  eapply hoare_bind; [apply hoare_gets|intros running].
  eapply hoare_bind; [apply hoare_assert|intros _].
  eapply hoare_bind; [apply hoare_gets|intros delayed].
  eapply hoare_bind; [apply hoare_assert|intros _].
  eapply hoare_bind; [apply hoare_assert|intros _].
  apply hoare_if.
  - do 4 (eapply hoare_bind; [now apply hoare_session_frame|intros _]).
    eapply hoare_bind; [apply hoare_session_timer_sched_add|intros _].
    apply hoare_ret.
  - eapply hoare_bind; [apply hoare_gets|intros at_max].
    apply hoare_if; [|apply hoare_ret].
    do 4 (eapply hoare_bind; [now apply hoare_session_frame|intros _]).
    eapply hoare_bind; [apply hoare_session_timer_sched_add|intros _].
    apply hoare_ret.
Qed.

Lemma hoare_session_prec_is_approved (prec : nat) (prio : Z) :
  hoare session_ok (nrf_802154_rsch_prec_is_approved prec prio) session_ok.
Proof.
  intros s Hs. unfold nrf_802154_rsch_prec_is_approved. run_monad.
  destruct (Nat.ltb_spec prec RSCH_PREC_CNT) as [Hlt|Hge]; [|exact I].
  destruct Hs as [[Hok Hlv] Hrep].
  destruct (approved_lookup_ok s prec Hok Hlt) as [a ->].
  exact (conj (conj Hok Hlv) Hrep).
Qed.

Lemma hoare_session_handler (fuel : nat) (prec : nat) (prio : Z) :
  (prec < RSCH_PREC_CNT)%nat ->
  prio = RSCH_PRIO_IDLE \/ prio = RSCH_PRIO_MAX ->
  hoare session_ok (prec_approved_prio_set prec prio ;;; notify_core fuel)
    session_ok.
Proof.
  intros Hprec Hprio.
  eapply hoare_bind;
    [now apply hoare_session_prec_approved_prio_set|intros _].
  apply hoare_session_notify_core.
Qed.

Lemma hoare_session_run (fuel : nat) (c : api_call) :
  in_session c -> hoare session_ok (run fuel c) session_ok.
Proof.
  destruct c; cbn [run in_session]; intros Hc.
  - contradiction.
  - unfold nrf_802154_rsch_uninit.
    eapply hoare_bind; [now apply hoare_session_call|intros _].
    eapply hoare_bind; [now apply hoare_session_frame|intros _].
    now apply hoare_session_call.
  - unfold nrf_802154_rsch_continuous_mode_priority_set.
    eapply hoare_bind; [now apply hoare_session_frame|intros _].
    eapply hoare_bind; [apply hoare_session_all_prec_update|intros _].
    eapply hoare_bind; [apply hoare_session_notify_core|intros _].
    apply Z.eqb_neq in Hc. rewrite Hc. apply hoare_ret.
  - eapply hoare_bind;
      [apply hoare_session_delayed_timeslot_request|intros _].
    apply hoare_ret.
  - eapply hoare_bind; [apply hoare_session_prec_is_approved|intros _].
    apply hoare_ret.
  - apply hoare_session_handler; [cbv; lia|now right].
  - apply hoare_session_handler; [cbv; lia|now left].
  - apply hoare_session_handler; [cbv; lia|now right].
  - unfold timer_fired.
    eapply hoare_bind; [apply hoare_gets|intros running].
    apply hoare_if; [|apply hoare_ret].
    eapply hoare_bind; [now apply hoare_session_frame|intros _].
    eapply hoare_bind; [apply hoare_gets|intros t].
    destruct (timer_callback_fn t) as [[]|].
    + apply hoare_session_delayed_timeslot_prec_request.
    + apply hoare_session_delayed_timeslot_start.
    + apply hoare_ret.
  - now apply hoare_session_frame.
Qed.

Lemma run_all_session_ok (fuel : nat) (cs : list api_call) (s s' : rsch) :
  Forall in_session cs -> session_ok s ->
  run_all fuel cs s = Done tt s' -> session_ok s'.
Proof.
  revert s. induction cs as [|c cs IH]; intros s Hcs Hs Hrun.
  - injection Hrun as <-. exact Hs.
  - apply Forall_cons in Hcs as [Hc Hcs].
    cbn [run_all] in Hrun. unfold bind in Hrun.
    pose proof (hoare_session_run fuel c Hc s Hs) as Hstep.
    destruct (run fuel c s) as [[] s1|f|]; try discriminate.
    now apply (IH s1).
Qed.

(** C3, as the code has it: a notifier invocation that gets its mutex tells
    the driver core the approved level exactly when continuous mode is
    active and that level differs from the last level notified, and then
    remembers it; otherwise it changes nothing, and nothing is notified
    while continuous mode is inactive.  As long as continuous mode is not
    left and the module is not initialised anew, that is over any run of
    calls other than [nrf_802154_rsch_init] and
    [nrf_802154_rsch_continuous_mode_priority_set] with the idle level,
    which both reset the last notified level, the driver core is never told
    the same level twice in a row. *)
Theorem notify_core_reports_each_change_once (s : rsch) (fuel : nat) :
  array_ok s ->
  (m_ntf_mutex s = 0 ->
   exists approved s',
     approved_prio_lvl_get s = Done approved s /\
     notify_core (S fuel) s = Done tt s' /\
     (RSCH_PRIO_IDLE < m_cont_mode_prio s /\
      approved <> m_last_notified_prio s ->
      s' = set_trace
             (trace s ++ [nrf_802154_rsch_continuous_prio_changed approved])
             (set_last_notified_prio approved s)) /\
     (~ (RSCH_PRIO_IDLE < m_cont_mode_prio s /\
         approved <> m_last_notified_prio s) ->
      s' = s) /\
     (m_cont_mode_prio s <= RSCH_PRIO_IDLE -> trace s' = trace s) /\
     notify_core (S fuel) s' = Done tt s') /\
  (levels_ok s -> reports_ok s ->
   forall (fuel' : nat) (cs : list api_call) (s' : rsch),
     Forall in_session cs ->
     run_all fuel' cs s = Done tt s' ->
     reports_ok s').
Proof.
  intros Hok. split.
  - intros Hfree. now apply notify_core_reports_changes.
  - intros Hlv Hrep fuel' cs s' Hcs Hrun.
    now apply (run_all_session_ok fuel' cs s s' Hcs (conj Hlv Hrep)).
Qed.

(** *** Repeating a continuous-mode priority *)

Lemma all_prec_update_result_requests (s : rsch) :
  m_req_mutex s = 0 ->
  trace (all_prec_update_result s) =
    trace s ++
    (if m_requested_prio s =? required_prio_lvl_get s then []
     else if required_prio_lvl_get s =? RSCH_PRIO_IDLE
     then [nrf_802154_priority_drop_hfclk_stop;
           nrf_raal_continuous_mode_exit]
     else [nrf_802154_priority_drop_hfclk_stop_terminate;
           nrf_802154_clock_hfclk_start;
           nrf_raal_continuous_mode_enter]) /\
  m_requested_prio (all_prec_update_result s) = required_prio_lvl_get s.
Proof.
  intros Hfree.
  unfold all_prec_update_result, all_prec_update_section_result.
  rewrite Hfree. cbn [Z.eqb].
  destruct (Z.eqb_spec (m_requested_prio s) (required_prio_lvl_get s)).
  - now rewrite app_nil_r.
  - now destruct (required_prio_lvl_get s =? RSCH_PRIO_IDLE).
Qed.

Lemma notify_core_result_reports (s : rsch) :
  exists evs,
    trace (notify_core_result s) = trace s ++ evs /\
    filter is_collaborator_request evs = [] /\
    m_requested_prio (notify_core_result s) = m_requested_prio s /\
    m_cont_mode_prio (notify_core_result s) = m_cont_mode_prio s /\
    m_req_mutex (notify_core_result s) = m_req_mutex s.
Proof.
  unfold notify_core_result, notify_core_section_result.
  destruct (m_ntf_mutex s =? 0).
  - destruct (_ && _).
    + eexists. split; [reflexivity|]. now repeat split.
    + exists []. rewrite app_nil_r. now repeat split.
  - exists []. rewrite app_nil_r. now repeat split.
Qed.

(** C7, as the code has it: the first of two calls with the same priority
    records the priority and, with the request mutex free, brings the
    requested level to the required one, calling the clock and the arbiter
    exactly when that changes the requested level.  The second call, made
    at any later time at which the activation window of a delayed timeslot
    is as open or as closed as it was after the first, finds the required
    level already requested: it calls nobody and leaves the requested level
    as it is. *)
Theorem continuous_mode_priority_set_twice
    (s : rsch) (fuel1 fuel2 : nat) (prio now' : Z) :
  array_ok s ->
  exists s1 s2,
    nrf_802154_rsch_continuous_mode_priority_set (S fuel1) prio s =
      Done tt s1 /\
    nrf_802154_rsch_continuous_mode_priority_set (S fuel2) prio
      (set_sched_time now' s1) = Done tt s2 /\
    m_cont_mode_prio s1 = prio /\
    (m_req_mutex s = 0 ->
     m_requested_prio s1 =
       required_prio_lvl_get (set_cont_mode_prio prio s) /\
     filter is_collaborator_request (new_events s s1) =
       if m_requested_prio s =?
          required_prio_lvl_get (set_cont_mode_prio prio s)
       then []
       else if required_prio_lvl_get (set_cont_mode_prio prio s) =?
               RSCH_PRIO_IDLE
       then [nrf_802154_priority_drop_hfclk_stop;
             nrf_raal_continuous_mode_exit]
       else [nrf_802154_priority_drop_hfclk_stop_terminate;
             nrf_802154_clock_hfclk_start;
             nrf_raal_continuous_mode_enter]) /\
    (any_prec_should_be_requested_for_delayed_timeslot
       (set_sched_time now' s1) =
     any_prec_should_be_requested_for_delayed_timeslot s1 ->
     (m_req_mutex s = 0 ->
      required_prio_lvl_get (set_sched_time now' s1) =
        m_requested_prio s1) /\
     new_events s1 s2 = [] /\
     m_requested_prio s2 = m_requested_prio s1).
Proof.
  intros Hok.
  exists (continuous_mode_priority_set_result prio s).
  eexists.
  split; [now apply continuous_mode_priority_set_total|].
  split.
  { apply continuous_mode_priority_set_total.
    now apply continuous_mode_priority_set_result_array_ok. }
  destruct (continuous_mode_priority_set_settles s prio) as (Hc & Hr & _).
  split; [exact Hc|].
  set (s0 := set_cont_mode_prio prio s).
  destruct (notify_core_result_reports (all_prec_update_result s0))
    as (evs & Htr & Hevs & Hq & _ & Hm).
  assert (Hproj : forall s1,
    s1 = continuous_mode_priority_set_result prio s ->
    trace s1 = trace (all_prec_update_result s0) ++ evs /\
    m_requested_prio s1 = m_requested_prio (all_prec_update_result s0) /\
    m_req_mutex s1 = m_req_mutex (all_prec_update_result s0)).
  { intros s1 ->. unfold continuous_mode_priority_set_result. fold s0.
    rewrite <- Htr, <- Hq, <- Hm. now destruct (prio =? RSCH_PRIO_IDLE). }
  destruct (Hproj _ eq_refl) as (Htr1 & Hq1 & Hm1).
  split.
  - intros Hfree.
    destruct (all_prec_update_result_requests s0 Hfree) as [Hreqs Hnew].
    split; [now rewrite Hq1|].
    unfold new_events. rewrite Htr1, Hreqs.
    change (trace s0) with (trace s). change (m_requested_prio s0)
      with (m_requested_prio s).
    rewrite <- app_assoc, drop_app_length, filter_app, Hevs, app_nil_r.
    destruct (_ =? _); [reflexivity|]. now destruct (_ =? _).
  - intros Hwin.
    destruct (continuous_mode_priority_set_later s prio now' Hwin)
      as [Htr2 Hq2].
    split; [|split; [|exact Hq2]].
    + intros Hfree.
      assert (Hsame : required_prio_lvl_get
                        (set_sched_time now'
                           (continuous_mode_priority_set_result prio s)) =
                      required_prio_lvl_get
                        (continuous_mode_priority_set_result prio s)).
      { unfold required_prio_lvl_get. now rewrite Hwin. }
      rewrite Hsame. symmetry. apply Hr. rewrite Hm1.
      destruct (all_prec_update_result_frame s0)
        as (_ & _ & _ & _ & _ & _ & Hrm & _).
      now rewrite Hrm.
    + unfold new_events. rewrite Htr2.
      change (trace (set_sched_time now'
                       (continuous_mode_priority_set_result prio s)))
        with (trace (continuous_mode_priority_set_result prio s)).
      apply drop_all.
Qed.

End Sessions.

(** ** The two corrected statements at concrete inputs *)

Lemma notify_core_reports_each_change_once_witness :
  array_ok (listening [1; 1]) /\
  reports_ok (listening [1; 1]) /\
  match
    run_all 1 [do_raal_timeslot_ended; do_raal_timeslot_started;
               do_raal_timeslot_ended] (listening [1; 1])
  with
  | Done _ s' => reports_ok s'
  | _ => False
  end.
Proof.
  assert (Hlv : levels_ok (listening [1; 1])).
  { split; [reflexivity|]. cbn. repeat constructor; now right. }
  assert (Hrep : reports_ok (listening [1; 1])).
  { split; [exact I|]. intros p Hp. discriminate Hp. }
  split; [reflexivity|]. split; [exact Hrep|].
  destruct (notify_core_reports_each_change_once (listening [1; 1]) 0
              eq_refl) as [_ Hsession].
  specialize (Hsession Hlv Hrep 1%nat
                [do_raal_timeslot_ended; do_raal_timeslot_started;
                 do_raal_timeslot_ended]).
  destruct (run_all 1 _ (listening [1; 1])) as [[] s'|f|] eqn:Hrun.
  - apply (Hsession s'); [|reflexivity].
    repeat constructor.
  - vm_compute in Hrun. discriminate Hrun.
  - vm_compute in Hrun. discriminate Hrun.
Defined.

(** The same level is reported twice in a row when continuous mode is left
    and entered again while a delayed timeslot keeps the preconditions
    requested and approved. *)
Lemma notify_core_reports_again_after_exit :
  match
    run_all 1 [do_delayed_timeslot_request 1000 500 200 1;
               do_time_passes 1195;
               do_continuous_mode_priority_set 1;
               do_clock_hfclk_ready; do_raal_timeslot_started;
               do_continuous_mode_priority_set 0;
               do_continuous_mode_priority_set 1] (initialised 100)
  with
  | Done _ s' =>
      reported_levels (trace s') = [1; 1] /\
      m_approved_prios s' = [1; 1] /\
      ~ no_repeat (reported_levels (trace s'))
  | _ => False
  end.
Proof.
  vm_compute. split; [reflexivity|]. split; [reflexivity|].
  intros [Hdiff _]. now apply Hdiff.
Qed.

Lemma continuous_mode_priority_set_twice_witness :
  array_ok (initialised 0) /\
  exists s1 s2,
    nrf_802154_rsch_continuous_mode_priority_set 1 1 (initialised 0) =
      Done tt s1 /\
    nrf_802154_rsch_continuous_mode_priority_set 1 1
      (set_sched_time 5000 s1) = Done tt s2 /\
    filter is_collaborator_request (new_events (initialised 0) s1) =
      [nrf_802154_priority_drop_hfclk_stop_terminate;
       nrf_802154_clock_hfclk_start;
       nrf_raal_continuous_mode_enter] /\
    new_events s1 s2 = [] /\
    m_requested_prio s2 = m_requested_prio s1.
Proof.
  split; [reflexivity|].
  destruct (continuous_mode_priority_set_twice (initialised 0) 0 0 1 5000
              eq_refl)
    as (s1 & s2 & Hrun1 & Hrun2 & _ & Hfirst & Hsecond).
  exists s1, s2. split; [exact Hrun1|]. split; [exact Hrun2|].
  destruct (Hfirst eq_refl) as [_ Hevents].
  assert (Hs1 : s1 = continuous_mode_priority_set_result 1 (initialised 0)).
  { rewrite continuous_mode_priority_set_total in Hrun1 by reflexivity.
    now inversion Hrun1. }
  split; [exact Hevents|].
  destruct Hsecond as (_ & Hnone & Hreq); [|now split].
  rewrite Hs1. vm_compute. reflexivity.
Defined.

(** When the activation window of a recorded delayed timeslot opens between
    the two calls, here between time 1189 and time 1190, the second call
    with the same priority does call the clock and the arbiter and does
    move the requested level. *)
Lemma continuous_mode_priority_set_not_idempotent_across_window :
  match
    nrf_802154_rsch_continuous_mode_priority_set 1 0
      (set_sched_time 1189 (pending 100))
  with
  | Done _ s1 =>
      match
        nrf_802154_rsch_continuous_mode_priority_set 1 0
          (set_sched_time 1190 s1)
      with
      | Done _ s2 =>
          new_events s1 s2 =
            [nrf_802154_priority_drop_hfclk_stop_terminate;
             nrf_802154_clock_hfclk_start;
             nrf_raal_continuous_mode_enter] /\
          m_requested_prio s1 = 0 /\ m_requested_prio s2 = 1
      | _ => False
      end
  | _ => False
  end.
Proof. vm_compute. repeat split; reflexivity. Qed.
